(** * Orchestration core of the daily-activity generator

    A shallow embedding of the decision logic of the repository:
    commit grouping ([src/automation/git_manager.py]), the skill ledger
    ([src/planning/skill_mapper.py]), streak analytics
    ([src/tracking/analytics.py]), novelty validation
    ([src/planning/project_planner.py]), the workflow engine
    ([src/orchestration/workflow_engine.py]), the daily scheduler
    ([src/automation/scheduler.py]), the seeding of the tables
    ([src/database.py]), environment variables in the configuration
    ([src/config_manager.py]), directory names
    ([src/generation/code_generator.py]) and the progress bar of the
    dashboard ([src/tracking/dashboard.py]).

    Conventions.  Python [str] is [string] (paths and titles are taken to be
    ASCII, so [str.lower] only moves 'A'..'Z'); Python [int] is [Z] or [nat]
    where the value is a length; Python [float] is idealised as an exact
    rational [Q]; timestamps are seconds as [Z], calendar dates are day
    numbers as [Z].  SQLAlchemy tables are lists of rows in storage order,
    the order in which SQLite answers a query that scans a table; a query
    answered through an index returns its rows in the order of the index.
    Module [Spec] holds the notions of the specification that the
    properties compare the program with. *)

From Stdlib Require Import ZArith QArith Qminmax Qround Lqa List String Ascii Bool Lia.
From Stdlib Require Import Permutation Sorted.
Import ListNotations.

Local Open Scope string_scope.
Local Open Scope list_scope.
Local Open Scope Z_scope.

(* ===================================================================== *)
(** ** Python built-ins used by the sources *)
(* ===================================================================== *)

Module Py.

(** [c.lower()] on one ASCII character. *)
Definition lower_ascii (c : ascii) : ascii :=
  let n := nat_of_ascii c in
  if (65 <=? n)%nat && (n <=? 90)%nat then ascii_of_nat (n + 32) else c.

(** [s.lower()] on a string for which [s.isascii()] holds: only the
    letters 'A'..'Z' have another lower case. *)
Fixpoint lower (s : string) : string :=
  match s with
  | EmptyString => EmptyString
  | String c s' => String (lower_ascii c) (lower s')
  end.

(** [s.startswith(p)] *)
Definition startswith (s p : string) : bool := String.prefix p s.

(** [needle in hay] on strings: [needle] occurs at some offset of [hay]. *)
Fixpoint contains (needle hay : string) : bool :=
  String.prefix needle hay ||
  match hay with
  | EmptyString => false
  | String _ hay' => contains needle hay'
  end.

(** [any(x in s for x in keys)] *)
Definition contains_any (keys : list string) (s : string) : bool :=
  existsb (fun x => contains x s) keys.

(** [next((m for m in l if p(m)), default)] *)
Definition next_or {A} (p : A -> bool) (l : list A) (default : A) : A :=
  match find p l with
  | Some m => m
  | None => default
  end.

(** [PurePath.name]: the final component of a '/'-separated path. *)
Fixpoint name_from (acc : string) (s : string) : string :=
  match s with
  | EmptyString => acc
  | String c s' =>
      if Ascii.eqb c "/"%char then name_from s' s' else name_from acc s'
  end.

Definition name (path : string) : string := name_from path path.

(** [l[:n]] and [l[n:]] for an [int] index, negative indices counting from
    the end as Python does. *)
Definition slice_to {A} (l : list A) (n : Z) : list A :=
  if n <? 0 then firstn (Z.to_nat (Z.of_nat (List.length l) + n)) l
  else firstn (Z.to_nat n) l.

Definition slice_from {A} (l : list A) (n : Z) : list A :=
  if n <? 0 then skipn (Z.to_nat (Z.of_nat (List.length l) + n)) l
  else skipn (Z.to_nat n) l.

(** [sorted(l, key=...)]: Python's sort is stable; [lt a b] is the strict
    comparison of the keys of [a] and [b].  Stable insertion: an element is
    placed before the first element that is not strictly smaller. *)
Section Sorted.
Context {A : Type} (lt : A -> A -> bool).

Fixpoint insert (x : A) (l : list A) : list A :=
  match l with
  | [] => [x]
  | y :: l' => if lt y x then y :: insert x l' else x :: y :: l'
  end.

Definition sorted (l : list A) : list A := fold_right insert [] l.
End Sorted.

(** [sum(l)] and [sum(l) / len(l)] over idealised floats. *)
Definition sum (l : list Q) : Q := fold_right Qplus (0#1)%Q l.

Definition mean (l : list Q) : Q := (sum l / inject_Z (Z.of_nat (List.length l)))%Q.


(** [s.endswith(suffix)] *)
Definition endswith (s suffix : string) : bool :=
  let n := String.length s in
  let m := String.length suffix in
  (m <=? n)%nat && String.eqb (String.substring (n - m) m s) suffix.

(** [s[start:stop]] on a string, negative indices counting from the end
    and both ends clipped to the string as Python does. *)
Definition clip (n i : Z) : Z :=
  if i <? 0 then Z.max 0 (n + i) else Z.min i n.

Definition str_slice (s : string) (start stop : Z) : string :=
  let n := Z.of_nat (String.length s) in
  let a := clip n start in
  let b := clip n stop in
  String.substring (Z.to_nat a) (Z.to_nat (b - a)) s.

(** [s.replace(old, new)] for one-character [old] and [new]. *)
Fixpoint replace_char (old new : ascii) (s : string) : string :=
  match s with
  | EmptyString => EmptyString
  | String c s' =>
      String (if Ascii.eqb c old then new else c) (replace_char old new s')
  end.

(** [''.join(f(c) for c in s if keep(c))] *)
Fixpoint filter_chars (keep : ascii -> bool) (s : string) : string :=
  match s with
  | EmptyString => EmptyString
  | String c s' =>
      if keep c then String c (filter_chars keep s')
      else filter_chars keep s'
  end.

(** [c.isalnum()] and [c.isupper()] on an ASCII character. *)
Definition isalnum (c : ascii) : bool :=
  let n := nat_of_ascii c in
  ((48 <=? n) && (n <=? 57) || (65 <=? n) && (n <=? 90)
   || (97 <=? n) && (n <=? 122))%nat.

Definition isupper (c : ascii) : bool :=
  let n := nat_of_ascii c in ((65 <=? n) && (n <=? 90))%nat.

(** [sep.join(l)] *)
Fixpoint join (sep : string) (l : list string) : string :=
  match l with
  | [] => EmptyString
  | [x] => x
  | x :: rest => x ++ sep ++ join sep rest
  end.


(** [all(p(c) for c in s)] *)
Fixpoint all_chars (p : ascii -> bool) (s : string) : bool :=
  match s with
  | EmptyString => true
  | String c s' => p c && all_chars p s'
  end.

(** [s.isascii()] *)
Definition isascii (s : string) : bool :=
  all_chars (fun c => (nat_of_ascii c <? 128)%nat) s.

(** [int(x)]: truncation toward zero. *)
Definition int_of (x : Q) : Z :=
  if Qle_bool 0 x then Qfloor x else Qceiling x.

(** [c * n] for a character [c]: empty when [n] is not positive. *)
Definition repeat_char (c : ascii) (n : Z) : string :=
  Nat.iter (Z.to_nat n) (String c) EmptyString.

End Py.

(* ===================================================================== *)
(** ** Entities of [src/database.py] *)
(* ===================================================================== *)

Module Database.

(** Of each table only the columns that the modelled code reads or writes
    are kept. *)

Inductive DifficultyLevel := BEGINNER | INTERMEDIATE | ADVANCED.

Inductive ProjectCategory := AI_ML | FULL_STACK | SYSTEM_DESIGN | SECURITY_BLOCKCHAIN.

(** Iteration order of [for category in ProjectCategory]. *)
Definition all_categories : list ProjectCategory :=
  [AI_ML; FULL_STACK; SYSTEM_DESIGN; SECURITY_BLOCKCHAIN].

(** [category.value] *)
Definition category_value (c : ProjectCategory) : string :=
  match c with
  | AI_ML => "ai_ml"
  | FULL_STACK => "full_stack"
  | SYSTEM_DESIGN => "system_design"
  | SECURITY_BLOCKCHAIN => "security_blockchain"
  end.

Definition category_eqb (a b : ProjectCategory) : bool :=
  match a, b with
  | AI_ML, AI_ML | FULL_STACK, FULL_STACK
  | SYSTEM_DESIGN, SYSTEM_DESIGN
  | SECURITY_BLOCKCHAIN, SECURITY_BLOCKCHAIN => true
  | _, _ => false
  end.

Inductive ProjectStatus := PLANNED | IN_PROGRESS | COMPLETED | FAILED.

Definition Time := Z.

Record Skill := mkSkill {
  skill_name : string;
  skill_category : ProjectCategory;
  proficiency : Q;
  projects_count : Z;
  last_used : option Time;
  updated_at : Time
}.

Record Project := mkProject {
  project_id : Z;
  title : string;
  category : ProjectCategory;
  difficulty : DifficultyLevel;
  technologies : list string;
  status : ProjectStatus;
  lines_of_code : Z;
  has_readme : bool;
  created_at : Time;
  completed_at : option Time
}.

Record Commit := mkCommit {
  commit_project_id : Z;
  commit_message : string;
  commit_type : string;
  files_changed : list string
}.

Record DailyActivity := mkDailyActivity {
  date : Time;
  projects_created : Z;
  projects_completed : Z;
  lines_added : Z;
  technologies_used : list string
}.

Record Achievement := mkAchievement {
  achievement_name : string;
  criteria_type : string;
  criteria_value : Z;
  is_unlocked : bool;
  unlocked_at : option Time
}.

End Database.

(* ===================================================================== *)
(** ** [src/automation/git_manager.py]: commit strategy *)
(* ===================================================================== *)

Module GitManager.
Import Database.

(** One entry of [commit_groups]: [{"files": ..., "msg": ...}]. *)
Record CommitGroup := mkGroup {
  files : list string;
  msg : string
}.

(** The three lists filled by the categorisation loop. *)
Record Buckets := mkBuckets {
  config_docs : list string;
  source_code : list string;
  tests : list string
}.

Definition config_keywords : list string :=
  ["readme"; "requirements"; "license"; "config"; ".gitignore"; "changelog"].

(** [[f for f in project_dir.rglob("*") if f.is_file()
      and not f.name.startswith(".git")]], over the relative paths of the
    files that [rglob] enumerates, in enumeration order. *)
Definition files_to_commit (rglob : list string) : list string :=
  filter (fun f => negb (Py.startswith (Py.name f) ".git")) rglob.

(** The two tests of the categorisation loop, on
    [path_str = str(rel_path).lower()]. *)
Definition is_test_path (rel_path : string) : bool :=
  Py.contains "test" (Py.lower rel_path).

Definition is_config_path (rel_path : string) : bool :=
  Py.contains_any config_keywords (Py.lower rel_path).

(** The remaining case of the loop: the [else] branch. *)
Definition is_source_path (p : string) : bool :=
  negb (is_test_path p) && negb (is_config_path p).

(** Body of [for file_path in files_to_commit]. *)
Definition categorize_file (b : Buckets) (rel_path : string) : Buckets :=
  if is_test_path rel_path then
    mkBuckets (config_docs b) (source_code b) (tests b ++ [rel_path])
  else if is_config_path rel_path then
    mkBuckets (config_docs b ++ [rel_path]) (source_code b) (tests b)
  else
    mkBuckets (config_docs b) (source_code b ++ [rel_path]) (tests b).

Definition categorize (paths : list string) : Buckets :=
  fold_left categorize_file paths (mkBuckets [] [] []).

Definition chore_msg (commits_plan : list string) : string :=
  Py.next_or (fun m => Py.contains "chore" m || Py.contains "init" m)
             commits_plan "chore: initial project structure".

Definition feat_msg (commits_plan : list string) : string :=
  Py.next_or (fun m => Py.contains "feat" m)
             commits_plan "feat: implement core functionality".

Definition refactor_msg (commits_plan : list string) : string :=
  Py.next_or (fun m => Py.contains "refactor" m || Py.contains "fix" m)
             commits_plan "refactor: optimize implementation".

Definition test_msg (commits_plan : list string) : string :=
  Py.next_or (fun m => Py.contains "test" m)
             commits_plan "test: add unit tests".

(** [if l: commit_groups.append(g)] *)
Definition group_if_any (l : list string) (m : string) : list CommitGroup :=
  match l with
  | [] => []
  | _ :: _ => [mkGroup l m]
  end.

(** The ["detailed"] branch for the source bucket. *)
Definition split_source (commits_plan : list string) (src : list string)
  : list CommitGroup :=
  match src with
  | [] => []
  | _ :: _ =>
      let mid := (List.length src / 2)%nat in
      if (0 <? mid)%nat then
        [ mkGroup (firstn mid src) (feat_msg commits_plan);
          mkGroup (skipn mid src) (refactor_msg commits_plan) ]
      else
        [ mkGroup src (feat_msg commits_plan) ]
  end.

(** The list [commit_groups] built by [create_commits]. *)
Definition commit_groups (commit_strategy : string)
           (commits_plan : list string) (rglob : list string)
  : list CommitGroup :=
  let b := categorize (files_to_commit rglob) in
  if String.eqb commit_strategy "detailed" then
    group_if_any (config_docs b) (chore_msg commits_plan)
    ++ split_source commits_plan (source_code b)
    ++ group_if_any (tests b) (test_msg commits_plan)
  else
    group_if_any (config_docs b) (chore_msg commits_plan)
    ++ group_if_any (source_code b) (feat_msg commits_plan)
    ++ group_if_any (tests b) (test_msg commits_plan).

(** [msg.split(':')[0] if ':' in msg else "other"] *)
Fixpoint before_colon (s : string) : option string :=
  match s with
  | EmptyString => None
  | String c s' =>
      if Ascii.eqb c ":"%char then Some EmptyString
      else option_map (String c) (before_colon s')
  end.

Definition commit_type_of (m : string) : string :=
  match before_colon m with
  | Some t => t
  | None => "other"
  end.

(** The execution loop of [create_commits]: a group whose commit raises is
    reported and skipped ([commit_ok] is the outcome of
    [repo.index.commit] for the group). *)
Definition create_commits (commit_strategy : string)
           (commit_ok : CommitGroup -> bool)
           (rglob : list string) (commits_plan : list string)
           (project : Project) : list Commit :=
  flat_map
    (fun g =>
       match files g with
       | [] => []
       | _ :: _ =>
           if commit_ok g
           then [mkCommit (project_id project) (msg g)
                          (commit_type_of (msg g)) (files g)]
           else []
       end)
    (commit_groups commit_strategy commits_plan rglob).

(** The file list of the specification's example. *)
Definition example_files : list string :=
  ["README.md"; "src/a.py"; "src/b.py"; "src/c.py"; "tests/t.py"].


(** [project.title.lower().replace(" ", "-").replace("_", "-")]: the name
    of the remote repository. *)
Definition repo_name (title : string) : string :=
  Py.replace_char "_" "-" (Py.replace_char " " "-" (Py.lower title)).

End GitManager.

(* ===================================================================== *)
(** ** [src/planning/skill_mapper.py]: the skill ledger *)
(* ===================================================================== *)

Module SkillMapper.
Import Database.

(** Strict and weak comparison of idealised floats, as booleans. *)
Definition Qltb (a b : Q) : bool := negb (Qle_bool b a).
Definition Qgeb (a b : Q) : bool := Qle_bool b a.

(** [min(100, x)]: Python returns the first argument unless a later one is
    strictly smaller. *)
Definition min_100 (x : Q) : Q := if Qltb x 100 then x else 100%Q.

Definition CATEGORY_SKILLS (c : ProjectCategory) : list string :=
  match c with
  | AI_ML =>
      ["Machine Learning"; "Deep Learning"; "Natural Language Processing";
       "Computer Vision"; "MLOps"]
  | FULL_STACK =>
      ["Backend Development"; "Frontend Development"; "REST APIs";
       "Database Design"; "Web Frameworks"]
  | SYSTEM_DESIGN =>
      ["Distributed Systems"; "Caching Strategies"; "Message Queues";
       "Microservices"; "Load Balancing"]
  | SECURITY_BLOCKCHAIN =>
      ["Authentication"; "Encryption"; "Web Security";
       "Smart Contracts"; "Security Auditing"]
  end.

(** [session.query(Skill).filter(Skill.name.in_(skill_names)).all()].  The
    query has no [ORDER BY]: its rows come as SQLite, the engine that the
    repository configures, finds them, and SQLite answers an [IN] on the
    uniquely indexed column [name] by walking that index, so the rows come
    in ascending order of their names, compared byte by byte. *)
Definition name_lt (a b : Skill) : bool :=
  String.ltb (skill_name a) (skill_name b).

Definition get_skills_for_category (skills : list Skill)
           (category : ProjectCategory) : list Skill :=
  Py.sorted name_lt
            (filter (fun s => existsb (String.eqb (skill_name s))
                                      (CATEGORY_SKILLS category))
                    skills).

(** [focus_areas.get(category_key, 0)] on the [Dict[str, int]] of the
    validated configuration. *)
Fixpoint dict_get (focus_areas : list (string * Z)) (key : string)
         (default : Z) : Z :=
  match focus_areas with
  | [] => default
  | (k, v) :: rest =>
      if String.eqb k key then v else dict_get rest key default
  end.

(** [sum(s.proficiency for s in skills) / len(skills)] if [skills] else
    [0.0] *)
Definition avg_proficiency (skills : list Skill) : Q :=
  match skills with
  | [] => 0%Q
  | _ :: _ => Py.mean (map proficiency skills)
  end.

(** [target_weight * (100 - avg_proficiency) / 100] *)
Definition gap_score (target_weight : Z) (avg : Q) : Q :=
  (inject_Z target_weight * (100 - avg) / 100)%Q.

(** The dictionary returned by [get_skill_gaps], in insertion order. *)
Definition get_skill_gaps (focus_areas : list (string * Z))
           (skills : list Skill) : list (ProjectCategory * Q) :=
  map (fun category =>
         let target_weight := dict_get focus_areas (category_value category) 0 in
         let skills_c := get_skills_for_category skills category in
         (category, gap_score target_weight (avg_proficiency skills_c)))
      all_categories.

(** [max(gaps.items(), key=lambda x: x[1])[0]]: the first item whose score
    no later item strictly exceeds. *)
Fixpoint max_item (best : ProjectCategory * Q)
         (items : list (ProjectCategory * Q)) : ProjectCategory * Q :=
  match items with
  | [] => best
  | it :: rest =>
      if Qltb (snd best) (snd it) then max_item it rest else max_item best rest
  end.

Definition select_category_for_project (focus_areas : list (string * Z))
           (skills : list Skill) : ProjectCategory :=
  match get_skill_gaps focus_areas skills with
  | [] => AI_ML
  | it :: rest => fst (max_item it rest)
  end.

(** Comparison of the sort keys [(s.proficiency, s.projects_count)]:
    tuples compare by their first differing component. *)
Definition key_lt (a b : Skill) : bool :=
  if Qeq_bool (proficiency a) (proficiency b)
  then projects_count a <? projects_count b
  else Qltb (proficiency a) (proficiency b).

(** Ascending order of the pairs [(proficiency, projects_count)]. *)
Definition key_le (a b : Skill) : Prop :=
  (proficiency a < proficiency b)%Q \/
  ((proficiency a == proficiency b)%Q /\ projects_count a <= projects_count b).

Definition select_skills_for_project (skills : list Skill)
           (category : ProjectCategory) (num_skills : Z) : list Skill :=
  let skills_c := get_skills_for_category skills category in
  let sorted_skills := Py.sorted key_lt skills_c in
  Py.slice_to sorted_skills num_skills.

(** [difficulty_multipliers.get(difficulty, 2.0)] *)
Definition base_gain (difficulty : DifficultyLevel) : Q :=
  match difficulty with
  | BEGINNER => 2
  | INTERMEDIATE => 4
  | ADVANCED => 6
  end.

(** The gain after the diminishing-returns branch. *)
Definition actual_gain (current_prof : Q) (difficulty : DifficultyLevel)
           (contribution_weight : Q) : Q :=
  let g := (base_gain difficulty * contribution_weight)%Q in
  if Qgeb current_prof 80 then (g * (1#2))%Q
  else if Qgeb current_prof 50 then (g * (3#4))%Q
  else g.

(** [update_skill_proficiency]; [t_used] and [t_updated] are the two
    successive readings of [datetime.utcnow()]. *)
Definition update_skill_proficiency (skill : Skill)
           (difficulty : DifficultyLevel) (contribution_weight : Q)
           (t_used t_updated : Time) : Skill :=
  let current_prof := proficiency skill in
  let gain := actual_gain current_prof difficulty contribution_weight in
  mkSkill (skill_name skill) (skill_category skill)
          (min_100 (current_prof + gain)%Q)
          (projects_count skill + 1)
          (Some t_used) t_updated.

(** The gain as the specification words it: the base gain times the
    weight, halved from proficiency 80 on, times 0.75 from 50 on. *)
Definition spec_gain (p : Q) (difficulty : DifficultyLevel) (w : Q) : Q :=
  let g := (match difficulty with
            | BEGINNER => 2 | INTERMEDIATE => 4 | ADVANCED => 6
            end * w)%Q in
  if Qlt_le_dec p 80
  then (if Qlt_le_dec p 50 then g else g * (3#4))%Q
  else (g * (1#2))%Q.

Definition get_difficulty_for_proficiency (avg : Q) (rate : string)
  : DifficultyLevel :=
  let '(intermediate_threshold, advanced_threshold) :=
    if String.eqb rate "slow" then (40%Q, 70%Q)
    else if String.eqb rate "fast" then (20%Q, 50%Q)
    else (30%Q, 60%Q) in
  if Qltb avg intermediate_threshold then BEGINNER
  else if Qltb avg advanced_threshold then INTERMEDIATE
  else ADVANCED.


(** Position of a level and of a category in their enumerations. *)
Definition difficulty_rank (d : DifficultyLevel) : nat :=
  match d with
  | BEGINNER => 0
  | INTERMEDIATE => 1
  | ADVANCED => 2
  end.

Definition category_rank (c : ProjectCategory) : nat :=
  match c with
  | AI_ML => 0
  | FULL_STACK => 1
  | SYSTEM_DESIGN => 2
  | SECURITY_BLOCKCHAIN => 3
  end.

Definition SKILL_TECHNOLOGIES : list (string * list string) :=
  [ ("Machine Learning",
     ["python"; "scikit-learn"; "numpy"; "pandas"; "matplotlib"]);
    ("Deep Learning",
     ["python"; "pytorch"; "tensorflow"; "keras"; "transformers"]);
    ("Natural Language Processing",
     ["python"; "nltk"; "spacy"; "transformers"; "huggingface"]);
    ("Computer Vision",
     ["python"; "opencv"; "pytorch"; "tensorflow"; "pillow"]);
    ("MLOps", ["mlflow"; "kubeflow"; "docker"; "kubernetes"; "fastapi"]);
    ("Backend Development",
     ["python"; "fastapi"; "django"; "flask"; "nodejs"; "express"]);
    ("Frontend Development",
     ["javascript"; "typescript"; "react"; "nextjs"; "vue"; "html"; "css"]);
    ("REST APIs", ["fastapi"; "express"; "django-rest"; "swagger"; "postman"]);
    ("Database Design",
     ["postgresql"; "mongodb"; "redis"; "sqlite"; "sqlalchemy"]);
    ("Web Frameworks", ["fastapi"; "django"; "express"; "react"; "nextjs"]);
    ("Distributed Systems",
     ["docker"; "kubernetes"; "microservices"; "grpc"; "rabbitmq"]);
    ("Caching Strategies", ["redis"; "memcached"; "cdn"; "nginx"]);
    ("Message Queues", ["rabbitmq"; "kafka"; "celery"; "redis"]);
    ("Microservices", ["docker"; "kubernetes"; "grpc"; "consul"; "istio"]);
    ("Load Balancing", ["nginx"; "haproxy"; "aws-elb"; "kubernetes"]);
    ("Authentication",
     ["jwt"; "oauth"; "passport"; "auth0"; "session management"]);
    ("Encryption", ["cryptography"; "hashlib"; "bcrypt"; "aes"; "rsa"]);
    ("Web Security",
     ["owasp"; "xss-prevention"; "csrf"; "sql-injection-prevention"]);
    ("Smart Contracts",
     ["solidity"; "ethereum"; "web3"; "truffle"; "hardhat"]);
    ("Security Auditing",
     ["penetration-testing"; "vulnerability-scanning"; "security-analysis"]) ].

(** [SKILL_TECHNOLOGIES.get(name, [])] *)
Fixpoint technologies_get (table : list (string * list string))
         (name : string) : list string :=
  match table with
  | [] => []
  | (k, v) :: rest =>
      if String.eqb k name then v else technologies_get rest name
  end.

(** [technologies.update(l)] on a [set] kept as a duplicate-free list; the
    order of the list is one of the orders [list(technologies)] may have. *)
Definition set_update (technologies l : list string) : list string :=
  fold_left (fun acc x =>
               if existsb (String.eqb x) acc then acc else acc ++ [x])
            l technologies.

(** [get_technologies_for_skills] *)
Definition get_technologies_for_skills (skills : list Skill) : list string :=
  fold_left (fun technologies skill =>
               let skill_techs :=
                 technologies_get SKILL_TECHNOLOGIES (skill_name skill) in
               set_update technologies (Py.slice_to skill_techs 2))
            skills [].

(** [n] projects in a row practising the same skill. *)
Fixpoint practice (n : nat) (skill : Skill) (difficulty : DifficultyLevel)
         (contribution_weight : Q) (clock : nat -> Time) : Skill :=
  match n with
  | O => skill
  | S n' =>
      update_skill_proficiency
        (practice n' skill difficulty contribution_weight clock)
        difficulty contribution_weight
        (clock (2 * n')%nat) (clock (2 * n' + 1)%nat)
  end.

End SkillMapper.

(* ===================================================================== *)
(** ** [src/tracking/analytics.py]: the activity streak *)
(* ===================================================================== *)

Module Analytics.
Import Database.

(** [datetime.date()]: the calendar day of a timestamp in seconds. *)
Definition day_of (t : Time) : Z := t / 86400.

(** [activity.date.date()] *)
Definition day (a : DailyActivity) : Z := day_of (date a).

(** [session.query(DailyActivity).order_by(DailyActivity.date.desc()).all()] *)
Definition activities_desc (table : list DailyActivity) : list DailyActivity :=
  Py.sorted (fun a b => date b <? date a) table.

(** The loop [for i in range(1, len(activities))], with [prev] the day of
    [activities[i-1]] and [rest] the rows from index [i] on. *)
Fixpoint extend_streak (prev : Z) (rest : list DailyActivity) (streak : Z) : Z :=
  match rest with
  | [] => streak
  | a :: rest' =>
      let current := day a in
      if prev - current =? 1
      then extend_streak current rest' (streak + 1)
      else streak
  end.

(** [calculate_streak]; [utcnow] is the reading of [datetime.utcnow()]. *)
Definition calculate_streak (table : list DailyActivity) (utcnow : Time) : Z :=
  match activities_desc table with
  | [] => 0
  | a0 :: rest =>
      let today := day_of utcnow in
      let last_active := day a0 in
      if (last_active =? today) || (last_active =? today - 1)
      then extend_streak last_active rest 1
      else 0
  end.


(** [get_activity_history(days)]: the rows from the cutoff on, oldest
    first. *)
Definition get_activity_history (table : list DailyActivity) (utcnow : Time)
           (days : Z) : list DailyActivity :=
  let cutoff := utcnow - days * 86400 in
  Py.sorted (fun a b => date a <? date b)
            (filter (fun a => cutoff <=? date a) table).

(** [tech_counts[t] = tech_counts.get(t, 0) + 1] on a dictionary kept in
    insertion order. *)
Fixpoint bump (t : string) (tech_counts : list (string * Z))
  : list (string * Z) :=
  match tech_counts with
  | [] => [(t, 1)]
  | (k, n) :: rest =>
      if String.eqb k t then (k, n + 1) :: rest else (k, n) :: bump t rest
  end.

(** The loop of [get_top_technologies] over the projects. *)
Definition count_technologies (projects : list Project) : list (string * Z) :=
  fold_left (fun tech_counts p =>
               fold_left (fun acc t => bump t acc) (technologies p) tech_counts)
            projects [].

(** [sorted(tech_counts.items(), key=lambda x: x[1], reverse=True)[:limit]] *)
Definition get_top_technologies (projects : list Project) (limit : Z)
  : list (string * Z) :=
  Py.slice_to (Py.sorted (fun a b => snd b <? snd a)
                         (count_technologies projects))
              limit.

(** [round(x, 1)] on an idealised float: to the nearest tenth, a tie going
    to the even one. *)
Definition round1 (x : Q) : Q :=
  let y := (x * 10)%Q in
  let n := Qfloor y in
  let r := (y - inject_Z n)%Q in
  let m := if SkillMapper.Qltb r (1#2) then n
           else if SkillMapper.Qltb (1#2) r then n + 1
           else if Z.even n then n else n + 1 in
  (inject_Z m / 10)%Q.

Definition is_completed (p : Project) : bool :=
  match status p with
  | COMPLETED => true
  | _ => false
  end.

(** [min(completed * 5, 100)] *)
Definition project_score (completed : Z) : Z :=
  if 100 <? completed * 5 then 100 else completed * 5.

(** [min(streak * 3.33, 100)] *)
Definition streak_score (streak : Z) : Q :=
  let x := (inject_Z streak * (333#100))%Q in
  if SkillMapper.Qltb 100 x then 100%Q else x.

(** [calculate_portfolio_score] *)
Definition calculate_portfolio_score (skills : list Skill)
           (projects : list Project) (table : list DailyActivity)
           (utcnow : Time) : Q :=
  match skills with
  | [] => 0%Q
  | _ :: _ =>
      let avg_proficiency := Py.mean (map proficiency skills) in
      let completed := Z.of_nat (List.length (filter is_completed projects)) in
      let streak := calculate_streak table utcnow in
      let score :=
        (avg_proficiency * (1#2)
         + inject_Z (project_score completed) * (3#10)
         + streak_score streak * (2#10))%Q in
      round1 score
  end.

End Analytics.

(* ===================================================================== *)
(** ** [src/planning/project_planner.py]: novelty validation *)
(* ===================================================================== *)

Module ProjectPlanner.
Import Database.

Record ProjectBrief := mkBrief {
  brief_title : string;
  brief_category : ProjectCategory;
  brief_difficulty : DifficultyLevel;
  brief_technologies : list string;
  brief_skills : list string
}.

(** [timedelta(days=n)] in seconds. *)
Definition timedelta_days (n : Z) : Z := n * 86400.

(** [session.query(Project).filter(Project.title == title).first()] is
    not [None]. *)
Definition has_exact_title (projects : list Project)
           (project_brief : ProjectBrief) : bool :=
  match find (fun p => String.eqb (title p) (brief_title project_brief))
             projects with
  | Some _ => true
  | None => false
  end.

(** [s] occurs in [t] as a contiguous substring. *)
Definition is_substring (s t : string) : Prop :=
  exists pre post : string, t = (pre ++ s ++ post)%string.

(** [validate_project_novelty]; [projects] is the [Project] table and
    [utcnow] the reading of [datetime.utcnow()]. *)
Definition validate_project_novelty (projects : list Project) (utcnow : Time)
           (project_brief : ProjectBrief) : bool :=
  if has_exact_title projects project_brief then false
  else
      let cutoff := utcnow - timedelta_days 30 in
      let recent := filter (fun p => cutoff <=? created_at p) projects in
      let title_lower := Py.lower (brief_title project_brief) in
      negb (existsb
              (fun proj =>
                 Py.contains (Py.lower (title proj)) title_lower
                 || Py.contains title_lower (Py.lower (title proj)))
              recent).

End ProjectPlanner.

(* ===================================================================== *)
(** ** [src/orchestration/workflow_engine.py]: the daily workflow *)
(* ===================================================================== *)

Module WorkflowEngine.
Import Database ProjectPlanner.

(** The tables behind the SQLAlchemy session. *)
Record DB := mkDB {
  projects : list Project;
  skills : list Skill;
  project_skills : list (Z * string * Q);
  commits : list Commit;
  daily_activities : list DailyActivity;
  achievements : list Achievement
}.

(** A session: what has been committed, and the unit of work as the
    program sees it (committed rows plus uncommitted changes). *)
Record Session := mkSession {
  persisted : DB;
  pending : DB
}.

(** What a call to an external collaborator does. *)
Inductive Outcome (A : Type) :=
| Returns (a : A)
| Raises.
Arguments Returns {A} a.
Arguments Raises {A}.

Record GeneratedProject := mkGenerated {
  gen_lines_of_code : Z;
  gen_has_readme : bool
}.

(** Configuration and collaborators of one run.  [utcnow n] is the [n]-th
    reading of the clock by the modelled statements, [commit_raises n] tells
    whether the [n]-th [session.commit()] raises, [rglob] is the enumeration
    of the project directory seen by [create_commits], [ai_project_idea]
    stands for [_generate_ai_project_idea] with its prompt inputs. *)
Record Env := mkEnv {
  dry_run : bool;
  automation_mode : string;
  commit_strategy : string;
  focus_areas : list (string * Z);
  advancement_rate : string;
  utcnow : nat -> Time;
  commit_raises : nat -> bool;
  random_choice : list Skill -> Skill -> Skill;
  ai_project_idea :
    ProjectCategory -> list string -> DifficultyLevel -> Outcome ProjectBrief;
  generate_project : Outcome GeneratedProject;
  generate_documentation : Outcome unit;
  generate_commit_messages : Outcome (list string);
  initialize_repo : Outcome unit;
  rglob : list string;
  commit_ok : GitManager.CommitGroup -> bool;
  confirm_ask : Outcome bool;
  create_remote_repo : Outcome (option string);
  push_to_remote : Outcome unit
}.

(** Machine state of a run: the session, the number of clock readings and
    of commits so far, and the workflow steps entered (latest first). *)
Record St := mkSt {
  session : Session;
  reads : nat;
  ncommits : nat;
  log : list nat
}.

(** A computation either returns or raises; both leave a state behind. *)
Inductive Result (A : Type) :=
| Ok (a : A) (s : St)
| Raised (s : St).
Arguments Ok {A} a s.
Arguments Raised {A} s.

Definition M (A : Type) := St -> Result A.

Definition ret {A} (a : A) : M A := fun s => Ok a s.

Definition bind {A B} (m : M A) (f : A -> M B) : M B :=
  fun s => match m s with
           | Ok a s' => f a s'
           | Raised s' => Raised s'
           end.

Definition raise {A} : M A := fun s => Raised s.

Declare Scope wf_scope.
Delimit Scope wf_scope with wf.
Notation "x <- c1 ;; c2" := (bind c1 (fun x => c2))
  (at level 61, c1 at next level, right associativity) : wf_scope.
Notation "c1 ;; c2" := (bind c1 (fun _ => c2))
  (at level 61, right associativity) : wf_scope.
Local Open Scope wf_scope.

Fixpoint for_each {A} (l : list A) (f : A -> M unit) : M unit :=
  match l with
  | [] => ret tt
  | x :: l' => f x ;; for_each l' f
  end.

Definition call {A} (o : Outcome A) : M A :=
  match o with
  | Returns a => ret a
  | Raises => raise
  end.

Definition get_db : M DB := fun s => Ok (pending (session s)) s.

Definition modify_db (f : DB -> DB) : M unit :=
  fun s => Ok tt (mkSt (mkSession (persisted (session s)) (f (pending (session s))))
                       (reads s) (ncommits s) (log s)).

(** Entering step [k] of the workflow. *)
Definition enter (k : nat) : M unit :=
  fun s => Ok tt (mkSt (session s) (reads s) (ncommits s) (k :: log s)).

(** [session.close()]: uncommitted changes are dropped. *)
Definition close (s : St) : St :=
  mkSt (mkSession (persisted (session s)) (persisted (session s)))
       (reads s) (ncommits s) (log s).

Definition set_projects (f : list Project -> list Project) (d : DB) : DB :=
  mkDB (f (projects d)) (skills d) (project_skills d) (commits d)
       (daily_activities d) (achievements d).

Definition set_skills (f : list Skill -> list Skill) (d : DB) : DB :=
  mkDB (projects d) (f (skills d)) (project_skills d) (commits d)
       (daily_activities d) (achievements d).

Definition set_project_skills
           (f : list (Z * string * Q) -> list (Z * string * Q)) (d : DB) : DB :=
  mkDB (projects d) (skills d) (f (project_skills d)) (commits d)
       (daily_activities d) (achievements d).

Definition set_commits (f : list Commit -> list Commit) (d : DB) : DB :=
  mkDB (projects d) (skills d) (project_skills d) (f (commits d))
       (daily_activities d) (achievements d).

Definition set_daily_activities
           (f : list DailyActivity -> list DailyActivity) (d : DB) : DB :=
  mkDB (projects d) (skills d) (project_skills d) (commits d)
       (f (daily_activities d)) (achievements d).

Definition set_achievements
           (f : list Achievement -> list Achievement) (d : DB) : DB :=
  mkDB (projects d) (skills d) (project_skills d) (commits d)
       (daily_activities d) (f (achievements d)).

(** Attribute assignment on the row found by [p]: the first such row. *)
Fixpoint update_first {A} (p : A -> bool) (f : A -> A) (l : list A) : list A :=
  match l with
  | [] => []
  | x :: l' => if p x then f x :: l' else x :: update_first p f l'
  end.

(** Attribute assignment on the row at position [i]. *)
Fixpoint update_nth {A} (i : nat) (f : A -> A) (l : list A) : list A :=
  match l, i with
  | [], _ => []
  | x :: l', O => f x :: l'
  | x :: l', S i' => x :: update_nth i' f l'
  end.

(** Positions of the rows selected by a [filter_by] query. *)
Fixpoint positions {A} (p : A -> bool) (start : nat) (l : list A) : list nat :=
  match l with
  | [] => []
  | x :: l' =>
      if p x then start :: positions p (S start) l'
      else positions p (S start) l'
  end.

Definition with_status (st : ProjectStatus) (p : Project) : Project :=
  mkProject (project_id p) (title p) (category p) (difficulty p)
            (technologies p) st (lines_of_code p) (has_readme p)
            (created_at p) (completed_at p).

Definition with_generated (g : GeneratedProject) (p : Project) : Project :=
  mkProject (project_id p) (title p) (category p) (difficulty p)
            (technologies p) (status p) (gen_lines_of_code g)
            (gen_has_readme g) (created_at p) (completed_at p).

Definition with_readme (p : Project) : Project :=
  mkProject (project_id p) (title p) (category p) (difficulty p)
            (technologies p) (status p) (lines_of_code p) true
            (created_at p) (completed_at p).

Definition with_completed_at (t : Time) (p : Project) : Project :=
  mkProject (project_id p) (title p) (category p) (difficulty p)
            (technologies p) (status p) (lines_of_code p) (has_readme p)
            (created_at p) (Some t).

Definition unlocked (t : Time) (a : Achievement) : Achievement :=
  mkAchievement (achievement_name a) (criteria_type a) (criteria_value a)
                true (Some t).

(** The next value of the autoincrement key of [projects]. *)
Definition next_project_id (ps : list Project) : Z :=
  1 + fold_right (fun p m => Z.max (project_id p) m) 0 ps.

Definition has_id (id : Z) (p : Project) : bool := project_id p =? id.

Definition find_project (id : Z) (d : DB) : option Project :=
  find (has_id id) (projects d).

Section Run.
Variable env : Env.

(** [datetime.utcnow()] *)
Definition now : M Time :=
  fun s => Ok (utcnow env (reads s))
              (mkSt (session s) (S (reads s)) (ncommits s) (log s)).

(** [session.commit()] *)
Definition commit : M unit :=
  fun s =>
    let s' := mkSt (session s) (reads s) (S (ncommits s)) (log s) in
    if commit_raises env (ncommits s) then Raised s'
    else Ok tt (mkSt (mkSession (pending (session s)) (pending (session s)))
                     (reads s) (S (ncommits s)) (log s)).

Definition update_project (id : Z) (f : Project -> Project) : M unit :=
  modify_db (set_projects (update_first (has_id id) f)).

(** [ProjectPlanner.generate_project_idea] *)
Definition generate_project_idea : M ProjectBrief :=
  db <- get_db ;;
  let category :=
    SkillMapper.select_category_for_project (focus_areas env) (skills db) in
  let selected :=
    SkillMapper.select_skills_for_project (skills db) category 3 in
  let target_skills :=
    match selected, skills db with
    | [], s0 :: rest => [random_choice env (s0 :: rest) s0]
    | _, _ => selected
    end in
  let avg := SkillMapper.avg_proficiency target_skills in
  let difficulty :=
    SkillMapper.get_difficulty_for_proficiency avg (advancement_rate env) in
  call (ai_project_idea env category (map skill_name target_skills) difficulty).

(** [ProjectPlanner.create_project_record]; returns the key of the new
    row. *)
Definition create_project_record (brief : ProjectBrief) : M Z :=
  t <- now ;;
  db <- get_db ;;
  let id := next_project_id (projects db) in
  modify_db (set_projects (fun ps =>
    (ps ++ [mkProject id (brief_title brief) (brief_category brief)
                      (brief_difficulty brief) (brief_technologies brief)
                      PLANNED 0 false t None])%list)) ;;
  commit ;;
  for_each (brief_skills brief) (fun skill_name' =>
    db' <- get_db ;;
    match find (fun s => String.eqb (skill_name s) skill_name') (skills db') with
    | Some _ =>
        modify_db (set_project_skills
                     (fun l => (l ++ [(id, skill_name', 1%Q)])%list))
    | None => ret tt
    end) ;;
  commit ;;
  ret id.

(** [_update_skills] *)
Definition _update_skills (brief : ProjectBrief) : M unit :=
  for_each (brief_skills brief) (fun skill_name' =>
    db <- get_db ;;
    match find (fun s => String.eqb (skill_name s) skill_name') (skills db) with
    | Some _ =>
        t_used <- now ;;
        t_updated <- now ;;
        modify_db (set_skills (update_first
          (fun s => String.eqb (skill_name s) skill_name')
          (fun s => SkillMapper.update_skill_proficiency
                      s (brief_difficulty brief) 1 t_used t_updated)))
    | None => ret tt
    end) ;;
  commit.

(** [_unlock_achievement] on the row at position [i]. *)
Definition _unlock_achievement (i : nat) : M unit :=
  t <- now ;;
  modify_db (set_achievements (update_nth i (unlocked t))) ;;
  commit.

(** A [filter_by(is_unlocked=False, criteria_type=...)] query. *)
Definition locked_of_type (ty : string) (a : Achievement) : bool :=
  negb (is_unlocked a) && String.eqb (criteria_type a) ty.

(** [_check_achievements] *)
Definition _check_achievements : M unit :=
  db <- get_db ;;
  let project_count := Z.of_nat (List.length (projects db)) in
  for_each (positions (locked_of_type "project_count") 0 (achievements db))
    (fun i =>
       db' <- get_db ;;
       match nth_error (achievements db') i with
       | Some ach =>
           if criteria_value ach <=? project_count
           then _unlock_achievement i else ret tt
       | None => ret tt
       end) ;;
  db1 <- get_db ;;
  let avg_proficiency := SkillMapper.avg_proficiency (skills db1) in
  for_each (positions (locked_of_type "skill_level") 0 (achievements db1))
    (fun i =>
       db' <- get_db ;;
       match nth_error (achievements db') i with
       | Some ach =>
           if Qle_bool (inject_Z (criteria_value ach)) avg_proficiency
           then _unlock_achievement i else ret tt
       | None => ret tt
       end).


(** [list(set(existing) | set(new))], in one of its possible orders. *)
Definition set_union (existing new : list string) : list string :=
  fold_left (fun acc x =>
               if existsb (String.eqb x) acc then acc else (acc ++ [x])%list)
            (existing ++ new)%list [].

(** [_log_daily_activity] *)
Definition _log_daily_activity (id : Z) : M unit :=
  t <- now ;;
  let today := Analytics.day_of t * 86400 in
  db <- get_db ;;
  match find (fun a => date a =? today) (daily_activities db) with
  | Some _ => ret tt
  | None =>
      modify_db (set_daily_activities (fun l =>
        (l ++ [mkDailyActivity today 0 0 0 []])%list))
  end ;;
  db' <- get_db ;;
  match find_project id db' with
  | Some project =>
      modify_db (set_daily_activities (update_first
        (fun a => date a =? today)
        (fun a =>
           mkDailyActivity (date a) (projects_created a + 1)
             (projects_completed a + 1)
             (lines_added a + lines_of_code project)
             (match technologies project with
              | [] => technologies_used a
              | _ :: _ => set_union (technologies_used a) (technologies project)
              end))))
  | None => ret tt
  end ;;
  commit.

(** The remote part of step 7. *)
Definition remote_operations : M unit :=
  if dry_run env then ret tt
  else
    perform_push <-
      (if String.eqb (automation_mode env) "auto" then ret true
       else call (confirm_ask env)) ;;
    if perform_push : bool then
      remote_url <- call (create_remote_repo env) ;;
      match remote_url with
      | Some _ => call (push_to_remote env)
      | None => ret tt
      end
    else ret tt.

(** Step 2: the call of [validate_project_novelty], which reads the
    clock only when no project has the same title; the answer is only
    reported. *)
Definition check_novelty (brief : ProjectBrief) : M bool :=
  db <- get_db ;;
  if has_exact_title (projects db) brief then ret false
  else
    t <- now ;;
    ret (validate_project_novelty (projects db) t brief).

(** The body of the [try] block of [run_daily_workflow]; the steps are
    numbered as in the source. *)
Definition workflow_body : M Z :=
  enter 1 ;;
  project_brief <- generate_project_idea ;;
  enter 2 ;;
  is_novel <- check_novelty project_brief ;;
  enter 3 ;;
  project <- create_project_record project_brief ;;
  update_project project (with_status IN_PROGRESS) ;;
  commit ;;
  enter 4 ;;
  g <- call (generate_project env) ;;
  update_project project (with_generated g) ;;
  commit ;;
  enter 5 ;;
  call (generate_documentation env) ;;
  update_project project with_readme ;;
  enter 6 ;;
  commit_messages <- call (generate_commit_messages env) ;;
  enter 7 ;;
  call (initialize_repo env) ;;
  db7 <- get_db ;;
  match find_project project db7 with
  | Some p =>
      modify_db (set_commits (fun l =>
        (l ++ GitManager.create_commits (commit_strategy env) (commit_ok env)
                (rglob env) commit_messages p)%list))
  | None => ret tt
  end ;;
  commit ;;
  remote_operations ;;
  enter 8 ;;
  _update_skills project_brief ;;
  enter 9 ;;
  update_project project (with_status COMPLETED) ;;
  t9 <- now ;;
  update_project project (with_completed_at t9) ;;
  commit ;;
  enter 10 ;;
  _log_daily_activity project ;;
  enter 11 ;;
  _check_achievements ;;
  ret project.

(** [run_daily_workflow]: [try] body, [except Exception: return None],
    [finally: self.session.close()].  The project is returned by key. *)
Definition run_daily_workflow (s : St) : option Z * St :=
  match workflow_body s with
  | Ok project s' => (Some project, close s')
  | Raised s' => (None, close s')
  end.

End Run.

(** The state in which a run starts on the committed tables [d]. *)
Definition fresh (d : DB) : St := mkSt (mkSession d d) 0 0 [].

(** *** Vocabulary of the statements about runs *)

(** [m], started in [s], ends normally in a state satisfying [Q] or raises
    in a state satisfying [E]. *)
Definition wp {A} (m : M A) (Q : A -> St -> Prop) (E : St -> Prop)
           (s : St) : Prop :=
  match m s with
  | Ok a s' => Q a s'
  | Raised s' => E s'
  end.

(** A calm computation keeps the log and the projects of the unit of work;
    the committed projects stay as they are or become those of the unit of
    work (a commit went through). *)
Definition calm_step (s s' : St) : Prop :=
  projects (pending (session s')) = projects (pending (session s)) /\
  log s' = log s /\
  (projects (persisted (session s')) = projects (persisted (session s)) \/
   projects (persisted (session s')) = projects (pending (session s))).

Definition calm {A} (m : M A) : Prop :=
  forall s, wp m (fun _ s' => calm_step s s') (fun s' => calm_step s s') s.

(** The log after entering steps [1 .. k], latest first. *)
Definition steps_upto (k : nat) : list nat := rev (seq 1 k).

(** The [projects] table is [ps0], or [ps0] followed by the project of
    this run, with key [id0], in status [st]. *)
Definition proj_state (ps0 : list Project) (id0 : Z)
           (o : option ProjectStatus) (ps : list Project) : Prop :=
  match o with
  | None => ps = ps0
  | Some st =>
      exists p, ps = ps0 ++ [p] /\ project_id p = id0 /\ status p = st
  end.

(** The projects of the unit of work and the committed ones, and the
    log. *)
Definition Inv (ps0 : list Project) (id0 : Z)
           (a b : option ProjectStatus) (lg : list nat) (s : St) : Prop :=
  proj_state ps0 id0 a (projects (pending (session s))) /\
  proj_state ps0 id0 b (projects (persisted (session s))) /\
  log s = lg.

(** The committed status that a failure in step [k] leaves behind. *)
Definition left_behind (k : nat) (o : option ProjectStatus) : Prop :=
  ((k <= 2)%nat -> o = None) /\
  (k = 3%nat -> o = None \/ o = Some PLANNED) /\
  ((4 <= k <= 9)%nat -> o = Some IN_PROGRESS) /\
  ((10 <= k)%nat -> o = Some COMPLETED).

(** A run that raised: steps [1 .. k] were entered and no other, and the
    committed projects are as step [k] leaves them. *)
Definition failed_at (ps0 : list Project) (id0 : Z) (s : St) : Prop :=
  exists (k : nat) (b : option ProjectStatus),
    (1 <= k <= 11)%nat /\
    log s = steps_upto k /\
    proj_state ps0 id0 b (projects (persisted (session s))) /\
    left_behind k b.

(** What an evaluation may do to one achievement: nothing, or unlock it,
    and the latter only for the two criteria types that are queried. *)
Definition touched (a a' : Achievement) : Prop :=
  a' = a \/
  (exists t, a' = unlocked t a) /\
  (criteria_type a = "project_count" \/ criteria_type a = "skill_level").

(** An achievement of type "streak" is left as it is, and an achievement
    that changes is of one of the two queried types. *)
Definition only_queried (a a' : Achievement) : Prop :=
  (criteria_type a = "streak" -> a' = a) /\
  (a' <> a ->
   criteria_type a = "project_count" \/ criteria_type a = "skill_level").

(** The outcome of a complete evaluation for one achievement, with
    [project_count] projects and mean proficiency [avg]. *)
Definition evaluated (project_count : Z) (avg : Q) (a a' : Achievement) : Prop :=
  if negb (is_unlocked a) &&
     ((String.eqb (criteria_type a) "project_count"
         && (criteria_value a <=? project_count))
      || (String.eqb (criteria_type a) "skill_level"
            && Qle_bool (inject_Z (criteria_value a)) avg))
  then exists t, a' = unlocked t a
  else a' = a.

(** The achievements of the unit of work descend from [as0]; the
    committed ones descend from [as0] too or are still [bs]. *)
Definition ach_inv (as0 bs : list Achievement) (s : St) : Prop :=
  Forall2 touched as0 (achievements (pending (session s))) /\
  (Forall2 touched as0 (achievements (persisted (session s))) \/
   achievements (persisted (session s)) = bs).

Definition steady {A} (m : M A) : Prop :=
  forall as0 bs s,
    ach_inv as0 bs s ->
    wp m (fun _ s' => ach_inv as0 bs s') (fun s' => ach_inv as0 bs s') s.

(** The outcome of one of the two loops of the evaluator for one
    achievement. *)
Definition loop_result (ty : string) (cond : Achievement -> bool)
           (a a' : Achievement) : Prop :=
  if negb (is_unlocked a) && String.eqb (criteria_type a) ty && cond a
  then exists t, a' = unlocked t a
  else a' = a.

(** No [session.commit()] of the run raises. *)
Definition no_faults (env : Env) : Prop :=
  forall n, commit_raises env n = false.

(** A sample ledger and a sample environment in which every collaborator
    answers and every commit goes through. *)
Definition sample_db : DB :=
  mkDB [mkProject 1 "Url Shortener" FULL_STACK BEGINNER ["flask"] COMPLETED
                  180 true 86400 (Some 90000)]
       [mkSkill "REST APIs" FULL_STACK 12 1 (Some 90000) 90000;
        mkSkill "Backend Development" FULL_STACK 4 0 None 0;
        mkSkill "Encryption" SECURITY_BLOCKCHAIN 30 3 None 0]
       [(1, "REST APIs", 1%Q)]
       []
       [mkDailyActivity 86400 1 1 180 ["flask"]]
       [ mkAchievement "Hello World" "project_count" 1 true (Some 90000);
         mkAchievement "Code Warrior" "project_count" 5 false None;
         mkAchievement "Consistency is Key" "streak" 3 false None;
         mkAchievement "Novice Coder" "skill_level" 20 false None ].

Definition sample_env : Env :=
  mkEnv true "auto" "detailed"
        [("ai_ml", 10); ("full_stack", 60); ("system_design", 10);
         ("security_blockchain", 20)]
        "moderate"
        (fun n => 200000 + Z.of_nat n)
        (fun _ => false)
        (fun _ s => s)
        (fun c sk d => Returns (mkBrief "Task Manager" c d ["flask"] sk))
        (Returns (mkGenerated 240 true))
        (Returns tt)
        (Returns ["chore: scaffold"; "feat: add tasks"; "test: cover tasks"])
        (Returns tt)
        ["README.md"; ".gitignore"; "src/app.py"; "src/models.py";
         "tests/test_app.py"]
        (fun _ => true)
        (Returns true)
        (Returns (Some "https://example.org/task-manager.git"))
        (Returns tt).

(** The same environment with a documentation generator that raises. *)
Definition failing_env : Env :=
  mkEnv (dry_run sample_env) (automation_mode sample_env)
        (commit_strategy sample_env) (focus_areas sample_env)
        (advancement_rate sample_env) (utcnow sample_env)
        (commit_raises sample_env) (random_choice sample_env)
        (ai_project_idea sample_env) (generate_project sample_env)
        Raises
        (generate_commit_messages sample_env) (initialize_repo sample_env)
        (rglob sample_env) (commit_ok sample_env) (confirm_ask sample_env)
        (create_remote_repo sample_env) (push_to_remote sample_env).

(** The sample environment in which the commit of [_log_daily_activity],
    the eighth of the run, raises. *)
Definition late_failing_env : Env :=
mkEnv (dry_run sample_env) (automation_mode sample_env)
      (commit_strategy sample_env) (focus_areas sample_env)
      (advancement_rate sample_env) (utcnow sample_env)
      (fun n => Nat.eqb n 7) (random_choice sample_env)
      (ai_project_idea sample_env) (generate_project sample_env)
      (generate_documentation sample_env)
      (generate_commit_messages sample_env) (initialize_repo sample_env)
      (rglob sample_env) (commit_ok sample_env) (confirm_ask sample_env)
      (create_remote_repo sample_env) (push_to_remote sample_env).

(** The state in which a computation stops, normally or not. *)
Definition final_state {A} (r : Result A) : St :=
  match r with
  | Ok _ s => s
  | Raised s => s
  end.

(** The achievements seeded by [initialize_achievements]. *)
Definition default_achievements : list Achievement :=
  [ mkAchievement "Hello World" "project_count" 1 false None;
    mkAchievement "Code Warrior" "project_count" 5 false None;
    mkAchievement "Project Master" "project_count" 10 false None;
    mkAchievement "Consistency is Key" "streak" 3 false None;
    mkAchievement "Novice Coder" "skill_level" 20 false None;
    mkAchievement "Expert Engineer" "skill_level" 80 false None ].


(** A property of the tables that holds of the unit of work and of what is
    committed. *)
Definition both (P : DB -> Prop) (s : St) : Prop :=
  P (pending (session s)) /\ P (persisted (session s)).

(** [m] keeps [P], whether it returns or raises. *)
Definition keeps (P : DB -> Prop) {A} (m : M A) : Prop :=
  forall s, both P s -> wp m (fun _ s' => both P s') (fun s' => both P s') s.

(** [m] returns: it does not raise. *)
Definition returns {A} (m : M A) : Prop :=
  forall s, wp m (fun _ _ => True) (fun _ => False) s.

(** The collaborator answers instead of raising. *)
Definition answers {A} (o : Outcome A) : Prop := exists a, o = Returns a.

(** Every collaborator that a run consults answers; the remote ones are
    consulted only outside of a dry run. *)
Definition cooperative (env : Env) : Prop :=
  (forall c sk d, answers (ai_project_idea env c sk d)) /\
  answers (generate_project env) /\
  answers (generate_documentation env) /\
  answers (generate_commit_messages env) /\
  answers (initialize_repo env) /\
  (dry_run env = true \/
   (answers (confirm_ask env) /\ answers (create_remote_repo env) /\
    answers (push_to_remote env))).

(** What a run may do to one skill: name and category stay, the counter of
    projects does not go down, and a proficiency of at most 100 does not go
    down and stays at most 100. *)
Definition grown (a a' : Skill) : Prop :=
  skill_name a' = skill_name a /\
  skill_category a' = skill_category a /\
  projects_count a <= projects_count a' /\
  ((proficiency a <= 100)%Q ->
   (proficiency a <= proficiency a')%Q /\ (proficiency a' <= 100)%Q).

End WorkflowEngine.

(* ===================================================================== *)
(** ** [src/automation/scheduler.py]: the daily trigger *)
(* ===================================================================== *)

Module Scheduler.
Import WorkflowEngine.

Record SchedulingConfig := mkScheduling {
  time_randomization_minutes : Z;
  skip_weekends : bool;
  retry_on_failure : bool;
  max_retries : Z
}.

(** What a fire of the job does, in order. *)
Inductive Event :=
| Sleep (seconds : Z)
| RunWorkflow (result : option Z).

(** The loop [while retries <= max_retries].  [envs n] is the environment
    of the [n]-th invocation of the workflow; [fuel] bounds the number of
    iterations. *)
Fixpoint retry_loop (fuel : nat) (envs : nat -> Env) (max_retries' : Z)
         (retries : Z) (attempt : nat) (d : DB) : option (list Event * DB) :=
  match fuel with
  | O => None
  | S fuel' =>
      if retries <=? max_retries' then
        let '(project, s') := run_daily_workflow (envs attempt) (fresh d) in
        let d' := persisted (session s') in
        match project with
        | Some _ => Some ([RunWorkflow project], d')
        | None =>
            let retries1 := retries + 1 in
            if retries1 <=? max_retries' then
              let wait_time := 60 * 5 * retries1 in
              match retry_loop fuel' envs max_retries' retries1 (S attempt) d' with
              | Some (evs, d'') =>
                  Some (RunWorkflow None :: Sleep wait_time :: evs, d'')
              | None => None
              end
            else
              match retry_loop fuel' envs max_retries' retries1 (S attempt) d' with
              | Some (evs, d'') => Some (RunWorkflow None :: evs, d'')
              | None => None
              end
        end
      else Some ([], d)
  end.

(** The configured number of retries that is in force. *)
Definition retries_in_force (cfg : SchedulingConfig) : Z :=
  if retry_on_failure cfg then max_retries cfg else 0.

(** [n] failed attempts after [retries] earlier ones, each followed by its
    wait of [300 * attempt_number] seconds. *)
Definition failures_from (retries : Z) (n : nat) : list Event :=
  flat_map (fun i => [RunWorkflow None;
                      Sleep (60 * 5 * (retries + Z.of_nat (S i)))])
           (seq 0 n).

(** The wait before the first attempt. *)
Definition jitter_events (cfg : SchedulingConfig) (actual_delay : Z)
  : list Event :=
  if 0 <? time_randomization_minutes cfg then [Sleep actual_delay] else [].

(** [_scheduled_job]; [actual_delay] is the draw of
    [random.randint(0, random_minutes * 60)] and [weekday] the value of
    [datetime.now().weekday()] after the delay. *)
Definition _scheduled_job (fuel : nat) (cfg : SchedulingConfig)
           (actual_delay : Z) (weekday : Z) (envs : nat -> Env) (d : DB)
  : option (list Event * DB) :=
  let jitter := jitter_events cfg actual_delay in
  if skip_weekends cfg && (5 <=? weekday) then Some (jitter, d)
  else
    let max_retries' := if retry_on_failure cfg then max_retries cfg else 0 in
    match retry_loop fuel envs max_retries' 0 0 d with
    | Some (evs, d') => Some ((jitter ++ evs)%list, d')
    | None => None
    end.


(** The invocations of the workflow in a fire and the seconds it sleeps. *)
Definition attempts (evs : list Event) : nat :=
  List.length (filter (fun e => match e with
                                | RunWorkflow _ => true
                                | Sleep _ => false
                                end) evs).

Definition slept (evs : list Event) : Z :=
  fold_right (fun e acc => match e with
                           | Sleep seconds => seconds + acc
                           | RunWorkflow _ => acc
                           end) 0 evs.

End Scheduler.

(* ===================================================================== *)
(** ** [src/database.py]: seeding the tables *)
(* ===================================================================== *)

Module DatabaseManager.
Import Database WorkflowEngine.

(** The list [default_skills] of [initialize_default_skills]: name and
    category of each entry. *)
Definition default_skills : list (string * ProjectCategory) :=
  [ ("Machine Learning", AI_ML); ("Deep Learning", AI_ML);
    ("Natural Language Processing", AI_ML); ("Computer Vision", AI_ML);
    ("MLOps", AI_ML);
    ("Backend Development", FULL_STACK); ("Frontend Development", FULL_STACK);
    ("REST APIs", FULL_STACK); ("Database Design", FULL_STACK);
    ("Web Frameworks", FULL_STACK);
    ("Distributed Systems", SYSTEM_DESIGN);
    ("Caching Strategies", SYSTEM_DESIGN); ("Message Queues", SYSTEM_DESIGN);
    ("Microservices", SYSTEM_DESIGN); ("Load Balancing", SYSTEM_DESIGN);
    ("Authentication", SECURITY_BLOCKCHAIN);
    ("Encryption", SECURITY_BLOCKCHAIN);
    ("Web Security", SECURITY_BLOCKCHAIN);
    ("Smart Contracts", SECURITY_BLOCKCHAIN);
    ("Security Auditing", SECURITY_BLOCKCHAIN) ].

(** [Skill(name=..., category=...)] with the defaults of the columns;
    [t] is the clock reading that fills [updated_at]. *)
Definition new_skill (name : string) (category : ProjectCategory) (t : Time)
  : Skill :=
  mkSkill name category 0 0 None t.

(** [session.query(Skill).filter_by(name=name).first()] is not [None]. *)
Definition has_skill (skills : list Skill) (name : string) : bool :=
  existsb (fun s => String.eqb (skill_name s) name) skills.

Definition has_achievement (l : list Achievement) (name : string) : bool :=
  existsb (fun a => String.eqb (achievement_name a) name) l.

(** The rows added for the entries of [data]; [clock i] is the reading for
    the [i]-th row added. *)
Fixpoint add_skills (data : list (string * ProjectCategory))
         (clock : nat -> Time) (i : nat) : list Skill :=
  match data with
  | [] => []
  | (name, category) :: rest =>
      new_skill name category (clock i) :: add_skills rest clock (S i)
  end.

(** The loop of [initialize_default_skills] and its commit, on the table
    [skills].  The session does not autoflush, so every query of the loop
    sees the table as it was at the call. *)
Definition seed_skills (skills : list Skill) (clock : nat -> Time)
  : list Skill :=
  skills ++ add_skills
              (filter (fun d => negb (has_skill skills (fst d))) default_skills)
              clock 0.

(** [initialize_achievements] *)
Definition initialize_achievements (l : list Achievement)
  : list Achievement :=
  l ++ filter (fun a => negb (has_achievement l (achievement_name a)))
              default_achievements.

(** [initialize_default_skills] *)
Definition initialize_default_skills (d : DB) (clock : nat -> Time) : DB :=
  mkDB (projects d) (seed_skills (skills d) clock) (project_skills d)
       (commits d) (daily_activities d)
       (initialize_achievements (achievements d)).

(** [get_or_create_skill]: the table afterwards and the row returned. *)
Definition get_or_create_skill (skills : list Skill) (name : string)
           (category : ProjectCategory) (t : Time) : list Skill * Skill :=
  match find (fun s => String.eqb (skill_name s) name) skills with
  | Some skill => (skills, skill)
  | None =>
      let skill := new_skill name category t in
      (skills ++ [skill], skill)
  end.

End DatabaseManager.

(* ===================================================================== *)
(** ** [src/config_manager.py]: environment variables in the configuration *)
(* ===================================================================== *)

Module ConfigManager.

(** What [yaml.safe_load] returns: dictionaries, lists, strings, and the
    other scalars (numbers, booleans, [None]), which are opaque here. *)
Local Unset Elimination Schemes.
Inductive Data :=
| DDict (items : list (string * Data))
| DList (items : list Data)
| DStr (s : string)
| DScalar (n : Z).
Local Set Elimination Schemes.

(** [data.startswith("${") and data.endswith("}")] *)
Definition is_placeholder (data : string) : bool :=
  Py.startswith data "${" && Py.endswith data "}".

(** [_substitute_env_vars]; [getenv name] is [os.getenv(name)], [None] for
    a variable that is not set. *)
Fixpoint _substitute_env_vars (getenv : string -> option string)
         (data : Data) : Data :=
  match data with
  | DDict items =>
      DDict (map (fun kv => match kv with
                            | (k, v) => (k, _substitute_env_vars getenv v)
                            end) items)
  | DList items => DList (map (_substitute_env_vars getenv) items)
  | DStr s =>
      if is_placeholder s then
        let var_name := Py.str_slice s 2 (-1) in
        match getenv var_name with
        | Some value => DStr value
        | None => DStr s
        end
      else DStr s
  | DScalar n => DScalar n
  end.

(** Two values of the same shape: the same keys in the same order, lists
    of the same length, the same scalars; strings may differ. *)
Fixpoint same_shape (a b : Data) : Prop :=
  match a, b with
  | DDict xs, DDict ys =>
      (fix go (xs ys : list (string * Data)) : Prop :=
         match xs, ys with
         | [], [] => True
         | (k, v) :: xs', (k', v') :: ys' =>
             k = k' /\ same_shape v v' /\ go xs' ys'
         | _, _ => False
         end) xs ys
  | DList xs, DList ys =>
      (fix go (xs ys : list Data) : Prop :=
         match xs, ys with
         | [], [] => True
         | v :: xs', v' :: ys' => same_shape v v' /\ go xs' ys'
         | _, _ => False
         end) xs ys
  | DStr _, DStr _ => True
  | DScalar n, DScalar m => n = m
  | _, _ => False
  end.

(** The test of [GitManager.__init__] for a usable token:
    [token and token != "${GITHUB_TOKEN}"]. *)
Definition token_configured (token : string) : bool :=
  negb (String.eqb token "") && negb (String.eqb token "${GITHUB_TOKEN}").

End ConfigManager.

(* ===================================================================== *)
(** ** [src/generation/code_generator.py]: the project directory *)
(* ===================================================================== *)

Module CodeGenerator.

(** [c.isalnum() or c in ' -_'] *)
Definition kept (c : ascii) : bool :=
  Py.isalnum c || existsb (Ascii.eqb c) [" "; "-"; "_"]%char.

(** [_sanitize_name] *)
Definition _sanitize_name (name : string) : string :=
  let sanitized := Py.lower name in
  let sanitized := Py.filter_chars kept sanitized in
  Py.replace_char " " "-" sanitized.

(** A lower-case letter, a digit, a hyphen or an underscore. *)
Definition plain (c : ascii) : bool :=
  (Py.isalnum c && negb (Py.isupper c))
  || Ascii.eqb c "-" || Ascii.eqb c "_".

End CodeGenerator.

(* ===================================================================== *)
(** ** [src/tracking/dashboard.py]: the progress bar *)
(* ===================================================================== *)

Module Dashboard.

(** The number of filled cells: [int(width * (percentage / 100))] with
    [width = 20]. *)
Definition filled (percentage : Q) : Z :=
  Py.int_of (20 * (percentage / 100))%Q.

(** ["#" * filled + "-" * (width - filled)] *)
Definition bar (percentage : Q) : string :=
  Py.repeat_char "#" (filled percentage)
  ++ Py.repeat_char "-" (20 - filled percentage).

Definition color (percentage : Q) : string :=
  if SkillMapper.Qltb 70 percentage then "green"
  else if SkillMapper.Qltb 30 percentage then "yellow"
  else "red".

(** [_make_progress_bar] *)
Definition _make_progress_bar (percentage : Q) : string :=
  "[" ++ color percentage ++ "]" ++ bar percentage
  ++ "[/" ++ color percentage ++ "]".

End Dashboard.

(* ===================================================================== *)
(** ** Notions of the specification *)
(* ===================================================================== *)

(** What the specification speaks of, written down without the functions
    of the program; the properties below compare the program with these. *)
Module Spec.
Import Database.

(** The sum of a list of numbers, taken from the left, and their
    arithmetic mean; the mean of no number at all is 0. *)
Definition total (l : list Q) : Q := fold_left Qplus l 0%Q.

Definition average (l : list Q) : Q :=
  match l with
  | [] => 0%Q
  | _ :: _ => (total l / inject_Z (Z.of_nat (List.length l)))%Q
  end.

(** The tracked skills that bear one of the given names, as the ledger
    holds them. *)
Definition tracked (names : list string) (skills : list Skill) : list Skill :=
  filter (fun s => if in_dec string_dec (skill_name s) names
                   then true else false)
         skills.

(** The weight that a configuration gives to a key: the value recorded
    for it, and 0 for a key that is not recorded. *)
Definition weight_of (focus_areas : list (string * Z)) (key : string)
           (w : Z) : Prop :=
  In (key, w) focus_areas \/ (~ In key (map fst focus_areas) /\ w = 0).

(** Two characters that differ at most by their case: the same character,
    or the upper and the lower case of one of the letters 'A'..'Z', which
    lie 32 apart. *)
Definition same_letter (c d : ascii) : Prop :=
  c = d \/
  exists n : nat,
    (65 <= n <= 90)%nat /\
    ((nat_of_ascii c = n /\ nat_of_ascii d = (n + 32)%nat) \/
     (nat_of_ascii d = n /\ nat_of_ascii c = (n + 32)%nat)).

(** Two strings that are equal when case is ignored. *)
Inductive equal_ignoring_case : string -> string -> Prop :=
| eic_empty : equal_ignoring_case EmptyString EmptyString
| eic_char (c d : ascii) (s t : string) :
    same_letter c d -> equal_ignoring_case s t ->
    equal_ignoring_case (String c s) (String d t).

(** [s] is a case-insensitive substring of [t]. *)
Definition occurs_ignoring_case (s t : string) : Prop :=
  exists pre mid post : string,
    t = (pre ++ mid ++ post)%string /\ equal_ignoring_case s mid.

End Spec.

(* ===================================================================== *)
(** * Properties *)
(* ===================================================================== *)

(** ** Facts about the Python built-ins *)

Module PyFacts.

Lemma prefix_app (p s : string) :
  String.prefix p s = true <-> exists post, s = (p ++ post)%string.
Proof.
  revert s; induction p as [|c p IH]; intros s.
  - split; [intros _; now exists s | intros _; now destruct s].
  - destruct s as [|d s]; simpl.
    + split; [discriminate | intros [post H]; discriminate].
    + destruct (Ascii.ascii_dec c d) as [->|Hne].
      * rewrite IH. split; intros [post H]; exists post.
        -- now rewrite H.
        -- now inversion H.
      * split; [discriminate | intros [post H]; inversion H; congruence].
Qed.

(** [needle in hay] holds exactly when [hay] is [pre ++ needle ++ post]. *)
Lemma contains_app (needle hay : string) :
  Py.contains needle hay = true <->
  exists pre post, hay = (pre ++ needle ++ post)%string.
Proof.
  induction hay as [|c hay IH].
  - change (Py.contains needle "") with (String.prefix needle "" || false).
    rewrite orb_false_r, prefix_app. split.
    + intros [post H]. now exists EmptyString, post.
    + intros [pre [post H]]. destruct pre; [now exists post | discriminate].
  - change (Py.contains needle (String c hay))
      with (String.prefix needle (String c hay) || Py.contains needle hay).
    rewrite orb_true_iff, prefix_app, IH. split.
    + intros [[post H] | [pre [post H]]].
      * now exists EmptyString, post.
      * exists (String c pre), post. simpl. now rewrite H.
    + intros [pre [post H]]. destruct pre as [|d pre]; simpl in H.
      * left. now exists post.
      * right. inversion H. now exists pre, post.
Qed.

Lemma contains_refl (s : string) : Py.contains s s = true.
Proof.
  apply contains_app. exists EmptyString, EmptyString. simpl.
  induction s; simpl; congruence.
Qed.

Section SortedFacts.
Context {A : Type} (lt : A -> A -> bool).

Lemma insert_perm (x : A) (l : list A) :
  Permutation (Py.insert lt x l) (x :: l).
Proof.
  induction l as [|y l IH]; simpl; [reflexivity|].
  destruct (lt y x); [|reflexivity].
  rewrite IH. apply perm_swap.
Qed.

(** [sorted] rearranges its argument. *)
Lemma sorted_perm (l : list A) : Permutation (Py.sorted lt l) l.
Proof.
  induction l as [|x l IH]; simpl; [reflexivity|].
  rewrite insert_perm. now constructor.
Qed.

Lemma sorted_length (l : list A) : List.length (Py.sorted lt l) = List.length l.
Proof. apply Permutation_length, sorted_perm. Qed.

(** [a] may stand before [b]: the key of [b] is not strictly smaller. *)
Definition ok_before (a b : A) : Prop := lt b a = false.

Hypothesis lt_asym : forall a b, lt a b = true -> lt b a = false.
Hypothesis ok_trans :
  forall a b c, lt b a = false -> lt c b = false -> lt c a = false.

Lemma insert_sorted (x : A) (l : list A) :
  StronglySorted ok_before l -> StronglySorted ok_before (Py.insert lt x l).
Proof.
  induction 1 as [|y l Hs IH Hy]; simpl.
  - repeat constructor.
  - destruct (lt y x) eqn:E.
    + constructor; [exact IH|].
      rewrite (Forall_forall (ok_before y)). intros z Hz.
      apply (Permutation_in _ (insert_perm x l)) in Hz.
      destruct Hz as [<-|Hz].
      * now apply lt_asym.
      * rewrite Forall_forall in Hy. now apply Hy.
    + constructor; [now constructor|].
      constructor; [exact E|].
      rewrite Forall_forall in Hy |- *. intros z Hz.
      unfold ok_before. eapply ok_trans; [exact E|]. now apply Hy.
Qed.

(** [sorted] returns a list in ascending key order. *)
Lemma sorted_sorted (l : list A) : StronglySorted ok_before (Py.sorted lt l).
Proof.
  induction l as [|x l IH]; simpl; [constructor|].
  now apply insert_sorted.
Qed.
End SortedFacts.

(** A list sorted for [R] that rearranges a list strictly sorted for [S] is
    that list, when [S] excludes the converse of [R]. *)
Lemma sorted_unique {A : Type} (R S : A -> A -> Prop) :
  (forall a b, S a b -> R b a -> False) ->
  forall l2 l1 : list A,
    StronglySorted R l1 -> StronglySorted S l2 -> Permutation l1 l2 ->
    l1 = l2.
Proof.
  intros Hex. induction l2 as [|y l2 IH]; intros l1 H1 H2 Hp.
  - now apply Permutation_sym, Permutation_nil in Hp.
  - destruct l1 as [|x l1];
      [apply Permutation_nil in Hp; discriminate|].
    apply StronglySorted_inv in H1. destruct H1 as [H1 Hx].
    apply StronglySorted_inv in H2. destruct H2 as [H2 Hy].
    rewrite Forall_forall in Hx, Hy.
    assert (Hxy : x = y).
    { assert (Hin : In x (y :: l2))
        by (apply (Permutation_in _ Hp); now left).
      destruct Hin as [->|Hin]; [reflexivity|].
      assert (Hin' : In y (x :: l1))
        by (apply (Permutation_in _ (Permutation_sym Hp)); now left).
      destruct Hin' as [->|Hin']; [reflexivity|].
      exfalso. apply (Hex y x); [now apply Hy | now apply Hx]. }
    subst y. f_equal. apply IH; try assumption.
    now apply Permutation_cons_inv in Hp.
Qed.

Lemma length_append (a b : string) :
  String.length (a ++ b) = (String.length a + String.length b)%nat.
Proof. induction a as [|c a IH]; simpl; [reflexivity | now rewrite IH]. Qed.

End PyFacts.

(** ** Commit strategy *)

Module GitManagerSpec.
Import GitManager.

Lemma categorize_from (l : list string) (b : Buckets) :
  fold_left categorize_file l b =
  mkBuckets (config_docs b ++
               filter (fun p => negb (is_test_path p) && is_config_path p) l)
            (source_code b ++ filter is_source_path l)
            (tests b ++ filter is_test_path l).
Proof.
  revert b; induction l as [|p l IH]; intros b; simpl.
  - rewrite !app_nil_r. now destruct b.
  - rewrite IH. unfold categorize_file, is_source_path.
    destruct (is_test_path p); simpl.
    + now rewrite <- app_assoc.
    + destruct (is_config_path p); simpl; now rewrite <- app_assoc.
Qed.

(** The three lists are the three filters of the committed files. *)
Lemma categorize_filter (l : list string) :
  categorize l =
  mkBuckets (filter (fun p => negb (is_test_path p) && is_config_path p) l)
            (filter is_source_path l)
            (filter is_test_path l).
Proof. unfold categorize. now rewrite categorize_from. Qed.

Lemma in_files_to_commit (rglob : list string) (p : string) :
  In p (files_to_commit rglob) <->
  In p rglob /\ Py.startswith (Py.name p) ".git" = false.
Proof.
  unfold files_to_commit. rewrite filter_In, negb_true_iff. reflexivity.
Qed.

(** C1 (as amended).  In [detailed] mode every enumerated path whose file
    name does not begin with ".git" lands in exactly one bucket, chosen by
    the priority test / config-docs / source on the lowercased path; a
    source bucket of more than one file is split at [len // 2] into two
    ordered groups; and the five-file example gives the four groups
    config/docs (1 file), source (1 file), source (2 files), tests
    (1 file). *)
Theorem C1_detailed_groups :
  (forall (rglob : list string) (p : string),
      In p rglob ->
      Py.startswith (Py.name p) ".git" = false ->
      let b := categorize (files_to_commit rglob) in
      (In p (tests b) <-> is_test_path p = true) /\
      (In p (config_docs b) <->
         is_test_path p = false /\ is_config_path p = true) /\
      (In p (source_code b) <->
         is_test_path p = false /\ is_config_path p = false)) /\
  (forall (commits_plan rglob : list string),
      let b := categorize (files_to_commit rglob) in
      let mid := (List.length (source_code b) / 2)%nat in
      (1 < List.length (source_code b))%nat ->
      commit_groups "detailed" commits_plan rglob =
        group_if_any (config_docs b) (chore_msg commits_plan)
        ++ [ mkGroup (firstn mid (source_code b)) (feat_msg commits_plan);
             mkGroup (skipn mid (source_code b)) (refactor_msg commits_plan) ]
        ++ group_if_any (tests b) (test_msg commits_plan)) /\
  commit_groups "detailed" [] example_files =
    [ mkGroup ["README.md"] "chore: initial project structure";
      mkGroup ["src/a.py"] "feat: implement core functionality";
      mkGroup ["src/b.py"; "src/c.py"] "refactor: optimize implementation";
      mkGroup ["tests/t.py"] "test: add unit tests" ].
Proof.
  split; [|split].
  - intros rglob p Hin Hgit b. subst b. rewrite categorize_filter. simpl.
    assert (Hp : In p (files_to_commit rglob))
      by (apply in_files_to_commit; now split).
    rewrite !filter_In. unfold is_source_path.
    destruct (is_test_path p), (is_config_path p); simpl;
      intuition congruence.
  - intros commits_plan rglob b mid Hlen. unfold commit_groups. fold b.
    simpl. f_equal. f_equal. unfold split_source. fold mid.
    destruct (source_code b) as [|x l] eqn:E; [simpl in Hlen; lia|].
    assert (Hmid : (0 < mid)%nat).
    { subst mid. apply Nat.div_str_pos. lia. }
    apply Nat.ltb_lt in Hmid. now rewrite Hmid.
  - reflexivity.
Qed.

Lemma C1_detailed_groups_witness :
  In "src/a.py" example_files /\
  (In "src/a.py" (source_code (categorize (files_to_commit example_files))) <->
     is_test_path "src/a.py" = false /\ is_config_path "src/a.py" = false) /\
  List.length
    (commit_groups "detailed" ["feat: add parser"] example_files) = 4%nat.
Proof.
  assert (Hin : In "src/a.py" example_files) by (simpl; tauto).
  split; [exact Hin|]. split.
  - exact (proj2 (proj2 (proj1 C1_detailed_groups example_files "src/a.py"
                                Hin eq_refl))).
  - rewrite (proj1 (proj2 C1_detailed_groups) ["feat: add parser"] example_files);
      [reflexivity | simpl; lia].
Defined.

(** The five-file example does not give source groups of 2 and 1 files:
    [3 // 2 = 1], so the first source group has one file. *)
Lemma C1_example_sizes_counterexample :
  map (fun g => List.length (files g))
      (commit_groups "detailed" [] example_files) <> [1; 2; 1; 1]%nat.
Proof. vm_compute. discriminate. Qed.

(** The generated [.gitignore] never reaches a bucket: its name begins
    with ".git", so the enumeration filter drops it before the keyword
    ".gitignore" can be matched. *)
Lemma gitignore_not_committed :
  commit_groups "detailed" [] ["README.md"; ".gitignore"; "src/main.py"] =
    [ mkGroup ["README.md"] "chore: initial project structure";
      mkGroup ["src/main.py"] "feat: implement core functionality" ].
Proof. reflexivity. Qed.

(** *** Further properties of the commit strategy *)

Lemma filter_three_perm (l : list string) :
  Permutation
    (filter (fun p => negb (is_test_path p) && is_config_path p) l
       ++ filter is_source_path l ++ filter is_test_path l)
    l.
Proof.
  induction l as [|p l IH]; [reflexivity|].
  unfold is_source_path in *. cbn [filter].
  destruct (is_test_path p), (is_config_path p); cbn [negb andb app].
  - rewrite app_assoc.
    apply Permutation_sym, Permutation_cons_app.
    rewrite <- app_assoc. now apply Permutation_sym.
  - rewrite app_assoc.
    apply Permutation_sym, Permutation_cons_app.
    rewrite <- app_assoc. now apply Permutation_sym.
  - now constructor.
  - apply Permutation_sym, Permutation_cons_app. now apply Permutation_sym.
Qed.

Lemma group_if_any_files (l : list string) (m : string) :
  List.concat (map files (group_if_any l m)) = l.
Proof. destruct l; simpl; [reflexivity | now rewrite app_nil_r]. Qed.

Lemma split_source_files (plan l : list string) :
  List.concat (map files (split_source plan l)) = l.
Proof.
  unfold split_source. destruct l as [|x l]; [reflexivity|].
  destruct (0 <? List.length (x :: l) / 2)%nat; cbn [map List.concat files].
  - rewrite app_nil_r. apply firstn_skipn.
  - now rewrite app_nil_r.
Qed.

Lemma group_if_any_nonempty (l : list string) (m : string) (g : CommitGroup) :
  In g (group_if_any l m) -> files g <> [].
Proof.
  destruct l as [|x l]; simpl; [tauto|]. intros [<-|[]]. discriminate.
Qed.

Lemma split_source_nonempty (plan l : list string) (g : CommitGroup) :
  In g (split_source plan l) -> files g <> [].
Proof.
  unfold split_source. destruct l as [|x l]; [simpl; tauto|].
  assert (Hpos : (0 < List.length (x :: l))%nat) by (simpl; lia).
  remember (x :: l) as src eqn:Hsrc.
  destruct (0 <? List.length src / 2)%nat eqn:E.
  - apply Nat.ltb_lt in E.
    assert (Hlt : (List.length src / 2 < List.length src)%nat)
      by (apply Nat.div_lt; lia).
    intros [<-|[<-|[]]]; cbn [files]; intros H;
      apply (f_equal (@List.length string)) in H;
      rewrite ?length_firstn, ?length_skipn in H;
      change (List.length (@nil string)) with 0%nat in H; lia.
  - intros [<-|[]]. subst src. discriminate.
Qed.

Lemma commit_groups_perm
      (commit_strategy : string) (commits_plan rglob : list string) :
  Permutation
    (List.concat (map files (commit_groups commit_strategy commits_plan rglob)))
    (files_to_commit rglob).
Proof.
  unfold commit_groups. rewrite categorize_filter.
  cbn [config_docs source_code tests].
  destruct (String.eqb commit_strategy "detailed");
    rewrite !map_app, !concat_app, !group_if_any_files,
      ?split_source_files; apply filter_three_perm.
Qed.

Lemma commit_groups_nonempty
      (commit_strategy : string) (commits_plan rglob : list string)
      (g : CommitGroup) :
  In g (commit_groups commit_strategy commits_plan rglob) -> files g <> [].
Proof.
  unfold commit_groups. intros Hg.
  destruct (String.eqb commit_strategy "detailed");
    repeat (apply in_app_or in Hg; destruct Hg as [Hg|Hg]);
    eauto using group_if_any_nonempty, split_source_nonempty.
Qed.

(** X1.  Partition.  In either strategy the commit groups split the files that
    pass the enumeration filter: the files of all groups together are a
    rearrangement of them, no group is empty, and when the enumeration lists
    no path twice no file is in two groups or twice in one. *)
Theorem commit_groups_partition
        (commit_strategy : string) (commits_plan rglob : list string) :
  let groups := commit_groups commit_strategy commits_plan rglob in
  Permutation (List.concat (map files groups)) (files_to_commit rglob) /\
  (forall g, In g groups -> files g <> []) /\
  (NoDup rglob -> NoDup (List.concat (map files groups))).
Proof.
  intros groups.
  split; [apply commit_groups_perm|]. split.
  - apply commit_groups_nonempty.
  - intros Hnd.
    apply (Permutation_NoDup
             (Permutation_sym
                (commit_groups_perm commit_strategy commits_plan rglob))).
    unfold files_to_commit. now apply NoDup_filter.
Qed.

Lemma commit_groups_partition_witness :
  let rglob := ["README.md"; ".gitignore"; "src/a.py"; "tests/t.py"] in
  NoDup (List.concat (map files (commit_groups "smart" [] rglob))).
Proof.
  intros rglob.
  apply (proj2 (proj2 (commit_groups_partition "smart" [] rglob))).
  repeat constructor; simpl; intuition discriminate.
Defined.

(** X2.  Files of git itself.  Whatever the strategy and the candidate messages,
    a file of a commit group comes from the enumeration and its name does
    not begin with ".git": a [.gitignore], [.gitattributes] or [.gitkeep]
    file is in no group, in whatever directory it lies. *)
Theorem git_named_files_never_grouped
        (commit_strategy : string) (commits_plan rglob : list string)
        (g : CommitGroup) (f : string) :
  In g (commit_groups commit_strategy commits_plan rglob) ->
  In f (files g) ->
  In f rglob /\ Py.startswith (Py.name f) ".git" = false.
Proof.
  intros Hg Hf. apply in_files_to_commit.
  apply (Permutation_in f
           (commit_groups_perm commit_strategy commits_plan rglob)).
  apply in_concat. exists (files g). split; [now apply in_map | exact Hf].
Qed.

Lemma git_named_files_never_grouped_witness :
  let groups :=
    commit_groups "smart" ["feat: x"]
                  ["README.md"; ".gitignore"; "docs/.gitkeep"; "src/main.py"] in
  forallb (fun g => forallb (fun f => negb (Py.startswith (Py.name f) ".git"))
                            (files g)) groups = true /\
  Py.startswith (Py.name "src/main.py") ".git" = false.
Proof.
  intros groups. split; [reflexivity|].
  refine (proj2 (git_named_files_never_grouped "smart" ["feat: x"]
            ["README.md"; ".gitignore"; "docs/.gitkeep"; "src/main.py"]
            (mkGroup ["src/main.py"] "feat: x") "src/main.py" _ _));
    simpl; tauto.
Defined.

(** X3.  Number of groups and isolation of failures.  There are at most four
    groups in the detailed strategy and at most three otherwise, and
    [create_commits] records one commit per group whose commit went
    through, in the order of the groups, with the group's message and
    files: a group whose commit raises costs its own record only. *)
Theorem create_commits_per_group
        (commit_strategy : string) (commit_ok : CommitGroup -> bool)
        (rglob commits_plan : list string) (project : Database.Project) :
  let groups := commit_groups commit_strategy commits_plan rglob in
  (List.length groups <= 4)%nat /\
  (String.eqb commit_strategy "detailed" = false ->
   (List.length groups <= 3)%nat) /\
  create_commits commit_strategy commit_ok rglob commits_plan project =
    map (fun g => Database.mkCommit (Database.project_id project) (msg g)
                    (commit_type_of (msg g)) (files g))
        (filter commit_ok groups).
Proof.
  intros groups.
  assert (Hlen1 : forall l m, (List.length (group_if_any l m) <= 1)%nat)
    by (intros [|x l] m; simpl; lia).
  assert (Hlen2 : forall l, (List.length (split_source commits_plan l) <= 2)%nat).
  { intros l. unfold split_source. destruct l as [|x l]; [simpl; lia|].
    destruct (0 <? _)%nat; simpl; lia. }
  split; [|split].
  - subst groups. unfold commit_groups.
    destruct (String.eqb commit_strategy "detailed"); rewrite !length_app.
    + pose proof (Hlen1 (config_docs (categorize (files_to_commit rglob)))
                        (chore_msg commits_plan)).
      pose proof (Hlen2 (source_code (categorize (files_to_commit rglob)))).
      pose proof (Hlen1 (tests (categorize (files_to_commit rglob)))
                        (test_msg commits_plan)).
      lia.
    + pose proof (Hlen1 (config_docs (categorize (files_to_commit rglob)))
                        (chore_msg commits_plan)).
      pose proof (Hlen1 (source_code (categorize (files_to_commit rglob)))
                        (feat_msg commits_plan)).
      pose proof (Hlen1 (tests (categorize (files_to_commit rglob)))
                        (test_msg commits_plan)).
      lia.
  - intros Hs. subst groups. unfold commit_groups. rewrite Hs.
    rewrite !length_app.
    pose proof (Hlen1 (config_docs (categorize (files_to_commit rglob)))
                      (chore_msg commits_plan)).
    pose proof (Hlen1 (source_code (categorize (files_to_commit rglob)))
                      (feat_msg commits_plan)).
    pose proof (Hlen1 (tests (categorize (files_to_commit rglob)))
                      (test_msg commits_plan)).
    lia.
  - unfold create_commits. fold groups.
    pose proof (commit_groups_nonempty commit_strategy commits_plan rglob)
      as Hne.
    fold groups in Hne. clearbody groups.
    induction groups as [|g gs IH]; [reflexivity|].
    cbn [flat_map filter].
    rewrite IH by (intros g' Hg'; apply Hne; now right).
    pose proof (Hne g (or_introl eq_refl)) as Hg.
    destruct (files g) as [|x l] eqn:E; [congruence|].
    destruct (commit_ok g); cbn [map app]; now rewrite ?E.
Qed.

Lemma contains_colon_cons (c : ascii) (s : string) :
  Py.contains ":" (String c s) = Ascii.eqb c ":" || Py.contains ":" s.
Proof.
  change (Py.contains ":" (String c s))
    with (String.prefix ":" (String c s) || Py.contains ":" s).
  f_equal. cbn [String.prefix].
  destruct (Ascii.ascii_dec ":" c) as [<-|Hne].
  - now destruct s.
  - symmetry. apply Ascii.eqb_neq. congruence.
Qed.

Lemma before_colon_none (s : string) :
  Py.contains ":" s = false -> before_colon s = None.
Proof.
  induction s as [|c s IH]; [reflexivity|].
  rewrite contains_colon_cons. intros H.
  apply orb_false_iff in H. destruct H as [H1 H2].
  cbn [before_colon]. now rewrite H1, (IH H2).
Qed.

Lemma before_colon_app (t rest : string) :
  Py.contains ":" t = false ->
  before_colon (t ++ String ":" rest) = Some t.
Proof.
  induction t as [|c t IH]; [reflexivity|].
  rewrite contains_colon_cons. intros H.
  apply orb_false_iff in H. destruct H as [H1 H2].
  cbn [String.append before_colon]. now rewrite H1, (IH H2).
Qed.

Lemma before_colon_no_colon (s t : string) :
  before_colon s = Some t -> Py.contains ":" t = false.
Proof.
  revert t. induction s as [|c s IH]; intros t; [discriminate|].
  cbn [before_colon]. destruct (Ascii.eqb c ":") eqn:E.
  - intros H. inversion H. reflexivity.
  - destruct (before_colon s) as [t'|]; [|discriminate].
    cbn [option_map]. intros H. inversion H. subst t.
    now rewrite contains_colon_cons, E, (IH t' eq_refl).
Qed.

(** X4.  Commit type.  The recorded type is what stands before the first colon
    of the message: for a message [t ++ ":" ++ rest] with no colon in [t] it
    is [t] (the empty string when the message starts with a colon); a
    message without a colon has type "other"; and a recorded type never
    contains a colon. *)
Theorem commit_type_of_message :
  (forall t rest : string,
      Py.contains ":" t = false ->
      commit_type_of (t ++ String ":" rest) = t) /\
  (forall m : string,
      Py.contains ":" m = false -> commit_type_of m = "other") /\
  (forall m : string, Py.contains ":" (commit_type_of m) = false).
Proof.
  unfold commit_type_of. split; [|split].
  - intros t rest H. now rewrite before_colon_app.
  - intros m H. now rewrite before_colon_none.
  - intros m. destruct (before_colon m) as [t|] eqn:E.
    + exact (before_colon_no_colon m t E).
    + reflexivity.
Qed.

Lemma commit_type_of_message_witness :
  commit_type_of ("feat" ++ String ":" " add parser: first cut") = "feat" /\
  commit_type_of "initial commit" = "other".
Proof.
  split.
  - apply (proj1 commit_type_of_message). reflexivity.
  - apply (proj1 (proj2 commit_type_of_message)). reflexivity.
Defined.

End GitManagerSpec.

(** ** Skill ledger *)

Module SkillMapperSpec.
Import Database SkillMapper.

Lemma Qltb_lt (a b : Q) : Qltb a b = true <-> (a < b)%Q.
Proof.
  unfold Qltb. rewrite negb_true_iff. split.
  - intros H. apply Qnot_le_lt. intros Hle.
    apply Qle_bool_iff in Hle. congruence.
  - intros H. destruct (Qle_bool b a) eqn:E; [|reflexivity].
    apply Qle_bool_iff in E. lra.
Qed.

Lemma Qltb_ge (a b : Q) : Qltb a b = false <-> (b <= a)%Q.
Proof.
  unfold Qltb. rewrite negb_false_iff. apply Qle_bool_iff.
Qed.

Lemma Qgeb_ge (a b : Q) : Qgeb a b = true <-> (b <= a)%Q.
Proof. apply Qle_bool_iff. Qed.

Lemma Qgeb_lt (a b : Q) : Qgeb a b = false <-> (a < b)%Q.
Proof.
  unfold Qgeb. split.
  - intros H. apply Qnot_le_lt. intros Hle.
    apply Qle_bool_iff in Hle. congruence.
  - intros H. destruct (Qle_bool b a) eqn:E; [|reflexivity].
    apply Qle_bool_iff in E. lra.
Qed.

Lemma min_100_min (x : Q) : (min_100 x == Qmin 100 x)%Q.
Proof.
  unfold min_100. destruct (Qltb x 100) eqn:E.
  - apply Qltb_lt in E. symmetry. apply Q.min_r. lra.
  - apply Qltb_ge in E. symmetry. now apply Q.min_l.
Qed.

Lemma actual_gain_spec (p : Q) (d : DifficultyLevel) (w : Q) :
  (actual_gain p d w == spec_gain p d w)%Q.
Proof.
  unfold actual_gain, spec_gain.
  destruct (Qgeb p 80) eqn:E80.
  - apply Qgeb_ge in E80.
    destruct (Qlt_le_dec p 80); [lra|]. destruct d; reflexivity.
  - apply Qgeb_lt in E80.
    destruct (Qlt_le_dec p 80); [|lra].
    destruct (Qgeb p 50) eqn:E50.
    + apply Qgeb_ge in E50.
      destruct (Qlt_le_dec p 50); [lra|]. destruct d; reflexivity.
    + apply Qgeb_lt in E50.
      destruct (Qlt_le_dec p 50); [|lra]. destruct d; reflexivity.
Qed.

Lemma spec_gain_pos (p : Q) (d : DifficultyLevel) (w : Q) :
  (0 < w)%Q -> (0 < spec_gain p d w)%Q.
Proof.
  intros Hw. unfold spec_gain.
  destruct (Qlt_le_dec p 80); [destruct (Qlt_le_dec p 50)|];
    destruct d; lra.
Qed.

(** C2.  With proficiency [p] in [0,100] and weight [w] in (0,1], the
    update sets the proficiency to [min(100, p + g)] for the gain [g] of
    the specification, keeps it in [0,100], adds exactly one to
    [projects_count], and stamps [last_used] and [updated_at] with the
    clock readings of the update. *)
Theorem C2_update_skill_proficiency
        (skill : Skill) (d : DifficultyLevel) (w : Q) (t_used t_updated : Time) :
  (0 <= proficiency skill <= 100)%Q ->
  (0 < w <= 1)%Q ->
  let skill' := update_skill_proficiency skill d w t_used t_updated in
  (proficiency skill' ==
     Qmin 100 (proficiency skill + spec_gain (proficiency skill) d w))%Q /\
  (0 <= proficiency skill' <= 100)%Q /\
  projects_count skill' = projects_count skill + 1 /\
  last_used skill' = Some t_used /\
  updated_at skill' = t_updated /\
  skill_name skill' = skill_name skill.
Proof.
  intros Hp Hw skill'.
  assert (Hprof : (proficiency skill' ==
     Qmin 100 (proficiency skill + spec_gain (proficiency skill) d w))%Q).
  { subst skill'. unfold update_skill_proficiency. simpl.
    rewrite min_100_min. now rewrite actual_gain_spec. }
  split; [exact Hprof|]. split; [|now subst skill'].
  rewrite Hprof.
  pose proof (spec_gain_pos (proficiency skill) d w (proj1 Hw)) as Hg.
  destruct (Q.min_spec 100 (proficiency skill + spec_gain (proficiency skill) d w))
    as [[Hlt ->] | [Hle ->]]; lra.
Qed.

Lemma C2_update_skill_proficiency_witness :
  let skill := mkSkill "REST APIs" FULL_STACK 98 7 None 0 in
  let skill' := update_skill_proficiency skill ADVANCED 1 11 12 in
  (proficiency skill' == 100)%Q /\ projects_count skill' = 8 /\
  last_used skill' = Some 11 /\ updated_at skill' = 12.
Proof.
  intros skill skill'.
  assert (Hp : (0 <= proficiency skill <= 100)%Q) by (simpl; lra).
  assert (Hw : (0 < 1 <= 1)%Q) by lra.
  destruct (C2_update_skill_proficiency skill ADVANCED 1 11 12 Hp Hw)
    as (_ & _ & Hc & Hu & Ht & _).
  split; [reflexivity|]. split; [exact Hc|]. split; [exact Hu | exact Ht].
Defined.

Lemma existsb_eqb_In (x : string) (l : list string) :
  existsb (String.eqb x) l = true <-> In x l.
Proof.
  rewrite existsb_exists. split.
  - intros [y [Hy He]]. apply String.eqb_eq in He. now subst.
  - intros H. exists x. split; [exact H | apply String.eqb_refl].
Qed.

(** The query selects the tracked skills that bear a name of the
    category. *)
Lemma get_skills_for_category_tracked (skills : list Skill)
      (c : ProjectCategory) :
  Permutation (get_skills_for_category skills c)
              (Spec.tracked (CATEGORY_SKILLS c) skills).
Proof.
  unfold get_skills_for_category, Spec.tracked.
  rewrite PyFacts.sorted_perm.
  erewrite filter_ext; [reflexivity|].
  intros s. cbv beta.
  destruct (in_dec string_dec (skill_name s) (CATEGORY_SKILLS c)) as [H|H].
  - now apply existsb_eqb_In.
  - destruct (existsb _ _) eqn:E; [|reflexivity].
    apply existsb_eqb_In in E. contradiction.
Qed.

Lemma fold_left_Qplus (l : list Q) (a : Q) :
  (fold_left Qplus l a == a + Py.sum l)%Q.
Proof.
  revert a. induction l as [|x l IH]; intros a; unfold Py.sum; simpl.
  - lra.
  - rewrite IH. unfold Py.sum. lra.
Qed.

Lemma total_sum (l : list Q) : (Spec.total l == Py.sum l)%Q.
Proof. unfold Spec.total. rewrite fold_left_Qplus. lra. Qed.

Lemma sum_perm (l l' : list Q) :
  Permutation l l' -> (Py.sum l == Py.sum l')%Q.
Proof.
  unfold Py.sum. induction 1; simpl; lra.
Qed.

(** The mean that the program computes is the arithmetic mean, in
    whatever order the rows come. *)
Lemma avg_proficiency_average (l l' : list Skill) :
  Permutation l l' ->
  (avg_proficiency l == Spec.average (map proficiency l'))%Q.
Proof.
  intros Hp. destruct l as [|x l].
  - apply Permutation_nil in Hp. subst l'. reflexivity.
  - destruct l' as [|y l'];
      [apply Permutation_sym, Permutation_nil in Hp; discriminate|].
    unfold avg_proficiency, Py.mean.
    change (Spec.average (map proficiency (y :: l')))
      with (Spec.total (map proficiency (y :: l'))
            / inject_Z (Z.of_nat (List.length (map proficiency (y :: l')))))%Q.
    rewrite total_sum.
    rewrite (sum_perm _ _ (Permutation_map proficiency Hp)).
    rewrite !length_map, (Permutation_length Hp). reflexivity.
Qed.

(** [focus_areas.get(key, 0)] on a dictionary, whose keys are distinct. *)
Lemma dict_get_weight (focus_areas : list (string * Z)) (key : string)
      (w : Z) :
  NoDup (map fst focus_areas) ->
  Spec.weight_of focus_areas key w ->
  dict_get focus_areas key 0 = w.
Proof.
  unfold Spec.weight_of.
  induction focus_areas as [|[k v] rest IH]; intros Hnd Hw.
  - destruct Hw as [[]|[_ ->]]. reflexivity.
  - simpl in Hnd. apply NoDup_cons_iff in Hnd. destruct Hnd as [Hk Hnd].
    simpl. destruct (String.eqb k key) eqn:E.
    + apply String.eqb_eq in E. subst k.
      destruct Hw as [[Hw|Hw]|[Hw _]].
      * congruence.
      * exfalso. apply Hk. apply in_map_iff. now exists (key, w).
      * exfalso. apply Hw. now left.
    + apply String.eqb_neq in E. apply IH; [exact Hnd|].
      destruct Hw as [[Hw|Hw]|[Hw ->]].
      * congruence.
      * now left.
      * right. split; [|reflexivity]. intros H. apply Hw. now right.
Qed.

(** C5.  The dictionary of gaps has one entry per category, and the gap
    recorded for a category is [w * (100 - avg) / 100], where [w] is the
    target weight that the configuration records for the category (0 when
    it records none) and [avg] the arithmetic mean of the proficiencies of
    the tracked skills that bear a name of the category (0 when there is
    none); so a category whose target weight is 0 has gap 0 whatever the
    ledger holds. *)
Theorem C5_gap_score
        (focus_areas : list (string * Z)) (skills : list Skill)
        (c : ProjectCategory) (w : Z) :
  NoDup (map fst focus_areas) ->
  Spec.weight_of focus_areas (category_value c) w ->
  let avg :=
    Spec.average
      (map proficiency (Spec.tracked (CATEGORY_SKILLS c) skills)) in
  map fst (get_skill_gaps focus_areas skills) = all_categories /\
  exists g : Q,
    In (c, g) (get_skill_gaps focus_areas skills) /\
    (g == inject_Z w * (100 - avg) / 100)%Q /\
    (w = 0 -> (g == 0)%Q).
Proof.
  intros Hnd Hw avg. split; [reflexivity|].
  exists (gap_score (dict_get focus_areas (category_value c) 0)
                    (avg_proficiency (get_skills_for_category skills c))).
  rewrite (dict_get_weight focus_areas (category_value c) w Hnd Hw).
  split; [|split].
  - unfold get_skill_gaps. cbv zeta.
    rewrite <- (dict_get_weight focus_areas (category_value c) w Hnd Hw).
    apply (in_map (fun category =>
                     (category,
                      gap_score
                        (dict_get focus_areas (category_value category) 0)
                        (avg_proficiency
                           (get_skills_for_category skills category))))).
    destruct c; simpl; tauto.
  - unfold gap_score.
    rewrite (avg_proficiency_average _ _
               (get_skills_for_category_tracked skills c)).
    reflexivity.
  - intros ->. unfold gap_score. change (inject_Z 0) with 0%Q. field.
Qed.

Lemma C5_gap_score_witness :
  let focus_areas :=
    [("ai_ml", 40); ("full_stack", 30); ("system_design", 30);
     ("security_blockchain", 0)] in
  let skills :=
    [mkSkill "REST APIs" FULL_STACK 30 2 None 0;
     mkSkill "Machine Learning" AI_ML 90 6 None 0;
     mkSkill "Database Design" FULL_STACK 50 1 None 0;
     mkSkill "Encryption" SECURITY_BLOCKCHAIN 25 1 None 0] in
  (exists g : Q,
      In (FULL_STACK, g) (get_skill_gaps focus_areas skills) /\ (g == 18)%Q) /\
  (exists g : Q,
      In (SECURITY_BLOCKCHAIN, g) (get_skill_gaps focus_areas skills) /\
      (g == 0)%Q).
Proof.
  intros focus_areas skills.
  assert (Hnd : NoDup (map fst focus_areas)).
  { repeat constructor; simpl; intuition discriminate. }
  split.
  - destruct (C5_gap_score focus_areas skills FULL_STACK 30 Hnd)
      as (_ & g & Hin & Hg & _).
    { left. simpl. tauto. }
    exists g. split; [exact Hin|].
    apply (Qeq_trans _ _ _ Hg). vm_compute. reflexivity.
  - destruct (C5_gap_score focus_areas skills SECURITY_BLOCKCHAIN 0 Hnd)
      as (_ & g & Hin & _ & Hz).
    { left. simpl. tauto. }
    exists g. split; [exact Hin | apply Hz; reflexivity].
Defined.

Lemma key_lt_true (a b : Skill) :
  key_lt a b = true <->
  (proficiency a < proficiency b)%Q \/
  ((proficiency a == proficiency b)%Q /\ projects_count a < projects_count b).
Proof.
  unfold key_lt. destruct (Qeq_bool (proficiency a) (proficiency b)) eqn:E.
  - apply Qeq_bool_iff in E. rewrite Z.ltb_lt. split.
    + intros H. right. now split.
    + intros [H | [_ H]]; [lra | exact H].
  - apply Qeq_bool_neq in E. rewrite Qltb_lt. split.
    + intros H. now left.
    + intros [H | [H _]]; [exact H | contradiction].
Qed.

Lemma key_lt_false (a b : Skill) : key_lt b a = false <-> key_le a b.
Proof.
  unfold key_le. split.
  - intros H.
    destruct (Qlt_le_dec (proficiency a) (proficiency b)) as [Hlt | Hle];
      [now left|].
    destruct (Qlt_le_dec (proficiency b) (proficiency a)) as [Hlt' | Hle'].
    + assert (key_lt b a = true) by (apply key_lt_true; now left). congruence.
    + assert (Heq : (proficiency a == proficiency b)%Q) by lra.
      right. split; [exact Heq|].
      destruct (Z_lt_le_dec (projects_count b) (projects_count a)) as [Hc | Hc];
        [|exact Hc].
      assert (key_lt b a = true).
      { apply key_lt_true. right. split; [now symmetry | exact Hc]. }
      congruence.
  - intros H. destruct (key_lt b a) eqn:E; [|reflexivity].
    apply key_lt_true in E. destruct H as [H | [H1 H2]], E as [E | [E1 E2]];
      try lra; lia.
Qed.

Lemma key_lt_asym (a b : Skill) : key_lt a b = true -> key_lt b a = false.
Proof.
  rewrite key_lt_true, key_lt_false. unfold key_le.
  intros [H | [H1 H2]]; [now left | right; split; [exact H1 | lia]].
Qed.

Lemma key_le_trans (a b c : Skill) :
  key_lt b a = false -> key_lt c b = false -> key_lt c a = false.
Proof.
  rewrite !key_lt_false. unfold key_le.
  intros [H | [H1 H2]] [K | [K1 K2]].
  - left; lra.
  - left; lra.
  - left; lra.
  - right. split; [lra | lia].
Qed.

Lemma sorted_by_key (l : list Skill) :
  StronglySorted key_le (Py.sorted key_lt l).
Proof.
  pose proof (PyFacts.sorted_sorted key_lt key_lt_asym key_le_trans l) as H.
  induction H as [|x xs Hs IH Hx]; constructor; [exact IH|].
  eapply Forall_impl; [|exact Hx].
  intros y Hy. now apply key_lt_false.
Qed.

(** C6.  The selection is the first [N] elements of a list that holds
    exactly the tracked skills bearing a name of the category, in
    ascending order of [(proficiency, projects_count)]; the planner asks
    for [N = 3]; and when the category's tracked skills are two skills
    with proficiency 10 and counts 5 and 2, the top one is the one with
    count 2, wherever the two stand in the ledger and whatever skills of
    other categories the ledger holds. *)
Theorem C6_select_skills_for_project :
  (forall (skills : list Skill) (c : ProjectCategory) (n : nat),
      exists ranked : list Skill,
        Permutation ranked (Spec.tracked (CATEGORY_SKILLS c) skills) /\
        StronglySorted key_le ranked /\
        select_skills_for_project skills c (Z.of_nat n) = firstn n ranked /\
        select_skills_for_project skills c 3 = firstn 3 ranked) /\
  (forall (skills : list Skill) (a b : Skill) (c : ProjectCategory),
      Permutation (Spec.tracked (CATEGORY_SKILLS c) skills) [a; b] ->
      (proficiency a == 10)%Q -> projects_count a = 5 ->
      (proficiency b == 10)%Q -> projects_count b = 2 ->
      select_skills_for_project skills c 1 = [b]).
Proof.
  split.
  - intros skills c n.
    exists (Py.sorted key_lt (get_skills_for_category skills c)).
    split; [|split; [apply sorted_by_key|]].
    + rewrite PyFacts.sorted_perm. apply get_skills_for_category_tracked.
    + unfold select_skills_for_project, Py.slice_to. split.
      * destruct (Z.of_nat n <? 0) eqn:E; [apply Z.ltb_lt in E; lia|].
        now rewrite Nat2Z.id.
      * reflexivity.
  - intros skills a b c Hp Hpa Hca Hpb Hcb.
    assert (Hba : key_lt b a = true).
    { apply key_lt_true. right. split; [lra | lia]. }
    assert (E : Py.sorted key_lt (get_skills_for_category skills c) = [b; a]).
    { apply (PyFacts.sorted_unique key_le (fun x y => key_lt x y = true)).
      - intros x y Hs Hr. apply key_lt_false in Hr. congruence.
      - apply sorted_by_key.
      - repeat constructor. exact Hba.
      - rewrite PyFacts.sorted_perm, get_skills_for_category_tracked, Hp.
        apply perm_swap. }
    unfold select_skills_for_project. cbv zeta. rewrite E. reflexivity.
Qed.

Lemma C6_select_skills_for_project_witness :
  let a := mkSkill "Machine Learning" AI_ML 10 5 None 0 in
  let x := mkSkill "REST APIs" FULL_STACK 0 0 None 0 in
  let b := mkSkill "Deep Learning" AI_ML 10 2 None 0 in
  select_skills_for_project [a; x; b] AI_ML 1 = [b].
Proof.
  intros a x b.
  apply (proj2 C6_select_skills_for_project [a; x; b] a b AI_ML).
  - reflexivity.
  - reflexivity.
  - reflexivity.
  - reflexivity.
  - reflexivity.
Defined.

(** *** Further properties of the skill taxonomy *)

Lemma max_item_categories (gap : ProjectCategory -> Q) :
  let selected :=
    fst (max_item (AI_ML, gap AI_ML)
                  [(FULL_STACK, gap FULL_STACK);
                   (SYSTEM_DESIGN, gap SYSTEM_DESIGN);
                   (SECURITY_BLOCKCHAIN, gap SECURITY_BLOCKCHAIN)]) in
  (forall c, (gap c <= gap selected)%Q) /\
  (forall c, (category_rank c < category_rank selected)%nat ->
             (gap c < gap selected)%Q).
Proof.
  cbn [max_item fst snd].
  destruct (Qltb (gap AI_ML) (gap FULL_STACK)) eqn:E1;
    cbn [max_item fst snd];
    [ destruct (Qltb (gap FULL_STACK) (gap SYSTEM_DESIGN)) eqn:E2
    | destruct (Qltb (gap AI_ML) (gap SYSTEM_DESIGN)) eqn:E2 ];
    cbn [max_item fst snd];
    match goal with
    | |- context [Qltb ?a ?b] => destruct (Qltb a b) eqn:E3
    end;
    cbn [max_item fst snd];
    repeat match goal with
           | H : Qltb _ _ = true |- _ => apply Qltb_lt in H
           | H : Qltb _ _ = false |- _ => apply Qltb_ge in H
           end;
    (split; intros c; destruct c; cbn [category_rank]; try lia; try lra;
     intros _; lra).
Qed.

(** X5.  Choice of the category.  The selected category has the greatest gap
    score, and among the categories with that score it is the first of the
    enumeration: every category before it has a strictly smaller gap. *)
Theorem select_category_is_argmax
        (focus_areas : list (string * Z)) (skills : list Skill) :
  let gap c :=
    gap_score (dict_get focus_areas (category_value c) 0)
              (avg_proficiency (get_skills_for_category skills c)) in
  let selected := select_category_for_project focus_areas skills in
  (forall c, (gap c <= gap selected)%Q) /\
  (forall c, (category_rank c < category_rank selected)%nat ->
             (gap c < gap selected)%Q).
Proof.
  intros gap selected.
  assert (Hg : get_skill_gaps focus_areas skills
               = map (fun c => (c, gap c)) all_categories) by reflexivity.
  assert (Hs : selected
               = fst (max_item (AI_ML, gap AI_ML)
                        [(FULL_STACK, gap FULL_STACK);
                         (SYSTEM_DESIGN, gap SYSTEM_DESIGN);
                         (SECURITY_BLOCKCHAIN, gap SECURITY_BLOCKCHAIN)])).
  { subst selected. unfold select_category_for_project. now rewrite Hg. }
  rewrite Hs. apply max_item_categories.
Qed.

Lemma difficulty_thresholds (avg : Q) (rate : string) :
  exists lo hi : Q,
    (lo <= hi)%Q /\
    (rate = "slow" -> lo = 40%Q /\ hi = 70%Q) /\
    (rate = "fast" -> lo = 20%Q /\ hi = 50%Q) /\
    (rate <> "slow" -> rate <> "fast" -> lo = 30%Q /\ hi = 60%Q) /\
    get_difficulty_for_proficiency avg rate =
      if Qltb avg lo then BEGINNER
      else if Qltb avg hi then INTERMEDIATE else ADVANCED.
Proof.
  unfold get_difficulty_for_proficiency.
  destruct (String.eqb rate "slow") eqn:Es.
  - apply String.eqb_eq in Es. subst rate. exists 40%Q, 70%Q.
    repeat split; try reflexivity; try discriminate; try congruence; try lra.
  - apply String.eqb_neq in Es.
    destruct (String.eqb rate "fast") eqn:Ef.
    + apply String.eqb_eq in Ef. subst rate. exists 20%Q, 50%Q.
      repeat split; try reflexivity; try discriminate; try congruence; try lra.
    + apply String.eqb_neq in Ef. exists 30%Q, 60%Q.
      repeat split; try reflexivity; try congruence; try lra.
Qed.

(** X6.  Difficulty.  For every advancement rate the level does not go down
    when the average proficiency goes up; at the same proficiency the rate
    "fast" gives a level at least that of "moderate" and "moderate" one at
    least that of "slow"; and any other rate counts as "moderate". *)
Theorem difficulty_follows_proficiency :
  (forall (rate : string) (a b : Q),
      (a <= b)%Q ->
      (difficulty_rank (get_difficulty_for_proficiency a rate)
       <= difficulty_rank (get_difficulty_for_proficiency b rate))%nat) /\
  (forall a : Q,
      (difficulty_rank (get_difficulty_for_proficiency a "slow")
       <= difficulty_rank (get_difficulty_for_proficiency a "moderate"))%nat /\
      (difficulty_rank (get_difficulty_for_proficiency a "moderate")
       <= difficulty_rank (get_difficulty_for_proficiency a "fast"))%nat) /\
  (forall (rate : string) (a : Q),
      rate <> "slow" -> rate <> "fast" ->
      get_difficulty_for_proficiency a rate =
      get_difficulty_for_proficiency a "moderate").
Proof.
  split; [|split].
  - intros rate a b Hab.
    destruct (difficulty_thresholds a rate)
      as [lo [hi [Hlh [Hs [Hf [Hm Ha]]]]]].
    destruct (difficulty_thresholds b rate)
      as [lo' [hi' [_ [Hs' [Hf' [Hm' Hb]]]]]].
    assert (lo' = lo /\ hi' = hi) as [-> ->].
    { destruct (String.eqb rate "slow") eqn:Es.
      - apply String.eqb_eq in Es.
        destruct (Hs Es), (Hs' Es). split; congruence.
      - apply String.eqb_neq in Es.
        destruct (String.eqb rate "fast") eqn:Ef.
        + apply String.eqb_eq in Ef.
          destruct (Hf Ef), (Hf' Ef). split; congruence.
        + apply String.eqb_neq in Ef.
          destruct (Hm Es Ef), (Hm' Es Ef). split; congruence. }
    rewrite Ha, Hb.
    destruct (Qltb a lo) eqn:A1, (Qltb a hi) eqn:A2,
             (Qltb b lo) eqn:B1, (Qltb b hi) eqn:B2;
      cbn [difficulty_rank]; try lia;
      repeat match goal with
             | H : Qltb _ _ = true |- _ => apply Qltb_lt in H
             | H : Qltb _ _ = false |- _ => apply Qltb_ge in H
             end; lra.
  - intros a. unfold get_difficulty_for_proficiency.
    cbn [String.eqb Ascii.eqb Bool.eqb].
    destruct (Qltb a 40) eqn:A40, (Qltb a 70) eqn:A70,
             (Qltb a 30) eqn:A30, (Qltb a 60) eqn:A60,
             (Qltb a 20) eqn:A20, (Qltb a 50) eqn:A50;
      cbn [difficulty_rank]; try (split; lia);
      repeat match goal with
             | H : Qltb _ _ = true |- _ => apply Qltb_lt in H
             | H : Qltb _ _ = false |- _ => apply Qltb_ge in H
             end; lra.
  - intros rate a Hs Hf. unfold get_difficulty_for_proficiency.
    apply String.eqb_neq in Hs. apply String.eqb_neq in Hf.
    rewrite Hs, Hf. reflexivity.
Qed.

Lemma difficulty_follows_proficiency_witness :
  (difficulty_rank (get_difficulty_for_proficiency 25 "fast")
   <= difficulty_rank (get_difficulty_for_proficiency 55 "fast"))%nat /\
  get_difficulty_for_proficiency 45 "steady" =
  get_difficulty_for_proficiency 45 "moderate".
Proof.
  split.
  - apply (proj1 difficulty_follows_proficiency). lra.
  - apply (proj2 (proj2 difficulty_follows_proficiency)); discriminate.
Defined.

Lemma actual_gain_bounds (p : Q) (d : DifficultyLevel) (w : Q) :
  (0 < w)%Q ->
  (base_gain d * w * (1#2) <= actual_gain p d w <= base_gain d * w)%Q.
Proof.
  intros Hw. unfold actual_gain.
  destruct (Qgeb p 80); [|destruct (Qgeb p 50)];
    destruct d; cbn [base_gain]; lra.
Qed.

Lemma min_100_cases (x : Q) :
  ((x < 100)%Q /\ min_100 x = x) \/ ((100 <= x)%Q /\ min_100 x = 100%Q).
Proof.
  unfold min_100. destruct (Qltb x 100) eqn:E.
  - left. split; [now apply Qltb_lt | reflexivity].
  - right. split; [now apply Qltb_ge | reflexivity].
Qed.

Lemma inject_Z_of_nat_S (n : nat) :
  (inject_Z (Z.of_nat (S n)) == inject_Z (Z.of_nat n) + 1)%Q.
Proof.
  rewrite Nat2Z.inj_succ. unfold Z.succ. now rewrite inject_Z_plus.
Qed.

(** X7.  Practice.  Starting on the scale of 0 to 100, [n] updates of a skill
    with a positive weight never lower its proficiency and never leave the
    scale; each of them gains at least half the base gain until the cap, so
    that the proficiency is at least [min(100, p + n * base * w / 2)]; and
    the project counter has grown by [n] while the name is kept. *)
Theorem practice_reaches_cap
        (skill : Skill) (d : DifficultyLevel) (w : Q)
        (clock : nat -> Time) (n : nat) :
  (0 <= proficiency skill <= 100)%Q ->
  (0 < w)%Q ->
  let skill' := practice n skill d w clock in
  (proficiency skill <= proficiency skill' <= 100)%Q /\
  (Qmin 100 (proficiency skill
             + inject_Z (Z.of_nat n) * (base_gain d * w * (1#2)))
   <= proficiency skill')%Q /\
  projects_count skill' = projects_count skill + Z.of_nat n /\
  skill_name skill' = skill_name skill.
Proof.
  intros Hp Hw. induction n as [|n IH].
  - cbn [practice]. repeat split; try lra; try lia.
    change (inject_Z (Z.of_nat 0)) with 0%Q.
    destruct (Q.min_spec 100 (proficiency skill + 0 * (base_gain d * w * (1#2))))
      as [[H1 H2]|[H1 H2]]; rewrite H2; lra.
  - cbn zeta in IH. destruct IH as [[IH1 IH2] [IH3 [IH4 IH5]]].
    cbn [practice]. set (prev := practice n skill d w clock) in *.
    unfold update_skill_proficiency.
    cbn [proficiency projects_count skill_name].
    pose proof (actual_gain_bounds (proficiency prev) d w Hw) as [G1 G2].
    set (gain := actual_gain (proficiency prev) d w) in *.
    set (h := (base_gain d * w * (1#2))%Q) in *.
    assert (Hh : (0 < h)%Q) by (subst h; destruct d; cbn [base_gain]; lra).
    pose proof (inject_Z_of_nat_S n) as HS.
    set (k := inject_Z (Z.of_nat n)) in *.
    set (k' := inject_Z (Z.of_nat (S n))) in *.
    assert (Hmin : (Qmin 100 (proficiency skill + k' * h)
                    <= Qmin 100 (proficiency skill + k * h) + h)%Q).
    { destruct (Q.min_spec 100 (proficiency skill + k' * h)) as [[A1 A2]|[A1 A2]];
        destruct (Q.min_spec 100 (proficiency skill + k * h)) as [[B1 B2]|[B1 B2]];
        rewrite A2, B2; rewrite HS in *; lra. }
    assert (Hcap : (Qmin 100 (proficiency skill + k' * h) <= 100)%Q)
      by apply Q.le_min_l.
    destruct (min_100_cases (proficiency prev + gain)) as [[C1 C2]|[C1 C2]];
      rewrite C2; repeat split; try lra; try lia; try assumption.
Qed.

Lemma practice_reaches_cap_witness :
  let skill := mkSkill "Encryption" SECURITY_BLOCKCHAIN 30 3 None 0 in
  let skill' := practice 4 skill ADVANCED 1 (fun n => Z.of_nat n) in
  (30 <= proficiency skill' <= 100)%Q /\
  (Qmin 100 (30 + inject_Z (Z.of_nat 4) * (base_gain ADVANCED * 1 * (1#2)))
   <= proficiency skill')%Q /\
  projects_count skill' = 3 + Z.of_nat 4 /\
  skill_name skill' = "Encryption".
Proof.
  intros skill skill'.
  apply (practice_reaches_cap skill ADVANCED 1 (fun n => Z.of_nat n) 4);
    cbn [proficiency skill]; lra.
Defined.

(** X8.  Overtaking at a threshold.  The gain drops at proficiency 50 and at 80,
    so the update does not preserve the order of two skills: with a weight
    of at most 1, a skill that stands less than a quarter of the full gain
    below a threshold ends strictly above a skill that stands on it. *)
Theorem update_overtakes_at_threshold
        (a b : Skill) (d : DifficultyLevel) (w thr : Q)
        (t1 t2 t3 t4 : Time) :
  (0 < w <= 1)%Q ->
  (thr == 50 \/ thr == 80)%Q ->
  (proficiency b == thr)%Q ->
  (thr - base_gain d * w * (1#4) < proficiency a < thr)%Q ->
  (proficiency (update_skill_proficiency b d w t3 t4)
   < proficiency (update_skill_proficiency a d w t1 t2))%Q.
Proof.
  intros Hw Hthr Hb Ha.
  unfold update_skill_proficiency. cbn [proficiency].
  assert (Hg : (0 < base_gain d * w <= 6)%Q)
    by (destruct d; cbn [base_gain]; lra).
  set (g := (base_gain d * w)%Q) in *.
  unfold actual_gain. fold g.
  destruct (Qgeb (proficiency a) 80) eqn:A80,
           (Qgeb (proficiency a) 50) eqn:A50,
           (Qgeb (proficiency b) 80) eqn:B80,
           (Qgeb (proficiency b) 50) eqn:B50;
    repeat match goal with
           | H : Qgeb _ _ = true |- _ => apply Qgeb_ge in H
           | H : Qgeb _ _ = false |- _ => apply Qgeb_lt in H
           end;
    try (exfalso; destruct Hthr; lra);
    match goal with
    | |- (min_100 ?x < min_100 ?y)%Q =>
        destruct (min_100_cases x) as [[X1 X2]|[X1 X2]];
        destruct (min_100_cases y) as [[Y1 Y2]|[Y1 Y2]];
        rewrite X2, Y2
    end;
    destruct Hthr; lra.
Qed.

Lemma update_overtakes_at_threshold_witness :
  let a := mkSkill "REST APIs" FULL_STACK 49 4 None 0 in
  let b := mkSkill "Web Frameworks" FULL_STACK 50 4 None 0 in
  (proficiency (update_skill_proficiency b ADVANCED 1 3%Z 4%Z)
   < proficiency (update_skill_proficiency a ADVANCED 1 1%Z 2%Z))%Q.
Proof.
  intros a b.
  apply (update_overtakes_at_threshold a b ADVANCED 1 50 1 2 3 4);
    cbn [proficiency a b base_gain]; try lra; left; reflexivity.
Defined.

Lemma set_update_spec (l acc : list string) :
  NoDup acc ->
  NoDup (set_update acc l) /\
  (forall x, In x (set_update acc l) <-> In x acc \/ In x l) /\
  (List.length (set_update acc l) <= List.length acc + List.length l)%nat.
Proof.
  unfold set_update. revert acc.
  induction l as [|y l IH]; intros acc Hnd; cbn [fold_left].
  - repeat split; [exact Hnd | tauto | intros [H|[]]; exact H | simpl; lia].
  - destruct (existsb (String.eqb y) acc) eqn:E.
    + destruct (IH acc Hnd) as [H1 [H2 H3]].
      apply existsb_eqb_In in E.
      repeat split; [exact H1 | | | simpl; lia].
      * intros H. apply H2 in H. simpl. tauto.
      * intros [H|[<-|H]]; apply H2; tauto.
    + assert (Hy : ~ In y acc).
      { intros H. apply existsb_eqb_In in H. congruence. }
      assert (Hnd' : NoDup (acc ++ [y])).
      { apply NoDup_app; [exact Hnd | repeat constructor; simpl; tauto |].
        intros x Hx [<-|[]]. contradiction. }
      destruct (IH (acc ++ [y]) Hnd') as [H1 [H2 H3]].
      repeat split; [exact H1 | | |].
      * intros H. apply H2 in H. rewrite in_app_iff in H. simpl in *. tauto.
      * intros H. apply H2. rewrite in_app_iff. simpl in *. tauto.
      * rewrite length_app in H3. simpl in *. lia.
Qed.

(** X9.  Recommended technologies.  The result lists no technology twice; a
    technology is in it exactly when it is one of the first two entries of
    [SKILL_TECHNOLOGIES] for one of the skills, so a skill without an entry
    contributes nothing; and it has at most two technologies per skill. *)
Theorem get_technologies_for_skills_spec (skills : list Skill) :
  let techs := get_technologies_for_skills skills in
  NoDup techs /\
  (forall t, In t techs <->
             exists s, In s skills /\
                       In t (firstn 2 (technologies_get SKILL_TECHNOLOGIES
                                                        (skill_name s)))) /\
  (List.length techs <= 2 * List.length skills)%nat.
Proof.
  intros techs. subst techs. unfold get_technologies_for_skills.
  assert (Hgen : forall acc : list string,
             NoDup acc ->
             let r := fold_left
                        (fun technologies skill =>
                           set_update technologies
                             (Py.slice_to
                                (technologies_get SKILL_TECHNOLOGIES
                                                  (skill_name skill)) 2))
                        skills acc in
             NoDup r /\
             (forall t, In t r <->
                        In t acc \/
                        exists s, In s skills /\
                          In t (firstn 2 (technologies_get SKILL_TECHNOLOGIES
                                                           (skill_name s)))) /\
             (List.length r <= List.length acc + 2 * List.length skills)%nat).
  { induction skills as [|s skills IH]; intros acc Hnd; cbn [fold_left].
    - repeat split; [exact Hnd | tauto | | simpl; lia].
      intros [H|[s [[] _]]]. exact H.
    - change (Py.slice_to (technologies_get SKILL_TECHNOLOGIES (skill_name s)) 2)
        with (firstn 2 (technologies_get SKILL_TECHNOLOGIES (skill_name s))).
      destruct (set_update_spec
                  (firstn 2 (technologies_get SKILL_TECHNOLOGIES (skill_name s)))
                  acc Hnd) as [U1 [U2 U3]].
      destruct (IH _ U1) as [H1 [H2 H3]].
      repeat split; [exact H1 | | |].
      + intros H. apply H2 in H. destruct H as [H|[s' [Hs' Ht]]].
        * apply U2 in H. destruct H as [H|H]; [now left|].
          right. exists s. split; [now left | exact H].
        * right. exists s'. split; [now right | exact Ht].
      + intros H. apply H2. destruct H as [H|[s' [[<-|Hs'] Ht]]].
        * left. apply U2. now left.
        * left. apply U2. now right.
        * right. exists s'. split; assumption.
      + pose proof (firstn_le_length 2
                      (technologies_get SKILL_TECHNOLOGIES (skill_name s))).
        cbn [List.length]. lia. }
  destruct (Hgen [] (NoDup_nil _)) as [H1 [H2 H3]].
  repeat split; [exact H1 | | | exact H3].
  - intros H. apply H2 in H. destruct H as [[]|H]. exact H.
  - intros H. apply H2. now right.
Qed.

End SkillMapperSpec.

(** ** Activity streak *)

Module AnalyticsSpec.
Import Database Analytics.

Lemma day_of_mono (t u : Time) : t <= u -> day_of t <= day_of u.
Proof. intros H. unfold day_of. apply Z.div_le_mono; lia. Qed.

Lemma activities_desc_perm (table : list DailyActivity) :
  Permutation (activities_desc table) table.
Proof. apply PyFacts.sorted_perm. Qed.

(** The query returns the rows most recent first. *)
Lemma activities_desc_sorted (table : list DailyActivity) :
  StronglySorted (fun a b => date b <= date a) (activities_desc table).
Proof.
  unfold activities_desc.
  set (lt := fun a b : DailyActivity => date b <? date a).
  assert (H : StronglySorted (PyFacts.ok_before lt) (Py.sorted lt table)).
  { apply PyFacts.sorted_sorted; subst lt; simpl; intros *.
    - rewrite Z.ltb_lt, Z.ltb_ge. lia.
    - rewrite !Z.ltb_ge. lia. }
  induction H as [|x xs Hs IH Hx]; constructor; [exact IH|].
  eapply Forall_impl; [|exact Hx].
  unfold PyFacts.ok_before; subst lt; simpl. intros y. now rewrite Z.ltb_ge.
Qed.

Lemma activities_desc_head (table : list DailyActivity) a rest :
  activities_desc table = a :: rest ->
  Forall (fun x => date x <= date a) table.
Proof.
  intros E. pose proof (activities_desc_sorted table) as Hs.
  rewrite E in Hs. apply StronglySorted_inv in Hs. destruct Hs as [_ Hs].
  rewrite Forall_forall in Hs |- *. intros x Hx.
  apply (Permutation_in _ (Permutation_sym (activities_desc_perm table))) in Hx.
  rewrite E in Hx. destruct Hx as [<-|Hx]; [lia | now apply Hs].
Qed.

(** What the backward scan computes from a start value [n]: it counts the
    leading rows that are each one day before their predecessor. *)
Lemma extend_streak_run (rest : list DailyActivity) :
  forall (a : DailyActivity) (n : Z),
  exists k : nat,
    extend_streak (day a) rest n = n + Z.of_nat k /\
    (k <= List.length rest)%nat /\
    (forall i, (i < k)%nat ->
               day (nth i (a :: rest) a) - day (nth (S i) (a :: rest) a) = 1) /\
    ((k < List.length rest)%nat ->
     day (nth k (a :: rest) a) - day (nth (S k) (a :: rest) a) <> 1).
Proof.
  induction rest as [|b rest IH]; intros a n.
  - exists 0%nat. simpl. repeat split; try lia.
  - simpl extend_streak. destruct (day a - day b =? 1) eqn:E.
    + apply Z.eqb_eq in E.
      destruct (IH b (n + 1)) as (k & Hk & Hlen & Hrun & Hstop).
      exists (S k). split; [rewrite Hk; lia|]. split; [simpl; lia|]. split.
      * intros [|i] Hi; [exact E|].
        specialize (Hrun i ltac:(lia)).
        change (day (nth i (b :: rest) a) - day (nth (S i) (b :: rest) a) = 1).
        rewrite (nth_indep (b :: rest) a b (n := i)) by (simpl; lia).
        rewrite (nth_indep (b :: rest) a b (n := S i)) by (simpl; lia).
        exact Hrun.
      * intros Hlt. simpl in Hlt. specialize (Hstop ltac:(lia)).
        change (day (nth k (b :: rest) a) - day (nth (S k) (b :: rest) a) <> 1).
        rewrite (nth_indep (b :: rest) a b (n := k)) by (simpl; lia).
        rewrite (nth_indep (b :: rest) a b (n := S k)) by (simpl; lia).
        exact Hstop.
    + apply Z.eqb_neq in E. exists 0%nat. simpl.
      repeat split; try lia; intros _; exact E.
Qed.

Lemma day_lt_date (a b : DailyActivity) : day a < day b -> date a < date b.
Proof.
  intros H. destruct (Z_lt_le_dec (date a) (date b)) as [Hlt | Hle];
    [exact Hlt|].
  apply day_of_mono in Hle. unfold day in H. lia.
Qed.

(** Two lists of numbers in descending order that rearrange each other are
    the same list. *)
Lemma desc_unique (l1 : list Z) :
  forall l2 : list Z,
    StronglySorted (fun u v => v <= u) l1 ->
    StronglySorted (fun u v => v <= u) l2 ->
    Permutation l1 l2 -> l1 = l2.
Proof.
  induction l1 as [|x l1 IH]; intros l2 H1 H2 Hp.
  - now apply Permutation_nil in Hp.
  - destruct l2 as [|y l2];
      [apply Permutation_sym, Permutation_nil in Hp; discriminate|].
    apply StronglySorted_inv in H1. destruct H1 as [H1 Hx].
    apply StronglySorted_inv in H2. destruct H2 as [H2 Hy].
    rewrite Forall_forall in Hx, Hy.
    assert (Hxy : x = y).
    { assert (Hin : In x (y :: l2))
        by (apply (Permutation_in _ Hp); now left).
      assert (Hin' : In y (x :: l1))
        by (apply (Permutation_in _ (Permutation_sym Hp)); now left).
      destruct Hin as [->|Hin]; [reflexivity|].
      destruct Hin' as [->|Hin']; [reflexivity|].
      apply Hy in Hin. apply Hx in Hin'. lia. }
    subst y. f_equal. apply IH; try assumption.
    now apply Permutation_cons_inv in Hp.
Qed.

Lemma desc_map_date (l : list DailyActivity) :
  StronglySorted (fun x y => date y <= date x) l ->
  StronglySorted (fun u v => v <= u) (map date l).
Proof.
  induction 1 as [|x l Hs IH Hx]; simpl; constructor; [exact IH|].
  apply Forall_map. exact Hx.
Qed.

(** The records taken most recent first: the dates come in one order
    only, whatever the order of records of the same date. *)
Lemma activities_desc_dates (table l : list DailyActivity) :
  Permutation l table ->
  StronglySorted (fun x y => date y <= date x) l ->
  map date (activities_desc table) = map date l.
Proof.
  intros Hp Hs. apply desc_unique.
  - apply desc_map_date, activities_desc_sorted.
  - now apply desc_map_date.
  - apply Permutation_map. rewrite activities_desc_perm. now symmetry.
Qed.

Lemma extend_streak_dates (l l' : list DailyActivity) :
  map date l = map date l' ->
  forall prev n, extend_streak prev l n = extend_streak prev l' n.
Proof.
  revert l'. induction l as [|a l IH]; intros [|a' l'] E prev n;
    try discriminate; [reflexivity|].
  simpl in E. injection E as Ea El.
  simpl. unfold day. rewrite Ea.
  destruct (prev - day_of (date a') =? 1); [|reflexivity].
  now apply IH.
Qed.

(** C3.  The streak is 0 without records.  On a ledger without a record
    dated after today, which is how the workflow keeps it, take the records
    most recent first: the streak is 0 when the most recent record is
    older than yesterday; otherwise it is 1 plus the number [k] of records
    that follow the most recent one while each is dated exactly one day
    before its predecessor.  Records of today, yesterday and the day
    before give 3; a single record of two days ago gives 0. *)
Theorem C3_calculate_streak :
  (forall utcnow : Time, calculate_streak [] utcnow = 0) /\
  (forall (table : list DailyActivity) (utcnow : Time)
          (a : DailyActivity) (rest : list DailyActivity),
      Forall (fun x => date x / 86400 <= utcnow / 86400) table ->
      Permutation (a :: rest) table ->
      StronglySorted (fun x y => date y <= date x) (a :: rest) ->
      let today := utcnow / 86400 in
      (date a / 86400 < today - 1 -> calculate_streak table utcnow = 0) /\
      (today - 1 <= date a / 86400 ->
       exists k : nat,
         calculate_streak table utcnow = 1 + Z.of_nat k /\
         (k <= List.length rest)%nat /\
         (forall i, (i < k)%nat ->
            date (nth i (a :: rest) a) / 86400
            - date (nth (S i) (a :: rest) a) / 86400 = 1) /\
         ((k < List.length rest)%nat ->
            date (nth k (a :: rest) a) / 86400
            - date (nth (S k) (a :: rest) a) / 86400 <> 1))) /\
  (forall (table : list DailyActivity) (utcnow : Time)
          (a0 a1 a2 : DailyActivity),
      Permutation table [a0; a1; a2] ->
      date a0 / 86400 = utcnow / 86400 ->
      date a1 / 86400 = utcnow / 86400 - 1 ->
      date a2 / 86400 = utcnow / 86400 - 2 ->
      calculate_streak table utcnow = 3) /\
  (forall (utcnow : Time) (a : DailyActivity),
      date a / 86400 = utcnow / 86400 - 2 -> calculate_streak [a] utcnow = 0).
Proof.
  split; [reflexivity|]. split; [|split].
  - intros table utcnow a rest Hnow Hp Hs today.
    pose proof (activities_desc_dates table (a :: rest) Hp Hs) as Hd.
    assert (Ha : date a / 86400 <= today).
    { rewrite Forall_forall in Hnow. apply Hnow.
      apply (Permutation_in _ Hp). now left. }
    unfold calculate_streak.
    destruct (activities_desc table) as [|a0 rest0]; [discriminate|].
    simpl in Hd. injection Hd as Ha0 Hrest.
    cbv zeta. unfold day. rewrite Ha0.
    rewrite (extend_streak_dates rest0 rest Hrest).
    change (day_of (date a)) with (date a / 86400).
    change (day_of utcnow) with today.
    split.
    + intros Hold.
      replace (date a / 86400 =? today) with false
        by (symmetry; apply Z.eqb_neq; lia).
      replace (date a / 86400 =? today - 1) with false
        by (symmetry; apply Z.eqb_neq; lia).
      reflexivity.
    + intros Hrecent.
      assert (Hb : (date a / 86400 =? today) || (date a / 86400 =? today - 1)
                   = true).
      { apply orb_true_iff. rewrite !Z.eqb_eq. lia. }
      rewrite Hb. exact (extend_streak_run rest a 1).
  - intros table utcnow a0 a1 a2 Hp H0 H1 H2.
    change (day a0 = day_of utcnow) in H0.
    change (day a1 = day_of utcnow - 1) in H1.
    change (day a2 = day_of utcnow - 2) in H2.
    assert (E : activities_desc table = [a0; a1; a2]).
    { apply (PyFacts.sorted_unique
               (fun a b => date b <= date a) (fun a b => date b < date a)).
      - intros a b Hs Hr. lia.
      - apply activities_desc_sorted.
      - assert (date a1 < date a0) by (apply day_lt_date; lia).
        assert (date a2 < date a1) by (apply day_lt_date; lia).
        repeat constructor; lia.
      - rewrite activities_desc_perm. exact Hp. }
    unfold calculate_streak. rewrite E. rewrite H0, Z.eqb_refl. simpl.
    rewrite <- H0.
    replace (day a0 - day a1 =? 1) with true by (symmetry; apply Z.eqb_eq; lia).
    replace (day a1 - day a2 =? 1) with true by (symmetry; apply Z.eqb_eq; lia).
    reflexivity.
  - intros utcnow a Ha. change (day a = day_of utcnow - 2) in Ha.
    unfold calculate_streak. simpl.
    replace (day a =? day_of utcnow) with false
      by (symmetry; apply Z.eqb_neq; lia).
    replace (day a =? day_of utcnow - 1) with false
      by (symmetry; apply Z.eqb_neq; lia).
    reflexivity.
Qed.

Lemma C3_calculate_streak_witness :
  let row (d : Z) := mkDailyActivity (d * 86400) 1 1 120 [] in
  let utcnow := 20 * 86400 + 4711 in
  calculate_streak [row 19; row 17; row 20; row 18; row 15] utcnow = 4 /\
  calculate_streak [row 16; row 18; row 17] utcnow = 0 /\
  calculate_streak [row 19; row 20; row 18] utcnow = 3 /\
  calculate_streak [row 18] utcnow = 0.
Proof.
  intros row utcnow.
  assert (Hle : forall x y : Z, (x <=? y) = true -> x <= y)
    by (intros x y; apply Z.leb_le).
  split; [|split; [|split]].
  - destruct (proj1 (proj2 C3_calculate_streak)
                [row 19; row 17; row 20; row 18; row 15] utcnow
                (row 20) [row 19; row 18; row 17; row 15])
      as [_ Hrun].
    + repeat constructor; apply Hle; reflexivity.
    + change (row 20 :: [row 19; row 18; row 17; row 15])
        with (activities_desc [row 19; row 17; row 20; row 18; row 15]).
      apply activities_desc_perm.
    + repeat constructor; apply Hle; reflexivity.
    + destruct Hrun as (k & Hk & Hlen & Hrun & Hstop);
        [apply Hle; reflexivity|].
      destruct k as [|[|[|[|k]]]].
      * exfalso. apply Hstop; [simpl; lia | reflexivity].
      * exfalso. apply Hstop; [simpl; lia | reflexivity].
      * exfalso. apply Hstop; [simpl; lia | reflexivity].
      * exact Hk.
      * exfalso. specialize (Hrun 3%nat ltac:(lia)). discriminate Hrun.
  - destruct (proj1 (proj2 C3_calculate_streak)
                [row 16; row 18; row 17] utcnow (row 18) [row 17; row 16])
      as [Hold _].
    + repeat constructor; apply Hle; reflexivity.
    + change (row 18 :: [row 17; row 16])
        with (activities_desc [row 16; row 18; row 17]).
      apply activities_desc_perm.
    + repeat constructor; apply Hle; reflexivity.
    + apply Hold. reflexivity.
  - apply (proj1 (proj2 (proj2 C3_calculate_streak))
             [row 19; row 20; row 18] utcnow (row 20) (row 19) (row 18));
      [|reflexivity|reflexivity|reflexivity].
    change [row 20; row 19; row 18]
      with (activities_desc [row 19; row 20; row 18]).
    symmetry. apply activities_desc_perm.
  - apply (proj2 (proj2 (proj2 C3_calculate_streak)) utcnow (row 18)).
    reflexivity.
Defined.

(** Why the ledger is taken without a record dated after today: such a
    record, which no run of the workflow writes, is not older than
    yesterday, and the streak would be 0 all the same. *)
Lemma future_record_streak_zero :
  calculate_streak [mkDailyActivity (10 * 86400) 1 1 120 []]
                   (9 * 86400 + 4711) = 0.
Proof. reflexivity. Qed.

(** *** Further properties of the analytics *)

Lemma extend_streak_shift (rest : list DailyActivity) :
  forall prev n,
    extend_streak prev rest (n + 1) = extend_streak prev rest n + 1.
Proof.
  induction rest as [|a rest IH]; intros prev n; cbn [extend_streak];
    [reflexivity|].
  cbv zeta. destruct (prev - day a =? 1); [apply IH | reflexivity].
Qed.

Lemma activities_desc_newest (table : list DailyActivity) (x : DailyActivity) :
  (forall a, In a table -> date a < date x) ->
  activities_desc (table ++ [x]) = x :: activities_desc table.
Proof.
  intros H. unfold activities_desc, Py.sorted. rewrite fold_right_app.
  cbn [fold_right Py.insert].
  induction table as [|a table IH]; [reflexivity|].
  cbn [fold_right]. rewrite IH by (intros b Hb; apply H; now right).
  cbn [Py.insert].
  assert (E : (date a <? date x) = true) by (apply Z.ltb_lt, H; now left).
  now rewrite E.
Qed.

(** X10.  The streak after a day's work.  When every recorded day lies before
    today, adding today's record makes the streak one more than it was:
    a run of days that ended yesterday is extended, and any other ledger,
    the empty one included, starts again at 1. *)
Theorem streak_grows_by_one
        (table : list DailyActivity) (utcnow : Time) (row : DailyActivity) :
  (forall a, In a table -> day a < day_of utcnow) ->
  day row = day_of utcnow ->
  calculate_streak (table ++ [row]) utcnow = calculate_streak table utcnow + 1.
Proof.
  intros Hold Hrow.
  assert (Hlt : forall a, In a table -> date a < date row).
  { intros a Ha. apply day_lt_date. rewrite Hrow. now apply Hold. }
  unfold calculate_streak. rewrite (activities_desc_newest table row Hlt).
  cbv zeta. rewrite Hrow, Z.eqb_refl. cbn [orb].
  destruct (activities_desc table) as [|a0 rest] eqn:E; [reflexivity|].
  assert (Hin : In a0 table).
  { apply (Permutation_in _ (activities_desc_perm table)).
    rewrite E. now left. }
  pose proof (Hold a0 Hin) as Ha0.
  cbn [extend_streak]. cbv zeta.
  destruct (day a0 =? day_of utcnow) eqn:E0; [apply Z.eqb_eq in E0; lia|].
  cbn [orb].
  destruct (day a0 =? day_of utcnow - 1) eqn:E1.
  - apply Z.eqb_eq in E1.
    replace (day_of utcnow - day a0) with 1 by lia. cbn [Z.eqb Pos.eqb].
    apply extend_streak_shift.
  - apply Z.eqb_neq in E1.
    destruct (day_of utcnow - day a0 =? 1) eqn:E2;
      [apply Z.eqb_eq in E2; lia | reflexivity].
Qed.

Lemma streak_grows_by_one_witness :
  let row (d : Z) := mkDailyActivity (d * 86400) 1 1 120 [] in
  calculate_streak ([row 18; row 19; row 15] ++ [row 20]) (20 * 86400 + 4711)
  = calculate_streak [row 18; row 19; row 15] (20 * 86400 + 4711) + 1.
Proof.
  intros row.
  apply (streak_grows_by_one [row 18; row 19; row 15] (20 * 86400 + 4711)
                             (row 20)).
  - intros a [<-|[<-|[<-|[]]]]; vm_compute; reflexivity.
  - reflexivity.
Defined.

Lemma StronglySorted_weaken {A : Type} (R S : A -> A -> Prop) (l : list A) :
  (forall a b, R a b -> S a b) -> StronglySorted R l -> StronglySorted S l.
Proof.
  intros HRS. induction 1 as [|x l Hs IH Hx]; constructor; [exact IH|].
  eapply Forall_impl; [|exact Hx]. intros y. apply HRS.
Qed.

Lemma StronglySorted_snoc {A : Type} (R : A -> A -> Prop) (l : list A) (x : A) :
  StronglySorted R l -> Forall (fun y => R y x) l ->
  StronglySorted R (l ++ [x]).
Proof.
  induction 1 as [|y l Hs IH Hy]; intros Hx; cbn [app].
  - repeat constructor.
  - apply Forall_cons_iff in Hx. destruct Hx as [Hyx Hx].
    constructor; [now apply IH|].
    apply Forall_app. split; [exact Hy | now constructor].
Qed.

Lemma StronglySorted_rev {A : Type} (R : A -> A -> Prop) (l : list A) :
  StronglySorted R l -> StronglySorted (fun a b => R b a) (rev l).
Proof.
  induction 1 as [|x l Hs IH Hx]; cbn [rev]; [constructor|].
  apply StronglySorted_snoc; [exact IH|].
  apply Forall_rev. exact Hx.
Qed.

Lemma desc_strict (l : list DailyActivity) :
  StronglySorted (fun a b => date b <= date a) l ->
  NoDup (map date l) ->
  StronglySorted (fun a b => date b < date a) l.
Proof.
  induction 1 as [|x l Hs IH Hx]; intros Hnd; [constructor|].
  cbn [map] in Hnd. apply NoDup_cons_iff in Hnd. destruct Hnd as [Hx' Hnd].
  constructor; [now apply IH|].
  rewrite Forall_forall in Hx |- *. intros y Hy.
  pose proof (Hx y Hy) as Hle.
  assert (date y <> date x).
  { intros Heq. apply Hx'. rewrite <- Heq. now apply in_map. }
  lia.
Qed.

Lemma filter_all {A : Type} (f : A -> bool) (l : list A) :
  (forall a, In a l -> f a = true) -> filter f l = l.
Proof.
  induction l as [|x l IH]; intros H; cbn [filter]; [reflexivity|].
  rewrite (H x (or_introl eq_refl)), IH; [reflexivity|].
  intros a Ha. apply H. now right.
Qed.

(** X11.  Activity history.  The history lists exactly the records dated from the
    cutoff [utcnow - days] on, oldest first; and when the dates of the
    ledger are distinct, as its unique constraint demands, and all lie in
    the window, the history is the listing used for the streak read
    backwards. *)
Theorem activity_history_window
        (table : list DailyActivity) (utcnow : Time) (days : Z) :
  let history := get_activity_history table utcnow days in
  StronglySorted (fun a b => date a <= date b) history /\
  (forall a, In a history <->
             In a table /\ utcnow - days * 86400 <= date a) /\
  (NoDup (map date table) ->
   (forall a, In a table -> utcnow - days * 86400 <= date a) ->
   history = rev (activities_desc table)).
Proof.
  intros history.
  set (lt := fun a b : DailyActivity => date a <? date b).
  assert (Hsorted : forall l, StronglySorted (fun a b => date a <= date b)
                                             (Py.sorted lt l)).
  { intros l.
    apply (StronglySorted_weaken (PyFacts.ok_before lt)).
    - unfold PyFacts.ok_before; subst lt; cbv beta.
      intros a b. now rewrite Z.ltb_ge.
    - apply PyFacts.sorted_sorted; subst lt; cbv beta; intros *.
      + rewrite Z.ltb_lt, Z.ltb_ge. lia.
      + rewrite !Z.ltb_ge. lia. }
  split; [apply Hsorted|]. split.
  - intros a. subst history. unfold get_activity_history. cbv zeta.
    split.
    + intros H. apply (Permutation_in _ (PyFacts.sorted_perm _ _)) in H.
      apply filter_In in H. now rewrite Z.leb_le in H.
    + intros H.
      apply (Permutation_in _ (Permutation_sym (PyFacts.sorted_perm _ _))).
      apply filter_In. now rewrite Z.leb_le.
  - intros Hnd Hall. subst history. unfold get_activity_history. cbv zeta.
    rewrite filter_all by (intros a Ha; apply Z.leb_le; now apply Hall).
    fold lt.
    apply (PyFacts.sorted_unique (fun a b => date a <= date b)
                                 (fun a b => date a < date b)).
    + intros a b H1 H2. lia.
    + apply Hsorted.
    + apply (StronglySorted_rev (fun a b => date b < date a)).
      apply desc_strict; [apply activities_desc_sorted|].
      apply (Permutation_NoDup
               (Permutation_map date
                  (Permutation_sym (activities_desc_perm table)))).
      exact Hnd.
    + rewrite (PyFacts.sorted_perm lt table).
      rewrite <- (Permutation_rev (activities_desc table)).
      symmetry. apply activities_desc_perm.
Qed.

Lemma activity_history_window_witness :
  let row (d : Z) := mkDailyActivity (d * 86400) 1 1 120 [] in
  get_activity_history [row 19; row 17; row 20] (20 * 86400 + 4711) 30
  = rev (activities_desc [row 19; row 17; row 20]).
Proof.
  intros row.
  apply (proj2 (proj2 (activity_history_window [row 19; row 17; row 20]
                                               (20 * 86400 + 4711) 30))).
  - cbn [map date row]. repeat constructor; simpl; intros H;
      repeat destruct H as [H|H]; try discriminate H; exact H.
  - intros a [<-|[<-|[<-|[]]]]; vm_compute; discriminate.
Defined.

(** The counting dictionary [c] holds the number of occurrences of each
    string of [l], under distinct keys. *)
Definition counts_ok (c : list (string * Z)) (l : list string) : Prop :=
  NoDup (map fst c) /\
  (forall x, SkillMapper.dict_get c x 0 = Z.of_nat (count_occ string_dec l x)) /\
  (forall k n, In (k, n) c -> In k l).

Lemma bump_get (t : string) (c : list (string * Z)) (x : string) :
  SkillMapper.dict_get (bump t c) x 0 =
  SkillMapper.dict_get c x 0 + (if String.eqb t x then 1 else 0).
Proof.
  induction c as [|[k n] c IH]; cbn [bump SkillMapper.dict_get].
  - destruct (String.eqb t x); reflexivity.
  - destruct (String.eqb k t) eqn:Ekt; cbn [SkillMapper.dict_get].
    + apply String.eqb_eq in Ekt. subst k.
      destruct (String.eqb t x); lia.
    + destruct (String.eqb k x) eqn:Ekx; [|exact IH].
      apply String.eqb_eq in Ekx. subst x.
      rewrite String.eqb_sym, Ekt. lia.
Qed.

Lemma bump_keys (t : string) (c : list (string * Z)) :
  forall k, In k (map fst (bump t c)) <-> k = t \/ In k (map fst c).
Proof.
  induction c as [|[k' n] c IH]; intros k; cbn [bump map fst In].
  - split; [intros [<-|[]]; now left | intros [->|[]]; now left].
  - destruct (String.eqb k' t) eqn:E; cbn [map fst In].
    + apply String.eqb_eq in E. subst k'. split; [tauto|].
      intros [->|H]; [now left | exact H].
    + rewrite IH. tauto.
Qed.

Lemma bump_nodup (t : string) (c : list (string * Z)) :
  NoDup (map fst c) -> NoDup (map fst (bump t c)).
Proof.
  induction c as [|[k n] c IH]; intros H; cbn [bump map fst].
  - repeat constructor. simpl. tauto.
  - cbn [map fst] in H. apply NoDup_cons_iff in H. destruct H as [Hk H].
    destruct (String.eqb k t) eqn:E; cbn [map fst].
    + now constructor.
    + constructor; [|now apply IH].
      rewrite bump_keys. intros [->|Hin]; [|contradiction].
      rewrite String.eqb_refl in E. discriminate.
Qed.

Lemma bump_counts (t : string) (c : list (string * Z)) (l : list string) :
  counts_ok c l -> counts_ok (bump t c) (l ++ [t]).
Proof.
  intros [Hnd [Hget Hkeys]]. split; [now apply bump_nodup|]. split.
  - intros x. rewrite bump_get, Hget, count_occ_app. cbn [count_occ].
    destruct (string_dec t x) as [->|Hne].
    + rewrite String.eqb_refl. lia.
    + apply String.eqb_neq in Hne. rewrite Hne. cbn [count_occ]. lia.
  - intros k n Hin. apply in_app_iff.
    assert (Hk : In k (map fst (bump t c)))
      by (apply in_map_iff; now exists (k, n)).
    apply bump_keys in Hk. destruct Hk as [->|Hk]; [right; now left|].
    left. apply in_map_iff in Hk. destruct Hk as [[k' n'] [Heq Hin']].
    cbn [fst] in Heq. subst k'. now apply (Hkeys k n').
Qed.

Lemma count_technologies_ok (projects : list Project) :
  counts_ok (count_technologies projects)
            (List.concat (map technologies projects)).
Proof.
  unfold count_technologies.
  assert (Hinner : forall ts c l,
             counts_ok c l ->
             counts_ok (fold_left (fun acc t => bump t acc) ts c) (l ++ ts)).
  { induction ts as [|t ts IH]; intros c l H; cbn [fold_left].
    - now rewrite app_nil_r.
    - replace (l ++ t :: ts) with ((l ++ [t]) ++ ts)
        by (now rewrite <- app_assoc).
      apply IH. now apply bump_counts. }
  assert (Houter : forall ps c l,
             counts_ok c l ->
             counts_ok
               (fold_left
                  (fun tech_counts p =>
                     fold_left (fun acc t => bump t acc) (technologies p)
                               tech_counts) ps c)
               (l ++ List.concat (map technologies ps))).
  { induction ps as [|p ps IH]; intros c l H; cbn [fold_left map List.concat].
    - now rewrite app_nil_r.
    - rewrite app_assoc. apply IH. now apply Hinner. }
  apply (Houter projects [] []).
  split; [constructor|]. split; [reflexivity|]. intros k n [].
Qed.

Lemma dict_get_in (c : list (string * Z)) (k : string) (n : Z) :
  NoDup (map fst c) -> In (k, n) c -> SkillMapper.dict_get c k 0 = n.
Proof.
  induction c as [|[k' n'] c IH]; intros Hnd Hin; [destruct Hin|].
  cbn [map fst] in Hnd. apply NoDup_cons_iff in Hnd. destruct Hnd as [Hk Hnd].
  cbn [SkillMapper.dict_get]. destruct Hin as [Heq|Hin].
  - inversion Heq. subst. now rewrite String.eqb_refl.
  - destruct (String.eqb k' k) eqn:E; [|now apply IH].
    apply String.eqb_eq in E. subst k'. exfalso. apply Hk.
    apply in_map_iff. now exists (k, n).
Qed.

Lemma dict_get_key (c : list (string * Z)) (k : string) :
  SkillMapper.dict_get c k 0 <> 0 ->
  In (k, SkillMapper.dict_get c k 0) c.
Proof.
  induction c as [|[k' n'] c IH]; cbn [SkillMapper.dict_get]; [congruence|].
  destruct (String.eqb k' k) eqn:E.
  - apply String.eqb_eq in E. subst k'. intros _. now left.
  - intros H. right. now apply IH.
Qed.

Lemma StronglySorted_app_inv {A : Type} (R : A -> A -> Prop) (l1 l2 : list A) :
  StronglySorted R (l1 ++ l2) ->
  forall a b, In a l1 -> In b l2 -> R a b.
Proof.
  induction l1 as [|x l1 IH]; intros H a b Ha Hb; [destruct Ha|].
  cbn [app] in H. apply StronglySorted_inv in H. destruct H as [Hs Hx].
  destruct Ha as [<-|Ha].
  - rewrite Forall_forall in Hx. apply Hx. apply in_app_iff. now right.
  - now apply (IH Hs).
Qed.

Lemma StronglySorted_firstn {A : Type} (R : A -> A -> Prop) (m : nat)
      (l : list A) :
  StronglySorted R l -> StronglySorted R (firstn m l).
Proof.
  revert l. induction m as [|m IH]; intros l H; [constructor|].
  destruct H as [|x l Hs Hx]; cbn [firstn]; [constructor|].
  constructor; [now apply IH|].
  rewrite Forall_forall in Hx |- *. intros y Hy. apply Hx.
  rewrite <- (firstn_skipn m l). apply in_app_iff. now left.
Qed.

Lemma NoDup_firstn {A : Type} (m : nat) (l : list A) :
  NoDup l -> NoDup (firstn m l).
Proof.
  intros H. rewrite <- (firstn_skipn m l) in H.
  now apply NoDup_app_remove_r in H.
Qed.

Lemma slice_to_firstn {A : Type} (l : list A) (n : Z) :
  exists m : nat, Py.slice_to l n = firstn m l /\
                  (0 <= n -> m = Z.to_nat n).
Proof.
  unfold Py.slice_to. destruct (n <? 0) eqn:E.
  - apply Z.ltb_lt in E. eexists. split; [reflexivity | lia].
  - eexists. split; [reflexivity | reflexivity].
Qed.

(** X12.  Top technologies.  The ranking lists no technology twice; the number
    beside a technology is the number of its occurrences in the technology
    lists of all projects, at least 1; the numbers do not increase along the
    ranking; a technology that is used but not listed occurs no more often
    than any listed one; and a limit that is not negative bounds the
    length. *)
Theorem top_technologies_spec (projects : list Project) (limit : Z) :
  let used := List.concat (map technologies projects) in
  let top := get_top_technologies projects limit in
  NoDup (map fst top) /\
  (forall t n, In (t, n) top ->
               n = Z.of_nat (count_occ string_dec used t) /\ 1 <= n) /\
  StronglySorted (fun a b => snd b <= snd a) top /\
  (forall t, In t used -> ~ In t (map fst top) ->
             forall kv, In kv top ->
                        Z.of_nat (count_occ string_dec used t) <= snd kv) /\
  (0 <= limit -> (List.length top <= Z.to_nat limit)%nat).
Proof.
  intros used top.
  destruct (count_technologies_ok projects) as [Hnd [Hget Hkeys]].
  fold used in Hget, Hkeys.
  set (c := count_technologies projects) in *.
  set (lt := fun a b : string * Z => snd b <? snd a).
  pose proof (PyFacts.sorted_perm lt c) as Hperm.
  assert (Hsorted : StronglySorted (fun a b => snd b <= snd a)
                                   (Py.sorted lt c)).
  { apply (StronglySorted_weaken (PyFacts.ok_before lt)).
    - unfold PyFacts.ok_before; subst lt; cbv beta.
      intros a b. now rewrite Z.ltb_ge.
    - apply PyFacts.sorted_sorted; subst lt; cbv beta; intros *.
      + rewrite Z.ltb_lt, Z.ltb_ge. lia.
      + rewrite !Z.ltb_ge. lia. }
  destruct (slice_to_firstn (Py.sorted lt c) limit) as [m [Hm Hlim]].
  assert (Htop : top = firstn m (Py.sorted lt c)) by exact Hm.
  clearbody top. subst top.
  assert (Hin : forall kv, In kv (firstn m (Py.sorted lt c)) -> In kv c).
  { intros kv H. apply (Permutation_in _ Hperm).
    rewrite <- (firstn_skipn m (Py.sorted lt c)). apply in_app_iff. now left. }
  assert (Hnd' : NoDup (map fst (Py.sorted lt c))).
  { apply (Permutation_NoDup (Permutation_map fst (Permutation_sym Hperm))).
    exact Hnd. }
  split; [|split; [|split; [|split]]].
  - rewrite <- firstn_map. now apply NoDup_firstn.
  - intros t n H. apply Hin in H.
    pose proof (dict_get_in c t n Hnd H) as Hn. rewrite Hget in Hn.
    split; [now symmetry|].
    apply Hkeys in H. apply (count_occ_In string_dec) in H. lia.
  - now apply StronglySorted_firstn.
  - intros t Ht Hnot kv Hkv.
    apply (count_occ_In string_dec) in Ht.
    assert (Hc : In (t, Z.of_nat (count_occ string_dec used t)) c).
    { rewrite <- Hget. apply dict_get_key. rewrite Hget. lia. }
    apply (Permutation_in _ (Permutation_sym Hperm)) in Hc.
    rewrite <- (firstn_skipn m (Py.sorted lt c)) in Hc, Hsorted.
    apply in_app_iff in Hc. destruct Hc as [Hc|Hc].
    + exfalso. apply Hnot. apply in_map_iff.
      now exists (t, Z.of_nat (count_occ string_dec used t)).
    + apply (StronglySorted_app_inv _ _ _ Hsorted kv _ Hkv Hc).
  - intros Hl. rewrite (Hlim Hl). apply firstn_le_length.
Qed.

Lemma top_technologies_spec_witness :
  let p (ts : list string) :=
    mkProject 1 "p" FULL_STACK BEGINNER ts COMPLETED 10 true 0 None in
  let projects := [p ["flask"; "redis"]; p []; p ["redis"; "docker"]] in
  (List.length (get_top_technologies projects 1) <= Z.to_nat 1)%nat /\
  get_top_technologies projects 1 = [("redis", 2)].
Proof.
  intros p projects. split; [|reflexivity].
  apply (proj2 (proj2 (proj2 (proj2 (top_technologies_spec projects 1))))).
  lia.
Defined.


Lemma sum_bounds (l : list Q) :
  (forall x, In x l -> (0 <= x <= 100)%Q) ->
  (0 <= Py.sum l <= 100 * inject_Z (Z.of_nat (List.length l)))%Q.
Proof.
  induction l as [|x l IH]; intros H.
  - change (Py.sum []) with 0%Q.
    change (inject_Z (Z.of_nat (List.length (@nil Q)))) with 0%Q. lra.
  - pose proof (H x (or_introl eq_refl)) as Hx.
    assert (IH' := IH (fun y Hy => H y (or_intror Hy))).
    change (Py.sum (x :: l)) with (x + Py.sum l)%Q.
    change (List.length (x :: l)) with (S (List.length l)).
    rewrite SkillMapperSpec.inject_Z_of_nat_S. lra.
Qed.

Lemma mean_bounds (l : list Q) :
  l <> [] ->
  (forall x, In x l -> (0 <= x <= 100)%Q) ->
  (0 <= Py.mean l <= 100)%Q.
Proof.
  intros Hne H. pose proof (sum_bounds l H) as [H0 H1].
  unfold Py.mean.
  assert (Hpos : (0 < inject_Z (Z.of_nat (List.length l)))%Q).
  { change 0%Q with (inject_Z 0). rewrite <- Zlt_Qlt.
    destruct l; [congruence | cbn [List.length]; lia]. }
  split.
  - apply Qle_shift_div_l; [exact Hpos | lra].
  - apply Qle_shift_div_r; [exact Hpos | lra].
Qed.

Lemma round1_bounds (x : Q) :
  (0 <= x <= 100)%Q ->
  (0 <= round1 x <= 100)%Q /\
  (x - (1#20) <= round1 x <= x + (1#20))%Q.
Proof.
  intros Hx. unfold round1. cbv zeta.
  set (y := (x * 10)%Q).
  pose proof (Qfloor_le y) as Hlo.
  pose proof (Qlt_floor y) as Hhi.
  rewrite inject_Z_plus in Hhi.
  set (n := Qfloor y) in *.
  assert (Hn0 : 0 <= n).
  { assert (H : (inject_Z 0 < inject_Z (n + 1))%Q).
    { rewrite inject_Z_plus. change (inject_Z 0) with 0%Q.
      change (inject_Z 1) with 1%Q in *. subst y. lra. }
    rewrite <- Zlt_Qlt in H. lia. }
  assert (Hn1 : n <= 1000).
  { assert (H : (inject_Z n <= inject_Z 1000)%Q).
    { change (inject_Z 1000) with 1000%Q. subst y. lra. }
    now rewrite <- Zle_Qle in H. }
  assert (Hup : (inject_Z n < y)%Q -> n + 1 <= 1000).
  { intros H.
    assert (H' : (inject_Z n < inject_Z 1000)%Q).
    { change (inject_Z 1000) with 1000%Q. subst y. lra. }
    rewrite <- Zlt_Qlt in H'. lia. }
  assert (Q0 : (0 <= inject_Z n)%Q).
  { change 0%Q with (inject_Z 0). now rewrite <- Zle_Qle. }
  assert (Q1 : (inject_Z n <= 1000)%Q).
  { change 1000%Q with (inject_Z 1000). now rewrite <- Zle_Qle. }
  assert (Qup : (inject_Z n < y)%Q -> (inject_Z (n + 1) <= 1000)%Q).
  { intros H. change 1000%Q with (inject_Z 1000). rewrite <- Zle_Qle.
    now apply Hup. }
  assert (Qs : (inject_Z (n + 1) == inject_Z n + 1)%Q)
    by (now rewrite inject_Z_plus).
  change (inject_Z 1) with 1%Q in Hhi.
  clearbody n. subst y.
  destruct (SkillMapper.Qltb (x * 10 - inject_Z n) (1#2)) eqn:E1.
  - apply SkillMapperSpec.Qltb_lt in E1.
    split; split; apply Qmult_le_r with (z := 10%Q); try lra;
      field_simplify; lra.
  - apply SkillMapperSpec.Qltb_ge in E1.
    assert (Hlt : (inject_Z n < x * 10)%Q) by lra.
    specialize (Qup Hlt).
    destruct (SkillMapper.Qltb (1#2) (x * 10 - inject_Z n)) eqn:E2.
    + apply SkillMapperSpec.Qltb_lt in E2.
      split; split; apply Qmult_le_r with (z := 10%Q); try lra;
        field_simplify; lra.
    + apply SkillMapperSpec.Qltb_ge in E2.
      destruct (Z.even n);
        split; split; apply Qmult_le_r with (z := 10%Q); try lra;
          field_simplify; lra.
Qed.

Lemma calculate_streak_nonneg (table : list DailyActivity) (utcnow : Time) :
  0 <= calculate_streak table utcnow.
Proof.
  unfold calculate_streak.
  destruct (activities_desc table) as [|a0 rest]; [lia|]. cbv zeta.
  destruct ((day a0 =? day_of utcnow) || (day a0 =? day_of utcnow - 1));
    [|lia].
  destruct (extend_streak_run rest a0 1) as [k [Hk _]]. rewrite Hk. lia.
Qed.

Lemma streak_score_range (streak : Z) :
  0 <= streak -> (0 <= streak_score streak <= 100)%Q.
Proof.
  intros H. unfold streak_score. cbv zeta.
  assert (H0 : (0 <= inject_Z streak)%Q)
    by (change 0%Q with (inject_Z 0); now rewrite <- Zle_Qle).
  destruct (SkillMapper.Qltb 100 (inject_Z streak * (333 # 100))) eqn:E.
  - lra.
  - apply SkillMapperSpec.Qltb_ge in E. lra.
Qed.

Lemma project_score_range (completed : Z) :
  0 <= completed -> 0 <= project_score completed <= 100.
Proof.
  intros H. unfold project_score.
  destruct (100 <? completed * 5) eqn:E; [lia|].
  apply Z.ltb_ge in E. lia.
Qed.

(** X13.  Portfolio score.  With every proficiency on the scale of 0 to 100 the
    score lies between 0 and 100, whatever the projects and the activity
    ledger; and without any tracked skill it is 0, however many projects
    are completed and however long the streak. *)
Theorem portfolio_score_bounds
        (skills : list Skill) (projects : list Project)
        (table : list DailyActivity) (utcnow : Time) :
  (forall s, In s skills -> (0 <= proficiency s <= 100)%Q) ->
  (0 <= calculate_portfolio_score skills projects table utcnow <= 100)%Q /\
  calculate_portfolio_score [] projects table utcnow = 0%Q.
Proof.
  intros Hs. split; [|reflexivity].
  unfold calculate_portfolio_score.
  destruct skills as [|s0 skills]; [lra|]. cbv zeta.
  apply round1_bounds.
  assert (Hm : (0 <= Py.mean (map proficiency (s0 :: skills)) <= 100)%Q).
  { apply mean_bounds; [discriminate|].
    intros x Hx. apply in_map_iff in Hx. destruct Hx as [s [<- Hin]].
    now apply Hs. }
  pose proof (streak_score_range _ (calculate_streak_nonneg table utcnow))
    as Hk.
  assert (Hp : 0 <= project_score
                      (Z.of_nat (List.length (filter is_completed projects)))
               <= 100) by (apply project_score_range; lia).
  assert (Hp' : (0 <= inject_Z (project_score
                   (Z.of_nat (List.length (filter is_completed projects))))
                 <= 100)%Q).
  { change 0%Q with (inject_Z 0). change 100%Q with (inject_Z 100).
    rewrite <- !Zle_Qle. exact Hp. }
  lra.
Qed.

Lemma portfolio_score_bounds_witness :
  let skills := [mkSkill "REST APIs" FULL_STACK 12 1 None 0;
                 mkSkill "Encryption" SECURITY_BLOCKCHAIN 30 3 None 0] in
  let projects :=
    [mkProject 1 "Url Shortener" FULL_STACK BEGINNER ["flask"] COMPLETED
               180 true 86400 (Some 90000)] in
  let table := [mkDailyActivity 86400 1 1 180 ["flask"]] in
  (0 <= calculate_portfolio_score skills projects table 90000%Z <= 100)%Q /\
  calculate_portfolio_score [] projects table 90000 = 0%Q.
Proof.
  intros skills projects table.
  apply (portfolio_score_bounds skills projects table 90000).
  intros s [<-|[<-|[]]]; cbn [proficiency]; lra.
Defined.

(** X14.  Caps of the score.  The project part is full, 100, exactly from 20
    completed projects on; the streak part is full exactly from a streak of
    31 days on: a streak of 30 days earns 99.9. *)
Theorem portfolio_score_caps :
  (forall completed : Z, project_score completed = 100 <-> 20 <= completed) /\
  (forall streak : Z, (streak_score streak == 100)%Q <-> 31 <= streak) /\
  (streak_score 30 == 999 # 10)%Q.
Proof.
  split; [|split].
  - intros completed. unfold project_score.
    destruct (100 <? completed * 5) eqn:E.
    + apply Z.ltb_lt in E. split; [lia | reflexivity].
    + apply Z.ltb_ge in E. lia.
  - intros streak. unfold streak_score. cbv zeta.
    destruct (SkillMapper.Qltb 100 (inject_Z streak * (333 # 100))) eqn:E.
    + apply SkillMapperSpec.Qltb_lt in E. split; [|reflexivity].
      intros _.
      assert (H : (inject_Z 30 < inject_Z streak)%Q)
        by (change (inject_Z 30) with 30%Q; lra).
      rewrite <- Zlt_Qlt in H. lia.
    + apply SkillMapperSpec.Qltb_ge in E.
      assert (H : (inject_Z streak < inject_Z 31)%Q)
        by (change (inject_Z 31) with 31%Q; lra).
      rewrite <- Zlt_Qlt in H. split; [|lia].
      intros Heq.
      assert (H' : (inject_Z 30 < inject_Z streak)%Q)
        by (change (inject_Z 30) with 30%Q; lra).
      rewrite <- Zlt_Qlt in H'. lia.
  - reflexivity.
Qed.


Lemma streak_positive (table : list DailyActivity) (utcnow : Time) :
  (exists a, In a table /\ day a = day_of utcnow) ->
  (forall a, In a table -> day a <= day_of utcnow) ->
  1 <= calculate_streak table utcnow.
Proof.
  intros [a [Hin Ha]] Hall. unfold calculate_streak.
  destruct (activities_desc table) as [|a0 rest] eqn:E.
  - apply (Permutation_in _ (Permutation_sym (activities_desc_perm table)))
      in Hin.
    rewrite E in Hin. destruct Hin.
  - cbv zeta.
    assert (Hin0 : In a0 table).
    { apply (Permutation_in _ (activities_desc_perm table)).
      rewrite E. now left. }
    pose proof (activities_desc_head table a0 rest E) as Hhead.
    rewrite Forall_forall in Hhead.
    pose proof (day_of_mono _ _ (Hhead a Hin)) as Hge.
    fold (day a) in Hge. fold (day a0) in Hge.
    pose proof (Hall a0 Hin0) as Hle.
    replace (day a0 =? day_of utcnow) with true
      by (symmetry; apply Z.eqb_eq; lia).
    cbn [orb].
    destruct (extend_streak_run rest a0 1) as [k [Hk _]]. rewrite Hk. lia.
Qed.

End AnalyticsSpec.

(** ** Novelty validation *)

Module ProjectPlannerSpec.
Import Database ProjectPlanner.

Lemma has_exact_title_true (projects : list Project) (brief : ProjectBrief) :
  has_exact_title projects brief = true <->
  exists p, In p projects /\ title p = brief_title brief.
Proof.
  unfold has_exact_title.
  destruct (find _ projects) as [p|] eqn:E.
  - apply find_some in E. destruct E as [Hin He]. apply String.eqb_eq in He.
    split; [intros _; now exists p | reflexivity].
  - split; [discriminate|]. intros [p [Hin He]].
    apply (find_none _ _ E) in Hin. apply String.eqb_neq in Hin. contradiction.
Qed.

Lemma lower_ascii_cases (c : ascii) :
  ((65 <= nat_of_ascii c <= 90)%nat /\
   Py.lower_ascii c = ascii_of_nat (nat_of_ascii c + 32)) \/
  (~ (65 <= nat_of_ascii c <= 90)%nat /\ Py.lower_ascii c = c).
Proof.
  unfold Py.lower_ascii. cbv zeta.
  destruct (Nat.leb_spec 65 (nat_of_ascii c));
    destruct (Nat.leb_spec (nat_of_ascii c) 90); simpl;
    [left | right | right | right]; split; try reflexivity; lia.
Qed.

(** Lowering two characters gives the same character exactly when they
    differ at most by their case. *)
Lemma lower_ascii_same_letter (c d : ascii) :
  Py.lower_ascii c = Py.lower_ascii d <-> Spec.same_letter c d.
Proof.
  pose proof (nat_ascii_bounded c) as Bc.
  pose proof (nat_ascii_bounded d) as Bd.
  unfold Spec.same_letter. split.
  - intros H.
    destruct (lower_ascii_cases c) as [[Uc Ec]|[Uc Ec]];
      destruct (lower_ascii_cases d) as [[Ud Ed]|[Ud Ed]];
      rewrite Ec, Ed in H.
    + left. apply (f_equal nat_of_ascii) in H.
      rewrite !nat_ascii_embedding in H by lia.
      rewrite <- (ascii_nat_embedding c), <- (ascii_nat_embedding d).
      f_equal. lia.
    + right. exists (nat_of_ascii c). split; [exact Uc|]. left.
      split; [reflexivity|]. rewrite <- H.
      apply nat_ascii_embedding. lia.
    + right. exists (nat_of_ascii d). split; [exact Ud|]. right.
      split; [reflexivity|]. rewrite H.
      apply nat_ascii_embedding. lia.
    + left. exact H.
  - intros [->|(n & Hn & [[Hc Hd]|[Hd Hc]])]; [reflexivity| |].
    + destruct (lower_ascii_cases c) as [[Uc Ec]|[Uc Ec]]; [|lia].
      destruct (lower_ascii_cases d) as [[Ud Ed]|[Ud Ed]]; [lia|].
      rewrite Ec, Ed, Hc, <- Hd. apply ascii_nat_embedding.
    + destruct (lower_ascii_cases d) as [[Ud Ed]|[Ud Ed]]; [|lia].
      destruct (lower_ascii_cases c) as [[Uc Ec]|[Uc Ec]]; [lia|].
      rewrite Ec, Ed, Hd, <- Hc. symmetry. apply ascii_nat_embedding.
Qed.

Lemma lower_equal_ignoring_case (s t : string) :
  Py.lower s = Py.lower t <-> Spec.equal_ignoring_case s t.
Proof.
  split.
  - revert t. induction s as [|c s IH]; intros [|d t] H; try discriminate.
    + constructor.
    + simpl in H. injection H as Hc Hs. constructor.
      * now apply lower_ascii_same_letter.
      * now apply IH.
  - induction 1 as [|c d s t Hcd Hst IH]; [reflexivity|].
    simpl. apply lower_ascii_same_letter in Hcd. now rewrite Hcd, IH.
Qed.

Lemma lower_app (s t : string) :
  Py.lower (s ++ t) = (Py.lower s ++ Py.lower t)%string.
Proof. induction s as [|c s IH]; simpl; [reflexivity | now rewrite IH]. Qed.

Lemma lower_app_inv (a : string) :
  forall t b : string,
    Py.lower t = (a ++ b)%string ->
    exists t1 t2 : string,
      t = (t1 ++ t2)%string /\ Py.lower t1 = a /\ Py.lower t2 = b.
Proof.
  induction a as [|c a IH]; intros t b H.
  - exists EmptyString, t. auto.
  - destruct t as [|d t]; [discriminate|].
    simpl in H. injection H as Hc Ht.
    destruct (IH t b Ht) as (t1 & t2 & -> & H1 & H2).
    exists (String d t1), t2. simpl. now rewrite Hc, H1.
Qed.

(** The test of the program, on the lowered titles, is the occurrence of
    one title in the other when case is ignored. *)
Lemma occurs_ignoring_case_lower (s t : string) :
  Spec.occurs_ignoring_case s t <-> is_substring (Py.lower s) (Py.lower t).
Proof.
  unfold Spec.occurs_ignoring_case, is_substring. split.
  - intros (pre & mid & post & -> & He).
    apply lower_equal_ignoring_case in He.
    exists (Py.lower pre), (Py.lower post).
    now rewrite !lower_app, He.
  - intros (pre & post & H).
    destruct (lower_app_inv _ _ _ H) as (t1 & t23 & -> & H1 & H23).
    destruct (lower_app_inv _ _ _ H23) as (t2 & t3 & -> & H2 & H3).
    exists t1, t2, t3. split; [reflexivity|].
    now apply lower_equal_ignoring_case.
Qed.

(** C4.  For ASCII titles, the validator answers [False] exactly when some
    project of the history has the same title, or some project created at
    or after [utcnow - 30 days] has a title that occurs in the candidate
    title when case is ignored, or in which the candidate title so occurs.
    With "Task Manager App" as the only project, "Task Manager" is rejected
    inside the window and accepted outside of it. *)
Theorem C4_validate_project_novelty :
  (forall (projects : list Project) (utcnow : Time) (brief : ProjectBrief),
      Py.isascii (brief_title brief) = true ->
      Forall (fun p => Py.isascii (title p) = true) projects ->
      (validate_project_novelty projects utcnow brief = false <->
       (exists p, In p projects /\ title p = brief_title brief) \/
       (exists p, In p projects /\
                  utcnow - 30 * 86400 <= created_at p /\
                  (Spec.occurs_ignoring_case (title p) (brief_title brief) \/
                   Spec.occurs_ignoring_case (brief_title brief) (title p))))) /\
  (forall (p : Project) (utcnow : Time) (brief : ProjectBrief),
      title p = "Task Manager App" ->
      brief_title brief = "Task Manager" ->
      (utcnow - 30 * 86400 <= created_at p ->
       validate_project_novelty [p] utcnow brief = false) /\
      (created_at p < utcnow - 30 * 86400 ->
       validate_project_novelty [p] utcnow brief = true)).
Proof.
  split.
  - intros projects utcnow brief _ _. unfold validate_project_novelty.
    destruct (has_exact_title projects brief) eqn:E.
    + apply has_exact_title_true in E. split; [intros _; now left | reflexivity].
    + rewrite negb_false_iff, existsb_exists. split.
      * intros [p [Hin Hc]]. right. exists p.
        apply filter_In in Hin. destruct Hin as [Hin Hw].
        apply Z.leb_le in Hw. unfold timedelta_days in Hw.
        split; [exact Hin|]. split; [lia|].
        apply orb_true_iff in Hc.
        rewrite !occurs_ignoring_case_lower. unfold is_substring.
        now rewrite <- !PyFacts.contains_app.
      * intros [[p [Hin Ht]] | [p (Hin & Hw & Hc)]].
        -- assert (has_exact_title projects brief = true)
             by (apply has_exact_title_true; now exists p).
           congruence.
        -- exists p. split.
           ++ apply filter_In. split; [exact Hin|].
              apply Z.leb_le. unfold timedelta_days. lia.
           ++ apply orb_true_iff.
              rewrite !occurs_ignoring_case_lower in Hc.
              unfold is_substring in Hc.
              now rewrite !PyFacts.contains_app.
  - intros p utcnow brief Hp Hb.
    unfold validate_project_novelty, has_exact_title, timedelta_days.
    cbn [find filter existsb]. rewrite Hp, Hb.
    change (("Task Manager App" =? "Task Manager")%string) with false.
    cbn iota. split; intros Hw.
    + replace (utcnow - 30 * 86400 <=? created_at p) with true
        by (symmetry; apply Z.leb_le; lia).
      cbn [existsb]. rewrite Hp. reflexivity.
    + replace (utcnow - 30 * 86400 <=? created_at p) with false
        by (symmetry; apply Z.leb_gt; lia).
      reflexivity.
Qed.

Ltac same_letter_tac :=
  match goal with
  | |- Spec.same_letter ?c ?d =>
      first
        [ left; reflexivity
        | let n := eval vm_compute in (nat_of_ascii c) in
          right; exists n; split; [lia | left; split; reflexivity]
        | let n := eval vm_compute in (nat_of_ascii d) in
          right; exists n; split; [lia | right; split; reflexivity] ]
  end.

Lemma C4_validate_project_novelty_witness :
  let app (t : Time) :=
    mkProject 1 "Task Manager App" FULL_STACK BEGINNER ["flask"] COMPLETED
              210 true t (Some (t + 3600)) in
  let brief := mkBrief "Task Manager" FULL_STACK BEGINNER [] [] in
  let shout := mkBrief "TASK manager" FULL_STACK BEGINNER [] [] in
  validate_project_novelty [app (70 * 86400)] (90 * 86400) shout = false /\
  validate_project_novelty [app (70 * 86400)] (90 * 86400) brief = false /\
  validate_project_novelty [app (50 * 86400)] (90 * 86400) brief = true.
Proof.
  intros app brief shout. split; [|split].
  - apply (proj1 C4_validate_project_novelty
                 [app (70 * 86400)] (90 * 86400) shout).
    + reflexivity.
    + repeat constructor.
    + right. exists (app (70 * 86400)).
      split; [now left|]. split; [simpl; lia|]. right.
      exists EmptyString, "Task Manager", " App".
      split; [reflexivity|].
      repeat (constructor; [same_letter_tac|]). constructor.
  - apply (proj1 (proj2 C4_validate_project_novelty
                    (app (70 * 86400)) (90 * 86400) brief eq_refl eq_refl)).
    simpl. lia.
  - apply (proj2 (proj2 C4_validate_project_novelty
                    (app (50 * 86400)) (90 * 86400) brief eq_refl eq_refl)).
    simpl. lia.
Defined.

(** *** Further properties of the novelty check *)

(** The similarity test of the loop over the recent projects. *)
Definition similar (brief : ProjectBrief) (proj : Project) : bool :=
  Py.contains (Py.lower (title proj)) (Py.lower (brief_title brief))
  || Py.contains (Py.lower (brief_title brief)) (Py.lower (title proj)).

Lemma novel_iff (projects : list Project) (utcnow : Time)
      (brief : ProjectBrief) :
  validate_project_novelty projects utcnow brief = true <->
  (forall p, In p projects -> title p <> brief_title brief) /\
  (forall p, In p projects -> utcnow - 30 * 86400 <= created_at p ->
             similar brief p = false).
Proof.
  unfold validate_project_novelty, timedelta_days.
  destruct (has_exact_title projects brief) eqn:E.
  - apply has_exact_title_true in E. destruct E as [p [Hin Ht]].
    split; [discriminate|]. intros [H _]. now apply H in Hin.
  - cbv zeta. rewrite negb_true_iff. split.
    + intros Hex. split.
      * intros p Hin Ht.
        assert (has_exact_title projects brief = true)
          by (apply has_exact_title_true; now exists p).
        congruence.
      * intros p Hin Hw.
        destruct (similar brief p) eqn:Es; [|reflexivity].
        assert (K : existsb
                      (fun proj =>
                         Py.contains (Py.lower (title proj))
                                     (Py.lower (brief_title brief))
                         || Py.contains (Py.lower (brief_title brief))
                                        (Py.lower (title proj)))
                      (filter (fun p => utcnow - 30 * 86400 <=? created_at p)
                              projects) = true).
        { apply existsb_exists. exists p. split; [|exact Es].
          apply filter_In. split; [exact Hin | now apply Z.leb_le]. }
        congruence.
    + intros [_ Hs].
      destruct (existsb _ _) eqn:Ex; [|reflexivity].
      apply existsb_exists in Ex. destruct Ex as [p [Hin Hc]].
      apply filter_In in Hin. destruct Hin as [Hin Hw].
      apply Z.leb_le in Hw. specialize (Hs p Hin Hw).
      unfold similar in Hs. congruence.
Qed.

(** Novelty against history and time.  Every title is novel for an empty
    history; a title that is novel for a history is novel for every part of
    it, so recording projects can only turn an acceptance into a rejection;
    and a title that is novel at some time stays novel later, as long as
    the history is the same, since the window of 30 days only loses
    projects. *)
Theorem novelty_monotone :
  (forall (utcnow : Time) (brief : ProjectBrief),
      validate_project_novelty [] utcnow brief = true) /\
  (forall (projects projects' : list Project) (utcnow : Time)
          (brief : ProjectBrief),
      incl projects projects' ->
      validate_project_novelty projects' utcnow brief = true ->
      validate_project_novelty projects utcnow brief = true) /\
  (forall (projects : list Project) (utcnow utcnow' : Time)
          (brief : ProjectBrief),
      utcnow <= utcnow' ->
      validate_project_novelty projects utcnow brief = true ->
      validate_project_novelty projects utcnow' brief = true).
Proof.
  split; [|split].
  - reflexivity.
  - intros projects projects' utcnow brief Hincl H.
    apply novel_iff in H. destruct H as [H1 H2]. apply novel_iff.
    split; intros p Hp; [apply H1 | apply H2]; now apply Hincl.
  - intros projects utcnow utcnow' brief Ht H.
    apply novel_iff in H. destruct H as [H1 H2]. apply novel_iff.
    split; [exact H1|]. intros p Hp Hw. apply H2; [exact Hp | lia].
Qed.

Lemma novelty_monotone_witness :
  let app (t : Time) :=
    mkProject 1 "Task Manager App" FULL_STACK BEGINNER ["flask"] COMPLETED
              210 true t (Some (t + 3600)) in
  let brief := mkBrief "Task Manager" FULL_STACK BEGINNER [] [] in
  validate_project_novelty [app (50 * 86400)] (95 * 86400) brief = true.
Proof.
  intros app brief.
  apply (proj2 (proj2 novelty_monotone) [app (50 * 86400)]
               (90 * 86400) (95 * 86400) brief).
  - lia.
  - reflexivity.
Defined.

(** X15.  Empty titles.  The empty string occurs in every string, so a project of
    the last 30 days whose title is empty makes every candidate fail the
    check, and a candidate with an empty title fails it as soon as the
    window holds any project. *)
Theorem empty_title_is_never_novel
        (projects : list Project) (utcnow : Time) (brief : ProjectBrief)
        (p : Project) :
  In p projects ->
  utcnow - 30 * 86400 <= created_at p ->
  title p = "" \/ brief_title brief = "" ->
  validate_project_novelty projects utcnow brief = false.
Proof.
  intros Hin Hw He.
  destruct (validate_project_novelty projects utcnow brief) eqn:E;
    [|reflexivity].
  apply novel_iff in E. destruct E as [_ Hs].
  specialize (Hs p Hin Hw). unfold similar in Hs.
  apply orb_false_iff in Hs. destruct Hs as [S1 S2].
  assert (Hempty : forall s, Py.contains "" s = true)
    by (intros s; now destruct s).
  destruct He as [He|He]; rewrite He in *; cbn [Py.lower] in *;
    rewrite Hempty in *; discriminate.
Qed.

Lemma empty_title_is_never_novel_witness :
  let p := mkProject 1 "Url Shortener" FULL_STACK BEGINNER ["flask"] COMPLETED
                     180 true (80 * 86400) None in
  validate_project_novelty [p] (90 * 86400)
                           (mkBrief "" FULL_STACK BEGINNER [] []) = false.
Proof.
  intros p.
  apply (empty_title_is_never_novel [p] (90 * 86400)
           (mkBrief "" FULL_STACK BEGINNER [] []) p).
  - now left.
  - simpl. lia.
  - right. reflexivity.
Defined.

End ProjectPlannerSpec.

(** ** Workflow engine *)

Module WorkflowEngineSpec.
Import Database ProjectPlanner WorkflowEngine.
Local Open Scope wf_scope.

(** *** Rules for [wp] *)

Section Rules.
Context {A B : Type}.

Lemma wp_ret (a : A) Q E s : Q a s -> wp (ret a) Q E s.
Proof. exact (fun H => H). Qed.

Lemma wp_raise (Q : A -> St -> Prop) E s : E s -> wp raise Q E s.
Proof. exact (fun H => H). Qed.

Lemma wp_bind (m : M A) (f : A -> M B) Q E s :
  wp m (fun a s' => wp (f a) Q E s') E s -> wp (bind m f) Q E s.
Proof. unfold wp, bind. now destruct (m s). Qed.

Lemma wp_conseq (m : M A) (Q Q' : A -> St -> Prop) (E E' : St -> Prop) s :
  wp m Q E s ->
  (forall a s', Q a s' -> Q' a s') -> (forall s', E s' -> E' s') ->
  wp m Q' E' s.
Proof. unfold wp. destruct (m s); auto. Qed.

Lemma wp_call (o : Outcome A) Q E s :
  match o with Returns a => Q a s | Raises => E s end -> wp (call o) Q E s.
Proof. now destruct o. Qed.
End Rules.

Lemma wp_get_db (Q : DB -> St -> Prop) E s :
  Q (pending (session s)) s -> wp get_db Q E s.
Proof. exact (fun H => H). Qed.

Lemma wp_modify_db (f : DB -> DB) (Q : unit -> St -> Prop) E s :
  Q tt (mkSt (mkSession (persisted (session s)) (f (pending (session s))))
             (reads s) (ncommits s) (log s)) ->
  wp (modify_db f) Q E s.
Proof. exact (fun H => H). Qed.

Lemma wp_for_each {A} (I : St -> Prop) (l : list A) (f : A -> M unit)
      (E : St -> Prop) :
  (forall x s, In x l -> I s -> wp (f x) (fun _ s' => I s') E s) ->
  forall s, I s -> wp (for_each l f) (fun _ s' => I s') E s.
Proof.
  induction l as [|x l IH]; intros Hf s Hs; simpl.
  - exact Hs.
  - apply wp_bind. eapply wp_conseq.
    + apply Hf; [now left | exact Hs].
    + intros u s' Hs'. apply IH; [|exact Hs'].
      intros y s0 Hy. apply Hf. now right.
    + auto.
Qed.

(** *** Computations that leave the projects and the log alone *)

Lemma calm_step_refl s : calm_step s s.
Proof. unfold calm_step. auto. Qed.

Lemma calm_step_trans s1 s2 s3 :
  calm_step s1 s2 -> calm_step s2 s3 -> calm_step s1 s3.
Proof.
  unfold calm_step. intros (H1 & H2 & H3) (K1 & K2 & K3).
  repeat split; try congruence.
  destruct K3 as [K3 | K3], H3 as [H3 | H3]; rewrite K3;
    auto; right; congruence.
Qed.

Lemma calm_ret {A} (a : A) : calm (ret a).
Proof. intros s. apply calm_step_refl. Qed.

Lemma calm_raise {A} : calm (@raise A).
Proof. intros s. apply calm_step_refl. Qed.

Lemma calm_bind {A B} (m : M A) (f : A -> M B) :
  calm m -> (forall a, calm (f a)) -> calm (bind m f).
Proof.
  intros Hm Hf s. apply wp_bind.
  eapply wp_conseq; [apply Hm | | intros s' Hs'; exact Hs'].
  intros a s' Hs'.
  eapply wp_conseq; [apply (Hf a s') | intros b s2 H2 | intros s2 H2];
    simpl in *; eapply calm_step_trans; eauto.
Qed.

Lemma calm_call {A} (o : Outcome A) : calm (call o).
Proof. intros s. apply wp_call. destruct o; apply calm_step_refl. Qed.

Lemma calm_get_db : calm get_db.
Proof. intros s. apply calm_step_refl. Qed.

Lemma calm_now env : calm (now env).
Proof. intros s. unfold wp, now, calm_step. simpl. auto. Qed.

Lemma calm_commit env : calm (commit env).
Proof.
  intros s. unfold wp, commit, calm_step.
  destruct (commit_raises env (ncommits s)); simpl; auto.
Qed.

Lemma calm_modify_db (f : DB -> DB) :
  (forall d, projects (f d) = projects d) -> calm (modify_db f).
Proof. intros Hf s. unfold wp, modify_db, calm_step. simpl. auto. Qed.

Lemma calm_for_each {A} (l : list A) (f : A -> M unit) :
  (forall x, calm (f x)) -> calm (for_each l f).
Proof.
  intros Hf. induction l as [|x l IH]; simpl.
  - apply calm_ret.
  - apply calm_bind; [apply Hf | intros _; exact IH].
Qed.

Ltac calm_tac :=
  repeat first
    [ apply calm_ret | apply calm_raise | apply calm_call | apply calm_get_db
    | apply calm_now | apply calm_commit
    | apply calm_modify_db; intros ?; reflexivity
    | apply calm_bind; [|intros ?]
    | apply calm_for_each; intros ?
    | match goal with
      | |- calm (match ?x with _ => _ end) => destruct x
      end ].

Lemma calm_generate_project_idea env : calm (generate_project_idea env).
Proof. unfold generate_project_idea. calm_tac. Qed.

Lemma calm_check_novelty env brief : calm (check_novelty env brief).
Proof. unfold check_novelty. calm_tac. Qed.

Lemma calm_update_skills env brief : calm (_update_skills env brief).
Proof. unfold _update_skills. calm_tac. Qed.

Lemma calm_unlock_achievement env i : calm (_unlock_achievement env i).
Proof. unfold _unlock_achievement. calm_tac. Qed.

Lemma calm_check_achievements env : calm (_check_achievements env).
Proof.
  unfold _check_achievements. calm_tac; apply calm_unlock_achievement.
Qed.

Lemma calm_log_daily_activity env id : calm (_log_daily_activity env id).
Proof. unfold _log_daily_activity. calm_tac. Qed.

Lemma calm_remote_operations env : calm (remote_operations env).
Proof. unfold remote_operations. calm_tac. Qed.

(** *** The projects table along a run *)

Lemma next_project_id_fresh (ps : list Project) (q : Project) :
  In q ps -> project_id q < next_project_id ps.
Proof.
  unfold next_project_id. induction ps as [|p ps IH]; cbn [fold_right In];
    [tauto|].
  intros [->|Hin]; [lia|]. specialize (IH Hin). lia.
Qed.

Lemma update_first_fresh (ps : list Project) (p : Project)
      (f : Project -> Project) :
  project_id p = next_project_id ps ->
  update_first (has_id (next_project_id ps)) f (ps ++ [p]) = ps ++ [f p].
Proof.
  intros Hp.
  assert (H : forall l, (forall q, In q l -> project_id q < next_project_id ps) ->
              update_first (has_id (next_project_id ps)) f (l ++ [p]) = l ++ [f p]).
  { induction l as [|q l IH]; intros Hl; simpl.
    - unfold has_id. rewrite Hp, Z.eqb_refl. reflexivity.
    - unfold has_id at 1.
      replace (project_id q =? next_project_id ps) with false
        by (symmetry; apply Z.eqb_neq; specialize (Hl q (or_introl eq_refl)); lia).
      f_equal. apply IH. intros q' Hq'. apply Hl. now right. }
  apply H. intros q. apply next_project_id_fresh.
Qed.

Section Body.
Variable env : Env.
Variable ps0 : list Project.
Let id0 : Z := next_project_id ps0.

Variable E : St -> Prop.

Lemma inv_enter k a b lg s (Q : unit -> St -> Prop) :
  Inv ps0 id0 a b lg s ->
  (forall s', Inv ps0 id0 a b (k :: lg) s' -> Q tt s') ->
  wp (enter k) Q E s.
Proof.
  intros (Ha & Hb & Hl) HQ. unfold wp, enter. apply HQ.
  unfold Inv. simpl. now rewrite Hl.
Qed.

Lemma inv_now a b lg s (Q : Time -> St -> Prop) :
  Inv ps0 id0 a b lg s ->
  (forall t s', Inv ps0 id0 a b lg s' -> Q t s') ->
  wp (now env) Q E s.
Proof. intros H HQ. unfold wp, now. apply HQ. exact H. Qed.

Lemma inv_commit a b lg s (Q : unit -> St -> Prop) :
  Inv ps0 id0 a b lg s ->
  (forall s', Inv ps0 id0 a a lg s' -> Q tt s') ->
  (forall s', Inv ps0 id0 a b lg s' -> E s') ->
  wp (commit env) Q E s.
Proof.
  intros (Ha & Hb & Hl) HQ HE. unfold wp, commit.
  destruct (commit_raises env (ncommits s)).
  - apply HE. unfold Inv. simpl. auto.
  - apply HQ. unfold Inv. simpl. auto.
Qed.

Lemma inv_calm {A} (m : M A) a lg s (Q : A -> St -> Prop) :
  calm m ->
  Inv ps0 id0 a a lg s ->
  (forall x s', Inv ps0 id0 a a lg s' -> Q x s') ->
  (forall s', Inv ps0 id0 a a lg s' -> E s') ->
  wp m Q E s.
Proof.
  intros Hm (Ha & Hb & Hl) HQ HE.
  assert (K : forall s', calm_step s s' -> Inv ps0 id0 a a lg s').
  { intros s' (K1 & K2 & K3). unfold Inv. rewrite K1, K2.
    repeat split; try assumption.
    destruct K3 as [K3 | K3]; now rewrite K3. }
  eapply wp_conseq; [apply (Hm s) | |]; simpl; auto.
Qed.

Lemma inv_update (f : Project -> Project) a a' b lg s
      (Q : unit -> St -> Prop) :
  (forall p, project_id (f p) = project_id p) ->
  (forall p, status p = a -> status (f p) = a') ->
  Inv ps0 id0 (Some a) b lg s ->
  (forall s', Inv ps0 id0 (Some a') b lg s' -> Q tt s') ->
  wp (update_project id0 f) Q E s.
Proof.
  intros Hid Hst ((p & Hp & Hpid & Hps) & Hb & Hl) HQ.
  unfold wp, update_project, modify_db. apply HQ.
  unfold Inv. simpl. repeat split; try assumption.
  exists (f p). rewrite Hp. subst id0.
  rewrite update_first_fresh by exact Hpid.
  rewrite Hid. auto.
Qed.

(** [create_project_record] appends the project in status [planned]
    and returns its key. *)
Lemma inv_create_project_record brief lg s (Q : Z -> St -> Prop) :
  Inv ps0 id0 None None lg s ->
  (forall s', Inv ps0 id0 (Some PLANNED) (Some PLANNED) lg s' -> Q id0 s') ->
  (forall s', Inv ps0 id0 (Some PLANNED) None lg s' -> E s') ->
  (forall s', Inv ps0 id0 (Some PLANNED) (Some PLANNED) lg s' -> E s') ->
  wp (create_project_record env brief) Q E s.
Proof.
  intros H HQ HE1 HE2. unfold create_project_record.
  apply wp_bind. apply inv_now with (1 := H). intros t s1 H1.
  apply wp_bind. apply wp_get_db.
  destruct H1 as (Ha & Hb & Hl). simpl in Ha. rewrite Ha. fold id0.
  apply wp_bind. apply wp_modify_db.
  set (s2 := mkSt _ _ _ _).
  assert (H2 : Inv ps0 id0 (Some PLANNED) None lg s2).
  { unfold Inv, s2. simpl. repeat split; try assumption.
    rewrite Ha. eexists. split; [reflexivity|]. now split. }
  clearbody s2.
  apply wp_bind. apply inv_commit with (1 := H2); [|exact HE1].
  intros s3 H3.
  apply wp_bind. apply inv_calm with (2 := H3); [calm_tac | |exact HE2].
  intros u s4 H4.
  apply wp_bind. apply inv_commit with (1 := H4); [|exact HE2].
  intros s5 H5. apply wp_ret. now apply HQ.
Qed.

End Body.

Lemma fail_intro ps0 id0 (k : nat) a b s :
  (1 <= k <= 11)%nat -> left_behind k b ->
  Inv ps0 id0 a b (steps_upto k) s -> failed_at ps0 id0 s.
Proof.
  intros Hk Hb (_ & Hp & Hl). exists k, b. auto.
Qed.

Ltac fail_at k :=
  let s' := fresh "s" in
  let H' := fresh "H" in
  intros s' H';
  apply (fail_intro _ _ k) with (3 := H');
  [ lia | unfold left_behind; repeat split; intros; auto; lia ].

(** One step of symbolic execution under the invariant [H]. *)
Ltac go H k :=
  lazymatch goal with
  | |- wp (bind (enter _) _) _ _ _ =>
      apply wp_bind; apply inv_enter with (1 := H); clear H; intros ? H
  | |- wp (bind (commit _) _) _ _ _ =>
      apply wp_bind; apply inv_commit with (1 := H);
      [clear H; intros ? H | fail_at k]
  | |- wp (bind (now _) _) _ _ _ =>
      apply wp_bind; apply inv_now with (1 := H); clear H; intros ? ? H
  | |- wp (bind _ _) _ _ _ =>
      apply wp_bind; apply inv_calm with (2 := H);
      [ | clear H; intros ? ? H | fail_at k]
  end.

(** The [try] body: it returns the key of the new project, now committed
    as [completed], or it raises in a state described by [failed_at]. *)
Lemma workflow_body_spec env ps0 s0 :
  Inv ps0 (next_project_id ps0) None None [] s0 ->
  wp (workflow_body env)
     (fun id s' =>
        id = next_project_id ps0 /\
        Inv ps0 (next_project_id ps0) (Some COMPLETED) (Some COMPLETED)
            (steps_upto 11) s')
     (failed_at ps0 (next_project_id ps0)) s0.
Proof.
  intros H. unfold workflow_body.
  go H 1%nat. go H 1%nat; [apply calm_generate_project_idea|].
  go H 2%nat. go H 2%nat; [apply calm_check_novelty|].
  go H 3%nat.
  apply wp_bind.
  apply inv_create_project_record with (1 := H); [| fail_at 3%nat | fail_at 3%nat].
  clear H; intros ? H.
  apply wp_bind.
  apply inv_update with (a' := IN_PROGRESS) (3 := H); [reflexivity | reflexivity |].
  clear H; intros ? H.
  go H 3%nat.
  go H 4%nat. go H 4%nat; [apply calm_call|].
  apply wp_bind.
  apply inv_update with (a' := IN_PROGRESS) (3 := H);
    [reflexivity | intros p Hp; exact Hp |].
  clear H; intros ? H.
  go H 4%nat.
  go H 5%nat. go H 5%nat; [apply calm_call|].
  apply wp_bind.
  apply inv_update with (a' := IN_PROGRESS) (3 := H);
    [reflexivity | intros p Hp; exact Hp |].
  clear H; intros ? H.
  go H 6%nat. go H 6%nat; [apply calm_call|].
  go H 7%nat. go H 7%nat; [apply calm_call|].
  go H 7%nat; [apply calm_get_db|].
  go H 7%nat; [calm_tac|].
  go H 7%nat.
  go H 7%nat; [apply calm_remote_operations|].
  go H 8%nat. go H 8%nat; [apply calm_update_skills|].
  go H 9%nat.
  apply wp_bind.
  apply inv_update with (a' := COMPLETED) (3 := H); [reflexivity | reflexivity |].
  clear H; intros ? H.
  go H 9%nat.
  apply wp_bind.
  apply inv_update with (a' := COMPLETED) (3 := H);
    [reflexivity | intros p Hp; exact Hp |].
  clear H; intros ? H.
  go H 9%nat.
  go H 10%nat. go H 10%nat; [apply calm_log_daily_activity|].
  go H 11%nat. go H 11%nat; [apply calm_check_achievements|].
  apply wp_ret. split; [reflexivity | exact H].
Qed.

(** A run that fails while logging the daily activity returns [None] with
    its project committed as [completed], not [in_progress]. *)
Lemma C7_late_failure_counterexample :
  ~ (forall (env : Env) (d : DB) (s' : St),
        workflow_body env (fresh d) = Raised s' ->
        In 4%nat (log s') ->
        forall p, In p (projects (persisted (session (close s')))) ->
                  project_id p = next_project_id (projects d) ->
                  status p = IN_PROGRESS).
Proof.
  intros H.
  pose (s' := final_state (workflow_body late_failing_env (fresh sample_db))).
  assert (Hr : workflow_body late_failing_env (fresh sample_db) = Raised s')
    by (vm_compute; reflexivity).
  assert (Hlog : In 4%nat (log s')) by (vm_compute; tauto).
  pose (p := mkProject 2 "Task Manager" FULL_STACK BEGINNER ["flask"] COMPLETED
                       240 true 200001 (Some 200006)).
  assert (Hp : In p (projects (persisted (session (close s')))))
    by (vm_compute; tauto).
  specialize (H late_failing_env sample_db s' Hr Hlog p Hp eq_refl).
  discriminate H.
Qed.

Lemma fresh_inv (d : DB) :
  Inv (projects d) (next_project_id (projects d)) None None [] (fresh d).
Proof. unfold Inv, fresh. simpl. auto. Qed.

Lemma steps_upto_length (k : nat) : List.length (steps_upto k) = k.
Proof. unfold steps_upto. now rewrite length_rev, length_seq. Qed.

(** C7 (as amended).  When the [try] body raises, [run_daily_workflow]
    returns [None] and closes the session, which drops what was not
    committed; the steps entered are [1 .. k] for the failing step [k] and no
    later one; the committed projects are those of before, followed from
    step 3 on by the project of the run, which stays committed as
    [in_progress] for a failure in steps 4 to 9 and as [completed] for a
    failure in steps 10 or 11; no project is newly [failed]. *)
Theorem C7_workflow_failure (env : Env) (d : DB) (s' : St) :
  workflow_body env (fresh d) = Raised s' ->
  run_daily_workflow env (fresh d) = (None, close s') /\
  pending (session (close s')) = persisted (session s') /\
  exists k : nat,
    (1 <= k <= 11)%nat /\
    log (close s') = steps_upto k /\
    let ps' := projects (persisted (session (close s'))) in
    (forall p, In p ps' -> status p = FAILED -> In p (projects d)) /\
    ((k <= 2)%nat -> ps' = projects d) /\
    ((4 <= k <= 9)%nat ->
     exists p, ps' = projects d ++ [p] /\
               project_id p = next_project_id (projects d) /\
               status p = IN_PROGRESS) /\
    ((10 <= k)%nat ->
     exists p, ps' = projects d ++ [p] /\
               project_id p = next_project_id (projects d) /\
               status p = COMPLETED).
Proof.
  intros Hr. split; [unfold run_daily_workflow; now rewrite Hr|].
  split; [reflexivity|].
  pose proof (workflow_body_spec env (projects d) (fresh d) (fresh_inv d)) as H.
  unfold wp in H. rewrite Hr in H.
  destruct H as (k & b & Hk & Hl & Hp & Hb1 & Hb3 & Hb4 & Hb10).
  exists k. split; [exact Hk|]. split; [exact Hl|]. simpl.
  split; [|split; [|split]].
  - intros p Hin Hst.
    destruct b as [st|]; [|simpl in Hp; now rewrite Hp in Hin].
    destruct Hp as (q & Hq & _ & Hqs). rewrite Hq in Hin.
    apply in_app_or in Hin. destruct Hin as [Hin | [<- | []]]; [exact Hin|].
    exfalso.
    destruct (le_lt_dec k 2) as [K|K]; [specialize (Hb1 K); discriminate|].
    destruct (Nat.eq_dec k 3) as [K3|K3].
    { destruct (Hb3 K3) as [K'|K']; [discriminate | congruence]. }
    destruct (le_lt_dec k 9) as [K9|K9].
    { assert (Hs : Some st = Some IN_PROGRESS) by (apply Hb4; lia). congruence. }
    assert (Hs : Some st = Some COMPLETED) by (apply Hb10; lia). congruence.
  - intros K. rewrite (Hb1 K) in Hp. exact Hp.
  - intros K. rewrite (Hb4 K) in Hp. exact Hp.
  - intros K. rewrite (Hb10 K) in Hp. exact Hp.
Qed.

Lemma C7_workflow_failure_witness :
  let s' := final_state (workflow_body failing_env (fresh sample_db)) in
  run_daily_workflow failing_env (fresh sample_db) = (None, close s') /\
  exists p,
    projects (persisted (session (close s'))) = projects sample_db ++ [p] /\
    project_id p = 2 /\ status p = IN_PROGRESS.
Proof.
  intros s'.
  assert (Hr : workflow_body failing_env (fresh sample_db) = Raised s')
    by (vm_compute; reflexivity).
  destruct (C7_workflow_failure failing_env sample_db s' Hr)
    as (Hnone & _ & k & Hk & Hl & _ & _ & Hip & _).
  split; [exact Hnone|].
  assert (Hk5 : k = 5%nat).
  { rewrite <- (steps_upto_length k), <- Hl. reflexivity. }
  apply Hip. lia.
Defined.

(** *** Achievements along a run *)

Lemma touched_refl (a : Achievement) : touched a a.
Proof. now left. Qed.

Lemma touched_type (a a' : Achievement) :
  touched a a' -> criteria_type a' = criteria_type a.
Proof. intros [->|[[t ->] _]]; reflexivity. Qed.

Lemma touched_unlock (a c : Achievement) (t : Time) :
  touched a c ->
  criteria_type a = "project_count" \/ criteria_type a = "skill_level" ->
  touched a (unlocked t c).
Proof.
  intros [->|[[t' ->] _]] Hty; right; (split; [now exists t | exact Hty]).
Qed.

Lemma Forall2_refl {A} (R : A -> A -> Prop) (l : list A) :
  (forall a, R a a) -> Forall2 R l l.
Proof. intros HR. induction l; constructor; auto. Qed.

Lemma Forall2_update_nth {A} (R : A -> A -> Prop) (f : A -> A) :
  forall (i : nat) (l cur : list A),
    Forall2 R l cur ->
    (forall a c, nth_error l i = Some a -> nth_error cur i = Some c -> R a (f c)) ->
    Forall2 R l (update_nth i f cur).
Proof.
  intros i l cur H. revert i.
  induction H as [|a c l cur Hac H IH]; intros i Hf.
  - destruct i; constructor.
  - destruct i as [|i]; simpl.
    + constructor; [now apply Hf | exact H].
    + constructor; [exact Hac | apply IH; intros; now apply Hf].
Qed.

Lemma positions_nth {A} (p : A -> bool) (l : list A) :
  forall (start i : nat),
    In i (positions p start l) ->
    exists a, nth_error l (i - start) = Some a /\ p a = true /\ (start <= i)%nat.
Proof.
  induction l as [|x l IH]; intros start i Hin; simpl in Hin; [contradiction|].
  assert (Hrest : In i (positions p (S start) l) ->
                  exists a, nth_error (x :: l) (i - start) = Some a /\
                            p a = true /\ (start <= i)%nat).
  { intros H. destruct (IH _ _ H) as (a & Ha & Hp & Hle).
    exists a. replace (i - start)%nat with (S (i - S start)) by lia.
    simpl. repeat split; auto; lia. }
  destruct (p x) eqn:E; [|now apply Hrest].
  destruct Hin as [<-|Hin]; [|now apply Hrest].
  exists x. rewrite Nat.sub_diag. simpl. auto.
Qed.

Lemma Forall2_nth_error {A B} (R : A -> B -> Prop) (l : list A) (l' : list B) :
  Forall2 R l l' ->
  forall i b, nth_error l' i = Some b ->
              exists a, nth_error l i = Some a /\ R a b.
Proof.
  induction 1 as [|a b0 l l' Hab H IH]; intros i b Hi.
  - destruct i; discriminate.
  - destruct i as [|i]; simpl in *.
    + inversion Hi; subst. now exists a.
    + now apply IH.
Qed.

Lemma Forall2_nth_error_l {A B} (R : A -> B -> Prop) (l : list A) (l' : list B) :
  Forall2 R l l' ->
  forall i a, nth_error l i = Some a ->
              exists b, nth_error l' i = Some b /\ R a b.
Proof.
  induction 1 as [|a0 b l l' Hab H IH]; intros i a Hi.
  - destruct i; discriminate.
  - destruct i as [|i]; simpl in *.
    + inversion Hi; subst. now exists b.
    + now apply IH.
Qed.

Lemma steady_ret {A} (a : A) : steady (ret a).
Proof. intros as0 bs s H. exact H. Qed.

Lemma steady_raise {A} : steady (@raise A).
Proof. intros as0 bs s H. exact H. Qed.

Lemma steady_bind {A B} (m : M A) (f : A -> M B) :
  steady m -> (forall a, steady (f a)) -> steady (bind m f).
Proof.
  intros Hm Hf as0 bs s H. apply wp_bind.
  eapply wp_conseq; [apply (Hm as0 bs s H) | | intros s' Hs'; exact Hs'].
  intros a s' Hs'. apply (Hf a as0 bs s' Hs').
Qed.

Lemma steady_call {A} (o : Outcome A) : steady (call o).
Proof. intros as0 bs s H. apply wp_call. now destruct o. Qed.

Lemma steady_get_db : steady get_db.
Proof. intros as0 bs s H. exact H. Qed.

Lemma steady_enter k : steady (enter k).
Proof. intros as0 bs s H. exact H. Qed.

Lemma steady_now env : steady (now env).
Proof. intros as0 bs s H. exact H. Qed.

Lemma steady_commit env : steady (commit env).
Proof.
  intros as0 bs s [H1 H2]. unfold wp, commit, ach_inv.
  destruct (commit_raises env (ncommits s)); simpl; auto.
Qed.

Lemma steady_modify_db (f : DB -> DB) :
  (forall d, achievements (f d) = achievements d) -> steady (modify_db f).
Proof.
  intros Hf as0 bs s [H1 H2]. unfold wp, modify_db, ach_inv. simpl.
  rewrite Hf. auto.
Qed.

Lemma steady_for_each {A} (l : list A) (f : A -> M unit) :
  (forall x, In x l -> steady (f x)) -> steady (for_each l f).
Proof.
  intros Hf as0 bs s H.
  apply (wp_for_each (ach_inv as0 bs)); [|exact H].
  intros x s0 Hx Hs0. now apply Hf.
Qed.

Ltac steady_step :=
  first
    [ apply steady_ret | apply steady_raise | apply steady_call
    | apply steady_get_db | apply steady_now | apply steady_commit
    | apply steady_enter
    | apply steady_modify_db; intros ?; reflexivity
    | apply steady_bind; [|intros ?]
    | apply steady_for_each; intros ? ?
    | match goal with
      | |- steady (match ?x with _ => _ end) => destruct x
      end ].

Ltac steady_tac := repeat steady_step.

(** One of the two loops of the evaluator, started on the achievements
    [l0] from which the positions were taken. *)
Lemma steady_unlock_loop env (ty : string) (cond : Achievement -> bool)
      (l0 : list Achievement) :
  ty = "project_count" \/ ty = "skill_level" ->
  forall as0 bs s,
    Forall2 touched as0 l0 ->
    ach_inv as0 bs s ->
    wp (for_each (positions (locked_of_type ty) 0 l0)
          (fun i =>
             db' <- get_db ;;
             match nth_error (achievements db') i with
             | Some ach =>
                 if cond ach then _unlock_achievement env i else ret tt
             | None => ret tt
             end))
       (fun _ s' => ach_inv as0 bs s') (fun s' => ach_inv as0 bs s') s.
Proof.
  intros Hty as0 bs s H0 H.
  apply (wp_for_each (ach_inv as0 bs)); [|exact H].
  clear s H. intros i s Hi H.
  apply positions_nth in Hi. destruct Hi as (a0 & Ha0 & Hp & _).
  rewrite Nat.sub_0_r in Ha0.
  destruct (Forall2_nth_error _ _ _ H0 i a0 Ha0) as (a & Ha & Haa0).
  assert (Hta : criteria_type a = "project_count" \/
                criteria_type a = "skill_level").
  { apply touched_type in Haa0. rewrite <- Haa0.
    unfold locked_of_type in Hp. apply andb_true_iff in Hp.
    destruct Hp as [_ Hp]. apply String.eqb_eq in Hp. now rewrite Hp. }
  apply wp_bind, wp_get_db.
  destruct (nth_error (achievements (pending (session s))) i) as [c|] eqn:Ec;
    [|exact H].
  destruct (cond c); [|exact H].
  unfold _unlock_achievement.
  apply wp_bind. unfold wp at 1, now.
  apply wp_bind, wp_modify_db.
  eapply wp_conseq;
    [apply (steady_commit env as0 bs)
    | intros u s' Hs'; exact Hs' | intros s' Hs'; exact Hs'].
  destruct H as [H1 H2]. split; [|exact H2]. simpl.
  apply Forall2_update_nth; [exact H1|].
  intros a' c' Ea' Ec'. simpl in Ec'. rewrite Ec in Ec'.
  inversion Ec'; subst c'.
  rewrite Ha in Ea'. inversion Ea'; subst a'.
  apply touched_unlock; [|exact Hta].
  destruct (Forall2_nth_error _ _ _ H1 i c Ec) as (a2 & Ha2 & Hc).
  rewrite Ha in Ha2. inversion Ha2; subst a2. exact Hc.
Qed.

Lemma steady_check_achievements env : steady (_check_achievements env).
Proof.
  intros as0 bs s H. unfold _check_achievements.
  apply wp_bind, wp_get_db. apply wp_bind.
  eapply wp_conseq;
    [ apply (steady_unlock_loop env "project_count"
               (fun ach => criteria_value ach
                           <=? Z.of_nat (List.length (projects (pending (session s)))))
               (achievements (pending (session s)))
               (or_introl eq_refl) as0 bs s (proj1 H) H)
    | | intros s' Hs'; exact Hs'].
  intros u s1 H1. apply wp_bind, wp_get_db.
  apply (steady_unlock_loop env "skill_level"
           (fun ach => Qle_bool (inject_Z (criteria_value ach))
                         (SkillMapper.avg_proficiency (skills (pending (session s1)))))
           (achievements (pending (session s1)))
           (or_intror eq_refl) as0 bs s1 (proj1 H1) H1).
Qed.

Lemma steady_update_project id f : steady (update_project id f).
Proof. unfold update_project. steady_tac. Qed.

Lemma steady_workflow_body env : steady (workflow_body env).
Proof.
  unfold workflow_body, generate_project_idea, check_novelty,
    create_project_record, _update_skills, _log_daily_activity,
    remote_operations.
  repeat first
    [ apply steady_check_achievements | apply steady_update_project
    | steady_step ].
Qed.

(** An achievement of type "streak" that descends from [a] is [a]. *)
Lemma touched_streak (a a' : Achievement) :
  touched a a' -> criteria_type a = "streak" -> a' = a.
Proof.
  intros [->|[_ [H|H]]] Hs; [reflexivity | |]; rewrite Hs in H; discriminate.
Qed.

Lemma touched_only_queried (a a' : Achievement) :
  touched a a' -> only_queried a a'.
Proof.
  intros H. split.
  - now apply touched_streak.
  - intros Hne. destruct H as [H|[_ H]]; [contradiction | exact H].
Qed.

Lemma Forall2_impl {A B} (R S : A -> B -> Prop) (l : list A) (l' : list B) :
  (forall a b, R a b -> S a b) -> Forall2 R l l' -> Forall2 S l l'.
Proof. intros HRS. induction 1; constructor; auto. Qed.

(** C10.  The evaluation writes only achievements of criteria type
    "project_count" or "skill_level".  Whatever a run of the workflow does
    and however it ends, the committed achievements correspond one to one to
    those of before, every achievement of criteria type "streak" is
    unchanged, and an achievement that changed is of one of the two queried
    types; the same holds for one evaluation in the unit of work.  On the
    seeded achievements, "Consistency is Key" (streak, threshold 3) is still
    locked after the run, whatever the activity records are. *)
Theorem C10_streak_achievements_untouched :
  (forall (env : Env) (d : DB),
      Forall2 only_queried
              (achievements d)
              (achievements
                 (persisted (session (snd (run_daily_workflow env (fresh d))))))) /\
  (forall (env : Env) (s : St),
      Forall2 only_queried
              (achievements (pending (session s)))
              (achievements
                 (pending (session (final_state (_check_achievements env s)))))) /\
  (forall (env : Env) (d : DB),
      achievements d = default_achievements ->
      nth_error
        (achievements
           (persisted (session (snd (run_daily_workflow env (fresh d)))))) 3 =
      Some (mkAchievement "Consistency is Key" "streak" 3 false None)).
Proof.
  assert (Hrun : forall env d,
             Forall2 only_queried
               (achievements d)
               (achievements
                  (persisted (session (snd (run_daily_workflow env (fresh d))))))).
  { intros env d.
    assert (H0 : ach_inv (achievements d) (achievements d) (fresh d)).
    { split; [apply Forall2_refl, touched_refl | now right]. }
    pose proof (steady_workflow_body env _ _ _ H0) as H.
    unfold wp in H. unfold run_daily_workflow.
    destruct (workflow_body env (fresh d)) as [id s'|s']; simpl;
      destruct H as [_ [H|H]];
      (eapply Forall2_impl; [apply touched_only_queried|]);
      try exact H; rewrite H; apply Forall2_refl, touched_refl. }
  split; [exact Hrun|]. split.
  - intros env s.
    assert (H0 : ach_inv (achievements (pending (session s)))
                         (achievements (persisted (session s))) s).
    { split; [apply Forall2_refl, touched_refl | now right]. }
    pose proof (steady_check_achievements env _ _ _ H0) as H.
    unfold wp in H.
    destruct (_check_achievements env s) as [u s'|s']; simpl;
      destruct H as [H _];
      (eapply Forall2_impl; [apply touched_only_queried | exact H]).
  - intros env d Hd. specialize (Hrun env d). rewrite Hd in Hrun.
    destruct (Forall2_nth_error_l _ _ _ Hrun 3%nat _ eq_refl) as (a' & Ha' & Hs).
    rewrite Ha'. f_equal. apply (proj1 Hs). reflexivity.
Qed.

Lemma C10_streak_achievements_untouched_witness :
  nth_error
    (achievements
       (persisted (session (snd (run_daily_workflow sample_env
          (fresh (mkDB (projects sample_db) (skills sample_db)
                       (project_skills sample_db) (commits sample_db)
                       (daily_activities sample_db) default_achievements)))))))
    3 = Some (mkAchievement "Consistency is Key" "streak" 3 false None).
Proof.
  apply (proj2 (proj2 C10_streak_achievements_untouched)). reflexivity.
Defined.

(** *** A complete evaluation *)

Lemma wp_now env (Q : Time -> St -> Prop) E s :
  Q (utcnow env (reads s))
    (mkSt (session s) (S (reads s)) (ncommits s) (log s)) ->
  wp (now env) Q E s.
Proof. exact (fun H => H). Qed.

Lemma wp_commit_ok env (Q : unit -> St -> Prop) E s :
  no_faults env ->
  Q tt (mkSt (mkSession (pending (session s)) (pending (session s)))
             (reads s) (S (ncommits s)) (log s)) ->
  wp (commit env) Q E s.
Proof. intros Hn H. unfold wp, commit. now rewrite Hn. Qed.

Lemma update_nth_app {A} (f : A -> A) (done : list A) (a : A) (todo : list A) :
  update_nth (List.length done) f (done ++ a :: todo) = done ++ f a :: todo.
Proof. induction done as [|x done IH]; simpl; [reflexivity | now rewrite IH]. Qed.

Lemma nth_error_middle {A} (done : list A) (a : A) (todo : list A) :
  nth_error (done ++ a :: todo) (List.length done) = Some a.
Proof. induction done as [|x done IH]; simpl; [reflexivity | exact IH]. Qed.

(** Without commit faults a loop of the evaluator runs to its end and
    unlocks exactly the selected rows that meet the condition. *)
Lemma unlock_loop_exact env (ty : string) (cond : Achievement -> bool) :
  no_faults env ->
  forall (todo done : list Achievement) (s : St),
    achievements (pending (session s)) = done ++ todo ->
    wp (for_each (positions (locked_of_type ty) (List.length done) todo)
          (fun i =>
             db' <- get_db ;;
             match nth_error (achievements db') i with
             | Some ach =>
                 if cond ach then _unlock_achievement env i else ret tt
             | None => ret tt
             end))
       (fun _ s' =>
          exists todo',
            achievements (pending (session s')) = done ++ todo' /\
            Forall2 (loop_result ty cond) todo todo' /\
            projects (pending (session s')) = projects (pending (session s)) /\
            skills (pending (session s')) = skills (pending (session s)))
       (fun _ => False) s.
Proof.
  intros Hn. induction todo as [|a todo IH]; intros done s Hs.
  - simpl. apply wp_ret. exists []. auto.
  - assert (Hnext : forall a' s1,
               loop_result ty cond a a' ->
               achievements (pending (session s1)) = done ++ a' :: todo ->
               projects (pending (session s1)) = projects (pending (session s)) ->
               skills (pending (session s1)) = skills (pending (session s)) ->
               wp (for_each (positions (locked_of_type ty) (S (List.length done)) todo)
                     (fun i =>
                        db' <- get_db ;;
                        match nth_error (achievements db') i with
                        | Some ach =>
                            if cond ach then _unlock_achievement env i else ret tt
                        | None => ret tt
                        end))
                  (fun _ s' =>
                     exists todo',
                       achievements (pending (session s')) = done ++ todo' /\
                       Forall2 (loop_result ty cond) (a :: todo) todo' /\
                       projects (pending (session s')) = projects (pending (session s)) /\
                       skills (pending (session s')) = skills (pending (session s)))
                  (fun _ => False) s1).
    { intros a' s1 Hr Ha' Hp1 Hk1.
      replace (S (List.length done)) with (List.length (done ++ [a']))
        by (rewrite length_app; simpl; lia).
      eapply wp_conseq; [apply (IH (done ++ [a']) s1) | | auto].
      - rewrite Ha'. now rewrite <- app_assoc.
      - intros u s' (todo' & H1 & H2 & H3 & H4). exists (a' :: todo').
        rewrite H1, <- app_assoc. simpl.
        repeat split; try congruence. now constructor. }
    simpl positions. unfold locked_of_type at 1.
    destruct (negb (is_unlocked a) && String.eqb (criteria_type a) ty) eqn:Ep.
    + simpl for_each. apply wp_bind. apply wp_bind, wp_get_db.
      rewrite Hs, nth_error_middle.
      destruct (cond a) eqn:Ec.
      * unfold _unlock_achievement.
        apply wp_bind, wp_now. apply wp_bind, wp_modify_db.
        apply wp_commit_ok; [exact Hn|].
        apply (Hnext (unlocked (utcnow env (reads s)) a)).
        -- unfold loop_result. rewrite Ep, Ec. simpl. eauto.
        -- simpl. rewrite Hs. apply update_nth_app.
        -- reflexivity.
        -- reflexivity.
      * apply wp_ret. apply (Hnext a); auto.
        unfold loop_result. rewrite Ep, Ec. reflexivity.
    + apply (Hnext a); auto.
      unfold loop_result. rewrite Ep. reflexivity.
Qed.

Lemma Forall2_compose {A} (R S T : A -> A -> Prop) :
  (forall a b c, R a b -> S b c -> T a c) ->
  forall l1 l2 l3, Forall2 R l1 l2 -> Forall2 S l2 l3 -> Forall2 T l1 l3.
Proof.
  intros H l1 l2 l3 H12. revert l3.
  induction H12; intros l3 H23; inversion H23; subst; constructor; eauto.
Qed.

Lemma loop_results_evaluated (count : Z) (avg : Q) (a a1 a2 : Achievement) :
  loop_result "project_count" (fun ach => criteria_value ach <=? count) a a1 ->
  loop_result "skill_level"
              (fun ach => Qle_bool (inject_Z (criteria_value ach)) avg) a1 a2 ->
  evaluated count avg a a2.
Proof.
  unfold loop_result, evaluated.
  destruct a as [n ty v u t]. simpl.
  destruct u; simpl.
  - intros -> H. exact H.
  - destruct (String.eqb ty "project_count") eqn:E1.
    + apply String.eqb_eq in E1. subst ty. simpl.
      destruct (v <=? count); simpl.
      * intros [t1 ->]. simpl. intros ->. now exists t1.
      * intros ->. simpl. intros ->. reflexivity.
    + simpl. intros ->. simpl.
      destruct (String.eqb ty "skill_level" && Qle_bool (inject_Z v) avg);
        intros H; exact H.
Qed.

Lemma check_achievements_exact env s :
  no_faults env ->
  wp (_check_achievements env)
     (fun _ s' =>
        Forall2 (evaluated (Z.of_nat (List.length (projects (pending (session s)))))
                           (SkillMapper.avg_proficiency (skills (pending (session s)))))
                (achievements (pending (session s)))
                (achievements (pending (session s'))) /\
        projects (pending (session s')) = projects (pending (session s)) /\
        skills (pending (session s')) = skills (pending (session s)))
     (fun _ => False) s.
Proof.
  intros Hn. unfold _check_achievements.
  apply wp_bind, wp_get_db. apply wp_bind.
  eapply wp_conseq;
    [ apply (unlock_loop_exact env "project_count"
               (fun ach => criteria_value ach
                           <=? Z.of_nat (List.length (projects (pending (session s)))))
               Hn (achievements (pending (session s))) [] s eq_refl)
    | | auto ].
  intros u s1 (l1 & Hl1 & H1 & Hp1 & Hk1). simpl in Hl1.
  apply wp_bind, wp_get_db.
  eapply wp_conseq;
    [ apply (unlock_loop_exact env "skill_level"
               (fun ach => Qle_bool (inject_Z (criteria_value ach))
                             (SkillMapper.avg_proficiency (skills (pending (session s1)))))
               Hn (achievements (pending (session s1))) [] s1 eq_refl)
    | | auto ].
  intros u' s2 (l2 & Hl2 & H2 & Hp2 & Hk2). simpl in Hl2.
  rewrite Hl2. split; [|split; congruence].
  rewrite Hl1 in H2. rewrite Hk1 in H2.
  exact (Forall2_compose _ _ _ (loop_results_evaluated _ _) _ _ _ H1 H2).
Qed.

Lemma evaluated_idem (count : Z) (avg : Q) (a a1 a2 : Achievement) :
  evaluated count avg a a1 -> evaluated count avg a1 a2 -> a2 = a1.
Proof.
  unfold evaluated. destruct a as [n ty v u t]. simpl.
  destruct (negb u &&
            ((String.eqb ty "project_count" && (v <=? count))
             || (String.eqb ty "skill_level" && Qle_bool (inject_Z v) avg))) eqn:E.
  - intros [t1 ->]. simpl. auto.
  - intros ->. simpl. rewrite E. auto.
Qed.

Lemma evaluated_spec (count : Z) (avg : Q) (a a' : Achievement) :
  evaluated count avg a a' ->
  achievement_name a' = achievement_name a /\
  criteria_type a' = criteria_type a /\
  criteria_value a' = criteria_value a /\
  (is_unlocked a = true -> a' = a) /\
  (is_unlocked a = false -> criteria_type a = "project_count" ->
   (is_unlocked a' = true <-> criteria_value a <= count)) /\
  (is_unlocked a = false -> criteria_type a = "skill_level" ->
   (is_unlocked a' = true <-> (inject_Z (criteria_value a) <= avg)%Q)).
Proof.
  unfold evaluated. destruct a as [n ty v u t]. simpl.
  destruct u; simpl.
  - intros ->. simpl. repeat split; auto; discriminate.
  - intros H.
    assert (Hc : a' = mkAchievement n ty v false t \/
                 exists t1, a' = unlocked t1 (mkAchievement n ty v false t)).
    { destruct ((_ && _) || (_ && _)) in H; [now right | now left]. }
    split; [destruct Hc as [->|[t1 ->]]; reflexivity|].
    split; [destruct Hc as [->|[t1 ->]]; reflexivity|].
    split; [destruct Hc as [->|[t1 ->]]; reflexivity|].
    split; [discriminate|]. split.
    + intros _ ->. simpl in H.
      destruct (v <=? count) eqn:Ev; simpl in H.
      * apply Z.leb_le in Ev. destruct H as [t1 ->]. simpl. tauto.
      * apply Z.leb_gt in Ev. subst a'. simpl.
        split; [discriminate | lia].
    + intros _ ->. simpl in H.
      destruct (Qle_bool (inject_Z v) avg) eqn:Ev; simpl in H.
      * apply Qle_bool_iff in Ev. destruct H as [t1 ->]. simpl. tauto.
      * subst a'. simpl. split; [discriminate|].
        intros K. apply Qle_bool_iff in K. congruence.
Qed.

Lemma Forall2_eq {A} (l l' : list A) : Forall2 eq l l' -> l = l'.
Proof. induction 1; congruence. Qed.

(** C8.  When no commit raises, an evaluation runs to its end; it leaves
    name, criteria type and threshold of every achievement alone and
    leaves an unlocked achievement as it is; a locked [project_count]
    achievement comes out unlocked exactly when the number of project
    rows is at least its threshold, a locked [skill_level] achievement
    exactly when the arithmetic mean of the proficiencies of all tracked
    skills (0 without skills) is at least its threshold; a second
    evaluation changes nothing.  And whatever happens, an achievement that
    was unlocked is still unlocked after an evaluation. *)
Theorem C8_check_achievements :
  (forall (env : Env) (s : St),
      no_faults env ->
      let count := Z.of_nat (List.length (projects (pending (session s)))) in
      let mean :=
        Spec.average (map proficiency (skills (pending (session s)))) in
      exists s',
        _check_achievements env s = Ok tt s' /\
        Forall2
          (fun a a' =>
             achievement_name a' = achievement_name a /\
             criteria_type a' = criteria_type a /\
             criteria_value a' = criteria_value a /\
             (is_unlocked a = true -> a' = a) /\
             (is_unlocked a = false -> criteria_type a = "project_count" ->
              (is_unlocked a' = true <-> criteria_value a <= count)) /\
             (is_unlocked a = false -> criteria_type a = "skill_level" ->
              (is_unlocked a' = true <->
               (inject_Z (criteria_value a) <= mean)%Q)))
          (achievements (pending (session s)))
          (achievements (pending (session s'))) /\
        exists s'',
          _check_achievements env s' = Ok tt s'' /\
          achievements (pending (session s'')) =
          achievements (pending (session s'))) /\
  (forall (env : Env) (s : St),
      Forall2 (fun a a' => is_unlocked a = true -> is_unlocked a' = true)
              (achievements (pending (session s)))
              (achievements
                 (pending (session (final_state (_check_achievements env s)))))).
Proof.
  split.
  - intros env s Hn count mean.
    set (avg := SkillMapper.avg_proficiency (skills (pending (session s)))).
    assert (Havg : (avg == mean)%Q).
    { apply SkillMapperSpec.avg_proficiency_average. reflexivity. }
    pose proof (check_achievements_exact env s Hn) as H. unfold wp in H.
    destruct (_check_achievements env s) as [[] s'|s'] eqn:E1; [|contradiction].
    destruct H as (Hev & Hp & Hk). fold count avg in Hev.
    exists s'. split; [reflexivity|]. split.
    + eapply Forall2_impl; [|exact Hev].
      intros a a' Ha. apply evaluated_spec in Ha.
      destruct Ha as (H1 & H2 & H3 & H4 & H5 & H6).
      split; [exact H1|]. split; [exact H2|]. split; [exact H3|].
      split; [exact H4|]. split; [exact H5|].
      intros Hu Hty. rewrite (H6 Hu Hty), Havg. reflexivity.
    + pose proof (check_achievements_exact env s' Hn) as H'. unfold wp in H'.
      destruct (_check_achievements env s') as [[] s''|s''] eqn:E2;
        [|contradiction].
      destruct H' as (Hev' & _ & _). rewrite Hp, Hk in Hev'. fold count avg in Hev'.
      exists s''. split; [reflexivity|].
      apply Forall2_eq.
      assert (K : forall l1 l2 l3,
                 Forall2 (evaluated count avg) l1 l2 ->
                 Forall2 (evaluated count avg) l2 l3 -> Forall2 eq l3 l2).
      { intros l1 l2 l3 H12. revert l3.
        induction H12; intros l3 H23; inversion H23; subst; constructor;
          eauto using evaluated_idem. }
      exact (K _ _ _ Hev Hev').
  - intros env s.
    assert (H0 : ach_inv (achievements (pending (session s)))
                         (achievements (persisted (session s))) s).
    { split; [apply Forall2_refl, touched_refl | now right]. }
    pose proof (steady_check_achievements env _ _ _ H0) as H.
    unfold wp in H.
    assert (K : forall a a', touched a a' ->
                             is_unlocked a = true -> is_unlocked a' = true).
    { intros a a' [->|[[t ->] _]] Hu; [exact Hu | reflexivity]. }
    destruct (_check_achievements env s) as [u s'|s']; simpl;
      destruct H as [H _]; (eapply Forall2_impl; [exact K | exact H]).
Qed.

Lemma sample_env_no_faults : no_faults sample_env.
Proof. intros n. reflexivity. Qed.

Lemma C8_check_achievements_witness :
  let project (id : Z) :=
    mkProject id "Url Shortener" FULL_STACK BEGINNER ["flask"] COMPLETED
              180 true 86400 (Some 90000) in
  let db :=
    mkDB [project 1; project 2; project 3; project 4; project 5]
         [mkSkill "REST APIs" FULL_STACK 35 4 (Some 90000) 90000;
          mkSkill "Encryption" SECURITY_BLOCKCHAIN 15 1 None 0]
         [] [] [] default_achievements in
  exists s',
    _check_achievements sample_env (fresh db) = Ok tt s' /\
    (exists a, nth_error (achievements (pending (session s'))) 1 = Some a /\
               achievement_name a = "Code Warrior" /\ is_unlocked a = true) /\
    (exists a, nth_error (achievements (pending (session s'))) 2 = Some a /\
               achievement_name a = "Project Master" /\ is_unlocked a = false) /\
    (exists a, nth_error (achievements (pending (session s'))) 4 = Some a /\
               achievement_name a = "Novice Coder" /\ is_unlocked a = true) /\
    (exists a, nth_error (achievements (pending (session s'))) 5 = Some a /\
               achievement_name a = "Expert Engineer" /\ is_unlocked a = false) /\
    exists s'',
      _check_achievements sample_env s' = Ok tt s'' /\
      achievements (pending (session s'')) = achievements (pending (session s')).
Proof.
  intros project db.
  destruct (proj1 C8_check_achievements sample_env (fresh db)
              sample_env_no_faults) as (s' & H1 & HF & H2).
  exists s'. split; [exact H1|].
  split; [|split; [|split; [|split; [|exact H2]]]].
  - destruct (Forall2_nth_error_l _ _ _ HF 1%nat _ eq_refl)
      as (a & Ha & Hn & _ & _ & _ & Hc & _).
    exists a. split; [exact Ha|]. split; [exact Hn|].
    apply (Hc eq_refl eq_refl). apply Z.leb_le. reflexivity.
  - destruct (Forall2_nth_error_l _ _ _ HF 2%nat _ eq_refl)
      as (a & Ha & Hn & _ & _ & _ & Hc & _).
    exists a. split; [exact Ha|]. split; [exact Hn|].
    destruct (is_unlocked a); [|reflexivity].
    assert (K : 10 <= 5) by (apply (Hc eq_refl eq_refl); reflexivity).
    apply Z.leb_le in K. discriminate K.
  - destruct (Forall2_nth_error_l _ _ _ HF 4%nat _ eq_refl)
      as (a & Ha & Hn & _ & _ & _ & _ & Hk).
    exists a. split; [exact Ha|]. split; [exact Hn|].
    apply (Hk eq_refl eq_refl). apply Qle_bool_iff. reflexivity.
  - destruct (Forall2_nth_error_l _ _ _ HF 5%nat _ eq_refl)
      as (a & Ha & Hn & _ & _ & _ & _ & Hk).
    exists a. split; [exact Ha|]. split; [exact Hn|].
    destruct (is_unlocked a); [|reflexivity].
    assert (K : (80 <= 25)%Q).
    { apply (Qle_trans _ _ _ (proj1 (Hk eq_refl eq_refl) eq_refl)).
      apply Qle_bool_iff. reflexivity. }
    apply Qle_bool_iff in K. discriminate K.
Defined.

(** *** Properties of the tables kept by a run *)

Section Keeps.
Variable P : DB -> Prop.

Lemma keeps_ret {A} (a : A) : keeps P (ret a).
Proof. intros s H. exact H. Qed.

Lemma keeps_raise {A} : keeps P (@raise A).
Proof. intros s H. exact H. Qed.

Lemma keeps_bind {A B} (m : M A) (f : A -> M B) :
  keeps P m -> (forall a, keeps P (f a)) -> keeps P (bind m f).
Proof.
  intros Hm Hf s H. apply wp_bind.
  eapply wp_conseq; [apply (Hm s H) | | intros s' Hs'; exact Hs'].
  intros a s' Hs'. apply (Hf a s' Hs').
Qed.

Lemma keeps_call {A} (o : Outcome A) : keeps P (call o).
Proof. intros s H. apply wp_call. now destruct o. Qed.

Lemma keeps_get_db : keeps P get_db.
Proof. intros s H. exact H. Qed.

Lemma keeps_enter k : keeps P (enter k).
Proof. intros s H. exact H. Qed.

Lemma keeps_now env : keeps P (now env).
Proof. intros s H. exact H. Qed.

Lemma keeps_commit env : keeps P (commit env).
Proof.
  intros s [H1 H2]. unfold wp, commit, both.
  destruct (commit_raises env (ncommits s)); simpl; auto.
Qed.

Lemma keeps_modify_db (f : DB -> DB) :
  (forall d, P d -> P (f d)) -> keeps P (modify_db f).
Proof.
  intros Hf s [H1 H2]. unfold wp, modify_db, both. simpl. auto.
Qed.

Lemma keeps_for_each {A} (l : list A) (f : A -> M unit) :
  (forall x, keeps P (f x)) -> keeps P (for_each l f).
Proof.
  intros Hf. induction l as [|x l IH]; cbn [for_each].
  - apply keeps_ret.
  - apply keeps_bind; [apply Hf | intros _; exact IH].
Qed.

End Keeps.

(** One step of the proof that a computation keeps a property; [side]
    proves that a change of the tables keeps it. *)
Ltac keeps_step side :=
  first
    [ apply keeps_ret | apply keeps_raise | apply keeps_call
    | apply keeps_get_db | apply keeps_now | apply keeps_commit
    | apply keeps_enter
    | apply keeps_modify_db; solve [side]
    | apply keeps_bind; [|intros ?]
    | apply keeps_for_each; intros ?
    | match goal with
      | |- keeps _ (match ?x with _ => _ end) => destruct x
      end ].

Ltac unfold_workflow :=
  unfold workflow_body, generate_project_idea, check_novelty,
    create_project_record, _update_skills, _log_daily_activity,
    remote_operations, _check_achievements, _unlock_achievement,
    update_project.

(** What a run keeps, it keeps up to the closing of the session. *)
Lemma keeps_run (P : DB -> Prop) (env : Env) (d : DB) :
  keeps P (workflow_body env) -> P d ->
  P (persisted (session (snd (run_daily_workflow env (fresh d))))).
Proof.
  intros Hk Hd. unfold run_daily_workflow.
  pose proof (Hk (fresh d) (conj Hd Hd)) as H. unfold wp in H.
  destruct (workflow_body env (fresh d)) as [id s'|s'];
    cbn [snd close session persisted]; exact (proj2 H).
Qed.

Lemma grown_refl (a : Skill) : grown a a.
Proof.
  unfold grown. split; [reflexivity|]. split; [reflexivity|].
  split; [lia|]. intros H. split; lra.
Qed.

Lemma grown_trans (a b c : Skill) : grown a b -> grown b c -> grown a c.
Proof.
  unfold grown. intros (H1 & H2 & H3 & H4) (K1 & K2 & K3 & K4).
  split; [congruence|]. split; [congruence|]. split; [lia|].
  intros Ha. destruct (H4 Ha) as [Hab Hb]. destruct (K4 Hb). split; lra.
Qed.

Lemma grown_update (c : Skill) (d : DifficultyLevel) (t t' : Time) :
  grown c (SkillMapper.update_skill_proficiency c d 1 t t').
Proof.
  unfold grown, SkillMapper.update_skill_proficiency.
  cbn [skill_name skill_category projects_count proficiency].
  split; [reflexivity|]. split; [reflexivity|]. split; [lia|].
  intros Hc.
  pose proof (SkillMapperSpec.actual_gain_bounds (proficiency c) d 1
                ltac:(lra)) as [G1 G2].
  assert (G0 : (0 < SkillMapper.base_gain d * 1 * (1#2))%Q)
    by (destruct d; cbn [SkillMapper.base_gain]; lra).
  destruct (SkillMapperSpec.min_100_cases
              (proficiency c + SkillMapper.actual_gain (proficiency c) d 1))
    as [[X1 X2]|[X1 X2]]; rewrite X2; split; lra.
Qed.

Lemma Forall2_update_first {A} (R : A -> A -> Prop) (p : A -> bool)
      (f : A -> A) (l cur : list A) :
  (forall a c, R a c -> R a (f c)) ->
  Forall2 R l cur -> Forall2 R l (update_first p f cur).
Proof.
  intros Hf. induction 1 as [|a c l cur Hac H IH]; cbn [update_first];
    [constructor|].
  destruct (p c); constructor; auto.
Qed.

Lemma keeps_skills (sk0 : list Skill) (env : Env) :
  keeps (fun d => Forall2 grown sk0 (skills d)) (workflow_body env).
Proof.
  unfold_workflow.
  repeat keeps_step
    ltac:(let H := fresh in
          let K := fresh in
          intros ? H;
          first
            [ exact H
            | cbv beta in *; cbn [skills set_skills];
              apply Forall2_update_first; [|exact H];
              intros ? ? K; eapply grown_trans; [exact K|];
              apply grown_update ]).
Qed.

(** X16.  The skill ledger along a run.  However a run ends, the committed skills
    are those of before in the same order, none added and none removed;
    each keeps its name and its category, its counter of projects has not
    gone down, and a proficiency that was at most 100 has not gone down and
    is still at most 100. *)
Theorem skills_only_grow (env : Env) (d : DB) :
  Forall2 grown
          (skills d)
          (skills (persisted (session (snd (run_daily_workflow env (fresh d)))))).
Proof.
  apply (keeps_run (fun d' => Forall2 grown (skills d) (skills d')));
    [apply keeps_skills|].
  apply Forall2_refl, grown_refl.
Qed.

Lemma map_date_update_first (p : DailyActivity -> bool)
      (f : DailyActivity -> DailyActivity) (l : list DailyActivity) :
  (forall a, date (f a) = date a) ->
  map date (update_first p f l) = map date l.
Proof.
  intros Hf. induction l as [|a l IH]; cbn [update_first map]; [reflexivity|].
  destruct (p a); cbn [map]; [now rewrite Hf | now rewrite IH].
Qed.

Lemma keeps_log_dates env id :
  keeps (fun d => NoDup (map date (daily_activities d)))
        (_log_daily_activity env id).
Proof.
  intros s H. unfold _log_daily_activity.
  apply wp_bind, wp_now. cbv zeta. apply wp_bind, wp_get_db.
  cbn [session pending]. apply wp_bind.
  apply wp_conseq
    with (Q := fun _ s' =>
                 both (fun d => NoDup (map date (daily_activities d))) s')
         (E := both (fun d => NoDup (map date (daily_activities d)))).
  - destruct (find _ (daily_activities (pending (session s)))) eqn:E.
    + apply wp_ret. exact H.
    + apply wp_modify_db. destruct H as [H1 H2]. split; [|exact H2].
      cbn [session pending daily_activities set_daily_activities].
      rewrite map_app. cbn [map date].
      apply NoDup_app; [exact H1 | repeat constructor; simpl; tauto |].
      intros t Ht [<-|[]].
      apply in_map_iff in Ht. destruct Ht as [a [Ha Hin]].
      apply (find_none _ _ E) in Hin. cbv beta in Hin.
      rewrite Ha, Z.eqb_refl in Hin. discriminate.
  - intros u s1 H1. revert s1 H1.
    match goal with
    | |- forall s1, both ?P s1 -> wp ?m _ _ s1 => change (keeps P m)
    end.
    repeat keeps_step
      ltac:(let H := fresh in
            intros ? H;
            first
              [ exact H
              | cbv beta in *;
                cbn [daily_activities set_daily_activities];
                rewrite map_date_update_first; [exact H | reflexivity] ]).
  - intros s' Hs'. exact Hs'.
Qed.

Lemma keeps_dates (env : Env) :
  keeps (fun d => NoDup (map date (daily_activities d))) (workflow_body env).
Proof.
  unfold workflow_body, generate_project_idea, check_novelty,
    create_project_record, _update_skills, remote_operations,
    _check_achievements, _unlock_achievement, update_project.
  repeat first
    [ apply keeps_log_dates
    | keeps_step ltac:(let H := fresh in intros ? H; exact H) ].
Qed.

(** X17.  One record per day.  The activity ledger admits one record per date.
    However a run ends, a committed ledger whose dates are distinct still
    has distinct dates afterwards: the run adds a record only for a day
    that has none. *)
Theorem one_record_per_day (env : Env) (d : DB) :
  NoDup (map date (daily_activities d)) ->
  NoDup (map date
           (daily_activities
              (persisted (session (snd (run_daily_workflow env (fresh d))))))).
Proof.
  intros H.
  apply (keeps_run (fun d' => NoDup (map date (daily_activities d'))));
    [apply keeps_dates | exact H].
Qed.

Lemma one_record_per_day_witness :
  NoDup (map date
           (daily_activities
              (persisted (session (snd (run_daily_workflow sample_env
                                          (fresh sample_db))))))).
Proof.
  apply (one_record_per_day sample_env sample_db).
  cbn [sample_db daily_activities map date]. repeat constructor. simpl. tauto.
Defined.

Lemma update_first_split {A} (p : A -> bool) (f : A -> A) (l : list A) (x : A) :
  find p l = Some x ->
  exists before after,
    l = before ++ x :: after /\
    (forall y, In y before -> p y = false) /\
    update_first p f l = before ++ f x :: after.
Proof.
  induction l as [|a l IH]; cbn [find update_first]; [discriminate|].
  destruct (p a) eqn:E.
  - intros H. inversion H. subst a. exists [], l. repeat split.
    intros y [].
  - intros H. destruct (IH H) as (before & after & Hl & Hb & Hu).
    exists (a :: before), after. cbn [app]. rewrite <- Hl, Hu.
    repeat split. intros y [<-|Hy]; [exact E | now apply Hb].
Qed.

Lemma find_app_none {A} (p : A -> bool) (l : list A) (x : A) :
  find p l = None -> p x = true -> find p (l ++ [x]) = Some x.
Proof.
  induction l as [|a l IH]; cbn [find app]; intros H Hx.
  - now rewrite Hx.
  - destruct (p a); [discriminate | now apply IH].
Qed.

(** The tables after [_log_daily_activity] when its commit goes through. *)
Lemma log_daily_activity_exact env id s :
  commit_raises env (ncommits s) = false ->
  let today := Analytics.day_of (utcnow env (reads s)) * 86400 in
  let acts := daily_activities (pending (session s)) in
  let acts0 :=
    match find (fun a => date a =? today) acts with
    | Some _ => acts
    | None => acts ++ [mkDailyActivity today 0 0 0 []]
    end in
  let acts' :=
    match find_project id (pending (session s)) with
    | Some project =>
        update_first
          (fun a => date a =? today)
          (fun a =>
             mkDailyActivity (date a) (projects_created a + 1)
               (projects_completed a + 1)
               (lines_added a + lines_of_code project)
               (match technologies project with
                | [] => technologies_used a
                | _ :: _ => set_union (technologies_used a)
                                      (technologies project)
                end))
          acts0
    | None => acts0
    end in
  exists s',
    _log_daily_activity env id s = Ok tt s' /\
    persisted (session s') = pending (session s') /\
    pending (session s') =
      set_daily_activities (fun _ => acts') (pending (session s)).
Proof.
  intros Hc today acts acts0 acts'.
  unfold _log_daily_activity, bind, now, get_db. cbv zeta.
  cbn [session pending reads ncommits log].
  fold today. fold acts.
  destruct (find (fun a => date a =? today) acts) eqn:E;
    cbn [ret modify_db session pending persisted reads ncommits log];
    unfold find_project;
    cbn [projects set_daily_activities];
    fold (find_project id (pending (session s)));
    destruct (find_project id (pending (session s))) eqn:Ep;
    cbn [ret modify_db session pending persisted reads ncommits log];
    unfold commit;
    cbn [session pending persisted reads ncommits log];
    rewrite Hc; eexists; (split; [reflexivity|]);
    cbn [session pending persisted]; (split; [reflexivity|]);
    subst acts' acts0; unfold set_daily_activities;
    cbn [projects skills project_skills commits daily_activities achievements];
    try reflexivity;
    destruct (pending (session s)); reflexivity.
Qed.

Lemma set_union_in (existing new : list string) (t : string) :
  In t (set_union existing new) <-> In t existing \/ In t new.
Proof.
  change (set_union existing new)
    with (SkillMapper.set_update [] (existing ++ new)).
  destruct (SkillMapperSpec.set_update_spec (existing ++ new) []
              (NoDup_nil _)) as [_ [H _]].
  rewrite H, in_app_iff. simpl. tauto.
Qed.

(** X18.  Logging a day's project.  When the commit goes through, the record of
    today is the only one that changes: the records before and after it
    are as they were, and a record is appended, with counters at 0, only
    when today had none.  On today's record both project counters grow by
    one, the lines grow by the lines of the project, and the technologies
    are those of before together with those of the project. *)
Theorem log_daily_activity_upsert
        (env : Env) (id : Z) (s : St) (project : Project) :
  commit_raises env (ncommits s) = false ->
  find_project id (pending (session s)) = Some project ->
  let today := Analytics.day_of (utcnow env (reads s)) * 86400 in
  let acts := daily_activities (pending (session s)) in
  let base :=
    match find (fun a => date a =? today) acts with
    | Some old => old
    | None => mkDailyActivity today 0 0 0 []
    end in
  let acts0 :=
    match find (fun a => date a =? today) acts with
    | Some _ => acts
    | None => acts ++ [base]
    end in
  exists s' before after a',
    _log_daily_activity env id s = Ok tt s' /\
    persisted (session s') = pending (session s') /\
    acts0 = before ++ base :: after /\
    daily_activities (pending (session s')) = before ++ a' :: after /\
    (forall y, In y before -> date y <> today) /\
    date a' = today /\
    projects_created a' = projects_created base + 1 /\
    projects_completed a' = projects_completed base + 1 /\
    lines_added a' = lines_added base + lines_of_code project /\
    (forall t, In t (technologies_used a') <->
               In t (technologies_used base) \/ In t (technologies project)).
Proof.
  intros Hc Hp today acts base acts0.
  destruct (log_daily_activity_exact env id s Hc) as (s' & Hrun & Hpers & Hpend).
  rewrite Hp in Hpend. fold today in Hpend. fold acts in Hpend.
  assert (Hbase : date base = today /\
                  find (fun a => date a =? today) acts0 = Some base).
  { subst base acts0.
    destruct (find (fun a => date a =? today) acts) as [old|] eqn:E.
    - split; [|exact E]. apply find_some in E. destruct E as [_ E].
      now apply Z.eqb_eq in E.
    - split; [reflexivity|]. apply find_app_none; [exact E|].
      cbn [date]. apply Z.eqb_refl. }
  destruct Hbase as [Hdate Hfind].
  assert (Hacts0 : match find (fun a => date a =? today) acts with
                   | Some _ => acts
                   | None => acts ++ [mkDailyActivity today 0 0 0 []]
                   end = acts0).
  { subst acts0 base.
    destruct (find (fun a => date a =? today) acts); reflexivity. }
  rewrite Hacts0 in Hpend.
  destruct (update_first_split
              (fun a => date a =? today)
              (fun a =>
                 mkDailyActivity (date a) (projects_created a + 1)
                   (projects_completed a + 1)
                   (lines_added a + lines_of_code project)
                   (match technologies project with
                    | [] => technologies_used a
                    | _ :: _ => set_union (technologies_used a)
                                          (technologies project)
                    end))
              acts0 base Hfind) as (before & after & Hsplit & Hbefore & Hupd).
  rewrite Hupd in Hpend.
  exists s', before, after. eexists.
  split; [exact Hrun|]. split; [exact Hpers|]. split; [exact Hsplit|].
  split; [rewrite Hpend; reflexivity|].
  split.
  { intros y Hy Heq. apply Hbefore in Hy. cbv beta in Hy.
    rewrite Heq, Z.eqb_refl in Hy. discriminate. }
  cbn [date projects_created projects_completed lines_added technologies_used].
  repeat split; try assumption; try reflexivity.
  - destruct (technologies project) as [|t0 ts] eqn:Et.
    + intros H. now left.
    + rewrite <- Et. apply set_union_in.
  - destruct (technologies project) as [|t0 ts] eqn:Et.
    + intros [H|[]]. exact H.
    + rewrite <- Et. apply set_union_in.
Qed.

Lemma log_daily_activity_upsert_witness :
  exists s' before after a',
    _log_daily_activity sample_env 1 (fresh sample_db) = Ok tt s' /\
    daily_activities (pending (session s')) = before ++ a' :: after /\
    projects_created a' = 1.
Proof.
  destruct (log_daily_activity_upsert sample_env 1 (fresh sample_db)
              (mkProject 1 "Url Shortener" FULL_STACK BEGINNER ["flask"]
                         COMPLETED 180 true 86400 (Some 90000))
              eq_refl eq_refl)
    as (s' & before & after & a' & H1 & _ & _ & H2 & _ & _ & H3 & _).
  exists s', before, after, a'. split; [exact H1|]. split; [exact H2|].
  exact H3.
Defined.

(** The ledger holds a record of the day [today] and none of a later
    day. *)
Definition up_to_date (today : Z) (acts : list DailyActivity) : Prop :=
  (exists a, In a acts /\ Analytics.day a = today) /\
  (forall a, In a acts -> Analytics.day a <= today).

Lemma up_to_date_dates (today : Z) (l l' : list DailyActivity) :
  map date l' = map date l -> up_to_date today l -> up_to_date today l'.
Proof.
  intros Hd [[a [Hin Ha]] Hle]. split.
  - assert (Hin' : In (date a) (map date l')).
    { rewrite Hd. now apply in_map. }
    apply in_map_iff in Hin'. destruct Hin' as [a' [Hda Hin']].
    exists a'. split; [exact Hin'|]. unfold Analytics.day in *.
    now rewrite Hda.
  - intros a' Hin'.
    assert (Hin0 : In (date a') (map date l)).
    { rewrite <- Hd. now apply in_map. }
    apply in_map_iff in Hin0. destruct Hin0 as [a0 [Hda Hin0]].
    specialize (Hle a0 Hin0). unfold Analytics.day in *. now rewrite <- Hda.
Qed.

Lemma log_ledger_up_to_date env id s :
  commit_raises env (ncommits s) = false ->
  let today := Analytics.day_of (utcnow env (reads s)) in
  (forall a, In a (daily_activities (pending (session s))) ->
             Analytics.day a <= today) ->
  exists s',
    _log_daily_activity env id s = Ok tt s' /\
    persisted (session s') = pending (session s') /\
    up_to_date today (daily_activities (pending (session s'))).
Proof.
  intros Hc today Hall.
  destruct (log_daily_activity_exact env id s Hc) as (s' & Hrun & Hpers & Hpend).
  exists s'. split; [exact Hrun|]. split; [exact Hpers|].
  rewrite Hpend. cbn [daily_activities set_daily_activities].
  fold today.
  set (is_today := fun a : DailyActivity => date a =? today * 86400).
  set (acts := daily_activities (pending (session s))) in *.
  set (acts0 := match find is_today acts with
                | Some _ => acts
                | None => acts ++ [mkDailyActivity (today * 86400) 0 0 0 []]
                end).
  assert (Hday : forall a, date a = today * 86400 -> Analytics.day a = today).
  { intros a Ha. unfold Analytics.day, Analytics.day_of. rewrite Ha.
    apply Z.div_mul. discriminate. }
  assert (H0 : up_to_date today acts0).
  { subst acts0. destruct (find is_today acts) as [old|] eqn:E.
    - split; [|exact Hall]. apply find_some in E. destruct E as [Hin E].
      exists old. split; [exact Hin|]. apply Hday.
      now apply Z.eqb_eq in E.
    - split.
      + eexists. split; [apply in_app_iff; right; now left|].
        now apply Hday.
      + intros a Ha. apply in_app_iff in Ha. destruct Ha as [Ha|[<-|[]]].
        * now apply Hall.
        * rewrite Hday by reflexivity. lia. }
  clearbody acts0.
  destruct (find_project id (pending (session s))) as [project|];
    [|exact H0].
  apply (up_to_date_dates today acts0); [|exact H0].
  apply map_date_update_first. reflexivity.
Qed.

(** The streak after logging.  If no record of the ledger is dated after
    today and the commit goes through, then after [_log_daily_activity] the
    streak, computed at any time of the same day from what is committed, is
    at least 1. *)
Theorem streak_after_logging (env : Env) (id : Z) (s : St) :
  commit_raises env (ncommits s) = false ->
  let today := Analytics.day_of (utcnow env (reads s)) in
  (forall a, In a (daily_activities (pending (session s))) ->
             Analytics.day a <= today) ->
  exists s',
    _log_daily_activity env id s = Ok tt s' /\
    forall t : Time,
      Analytics.day_of t = today ->
      1 <= Analytics.calculate_streak
             (daily_activities (persisted (session s'))) t.
Proof.
  intros Hc today Hall.
  destruct (log_ledger_up_to_date env id s Hc Hall)
    as (s' & Hrun & Hpers & [Hex Hle]).
  exists s'. split; [exact Hrun|]. intros t Ht.
  rewrite Hpers. apply AnalyticsSpec.streak_positive; now rewrite Ht.
Qed.

Lemma streak_after_logging_witness :
  exists s',
    _log_daily_activity sample_env 1 (fresh sample_db) = Ok tt s' /\
    1 <= Analytics.calculate_streak
           (daily_activities (persisted (session s'))) 200000.
Proof.
  destruct (streak_after_logging sample_env 1 (fresh sample_db) eq_refl)
    as (s' & H1 & H2).
  - intros a [<-|[]]. vm_compute. discriminate.
  - exists s'. split; [exact H1|]. apply H2. reflexivity.
Defined.

(** *** Runs that succeed *)

Lemma returns_ret {A} (a : A) : returns (ret a).
Proof. intros s. exact I. Qed.

Lemma returns_bind {A B} (m : M A) (f : A -> M B) :
  returns m -> (forall a, returns (f a)) -> returns (bind m f).
Proof.
  intros Hm Hf s. apply wp_bind.
  eapply wp_conseq; [apply (Hm s) | | intros s' Hs'; exact Hs'].
  intros a s' _. apply (Hf a s').
Qed.

Lemma returns_call {A} (o : Outcome A) : answers o -> returns (call o).
Proof. intros [a ->] s. exact I. Qed.

Lemma returns_get_db : returns get_db.
Proof. intros s. exact I. Qed.

Lemma returns_enter k : returns (enter k).
Proof. intros s. exact I. Qed.

Lemma returns_now env : returns (now env).
Proof. intros s. exact I. Qed.

Lemma returns_commit env : no_faults env -> returns (commit env).
Proof. intros Hn s. now apply wp_commit_ok. Qed.

Lemma returns_modify_db (f : DB -> DB) : returns (modify_db f).
Proof. intros s. exact I. Qed.

Lemma returns_for_each {A} (l : list A) (f : A -> M unit) :
  (forall x, returns (f x)) -> returns (for_each l f).
Proof.
  intros Hf. induction l as [|x l IH]; cbn [for_each].
  - apply returns_ret.
  - apply returns_bind; [apply Hf | intros _; exact IH].
Qed.

Lemma returns_remote_operations env :
  dry_run env = true \/
  (answers (confirm_ask env) /\ answers (create_remote_repo env) /\
   answers (push_to_remote env)) ->
  returns (remote_operations env).
Proof.
  intros H. unfold remote_operations.
  destruct (dry_run env) eqn:Ed; [apply returns_ret|].
  destruct H as [H|(Hc & Hr & Hp)]; [discriminate|].
  apply returns_bind.
  - destruct (String.eqb (automation_mode env) "auto");
      [apply returns_ret | now apply returns_call].
  - intros [|]; [|apply returns_ret].
    apply returns_bind; [now apply returns_call|].
    intros [url|]; [now apply returns_call | apply returns_ret].
Qed.

Lemma returns_workflow_body env :
  no_faults env -> cooperative env -> returns (workflow_body env).
Proof.
  intros Hn (Hai & Hgen & Hdoc & Hmsg & Hinit & Hremote).
  unfold workflow_body, generate_project_idea, check_novelty,
    create_project_record, _update_skills, _log_daily_activity,
    _check_achievements, _unlock_achievement, update_project.
  repeat first
    [ apply returns_remote_operations; exact Hremote
    | apply returns_ret | apply returns_get_db | apply returns_now
    | apply returns_enter | apply returns_modify_db
    | apply returns_commit; exact Hn
    | apply returns_call; first [assumption | apply Hai]
    | apply returns_bind; [|intros ?]
    | apply returns_for_each; intros ?
    | match goal with
      | |- returns (match ?x with _ => _ end) => destruct x
      end ].
Qed.

(** X19.  The successful run.  When no commit raises and every collaborator that
    is consulted answers (the remote ones need not in a dry run), the run
    returns its project, under a key that no earlier project has; all
    eleven steps were entered; and the committed projects are those of
    before followed by the project of the run, committed as [completed]. *)
Theorem workflow_success (env : Env) (d : DB) :
  no_faults env ->
  cooperative env ->
  exists s',
    run_daily_workflow env (fresh d) = (Some (next_project_id (projects d)), s') /\
    log s' = steps_upto 11 /\
    (forall q, In q (projects d) -> project_id q < next_project_id (projects d)) /\
    exists p,
      projects (persisted (session s')) = projects d ++ [p] /\
      project_id p = next_project_id (projects d) /\
      status p = COMPLETED.
Proof.
  intros Hn Hc.
  pose proof (workflow_body_spec env (projects d) (fresh d) (fresh_inv d)) as H1.
  pose proof (returns_workflow_body env Hn Hc (fresh d)) as H2.
  unfold run_daily_workflow. unfold wp in H1, H2.
  destruct (workflow_body env (fresh d)) as [id s1|s1]; [|destruct H2].
  destruct H1 as [-> (_ & Hp & Hl)].
  exists (close s1). split; [reflexivity|]. split; [exact Hl|].
  split; [intros q; apply next_project_id_fresh|].
  exact Hp.
Qed.

Lemma sample_env_cooperative : cooperative sample_env.
Proof.
  unfold cooperative, answers. cbn.
  repeat split; try (eexists; reflexivity). now left.
Qed.

Lemma workflow_success_witness :
  exists s',
    run_daily_workflow sample_env (fresh sample_db) = (Some 2, s') /\
    log s' = steps_upto 11.
Proof.
  destruct (workflow_success sample_env sample_db sample_env_no_faults
                             sample_env_cooperative)
    as (s' & H1 & H2 & _).
  exists s'. split; [exact H1 | exact H2].
Defined.

Lemma keeps_wp_bind (P : DB -> Prop) {A B} (m : M A) (f : A -> M B)
      (Q : B -> St -> Prop) s :
  keeps P m -> both P s ->
  (forall a s', both P s' -> wp (f a) Q (fun _ => True) s') ->
  wp (bind m f) Q (fun _ => True) s.
Proof.
  intros Hm Hs Hf. apply wp_bind.
  eapply wp_conseq; [apply (Hm s Hs) | | intros s' _; exact I].
  intros a s' Hs'. now apply Hf.
Qed.

Ltac keeps_tables :=
  unfold generate_project_idea, check_novelty, create_project_record,
    _update_skills, remote_operations, _check_achievements,
    _unlock_achievement, update_project;
  repeat keeps_step ltac:(let H := fresh in intros ? H; exact H).

(** A run that reaches its end leaves a ledger that holds a record of the
    day of one of its clock readings and none of a later day. *)
Lemma workflow_ledger (env : Env) (d : DB) :
  no_faults env ->
  (forall a n, In a (daily_activities d) ->
               Analytics.day a <= Analytics.day_of (utcnow env n)) ->
  wp (workflow_body env)
     (fun _ s' =>
        exists n, up_to_date (Analytics.day_of (utcnow env n))
                             (daily_activities (persisted (session s'))))
     (fun _ => True) (fresh d).
Proof.
  intros Hn Hd.
  set (P1 := fun d' : DB =>
               forall a n, In a (daily_activities d') ->
                           Analytics.day a <= Analytics.day_of (utcnow env n)).
  assert (H : both P1 (fresh d)) by (split; exact Hd).
  unfold workflow_body.
  repeat lazymatch goal with
         | |- wp (bind (_log_daily_activity _ _) _) _ _ _ => fail
         | |- wp (bind _ _) _ _ _ =>
             apply (keeps_wp_bind P1) with (2 := H);
             [ keeps_tables | clear H; intros ? ? H ]
         end.
  apply wp_bind.
  match goal with
  | |- wp (_log_daily_activity env ?id) _ _ ?s =>
      destruct (log_ledger_up_to_date env id s (Hn _)
                  (fun a Ha => proj1 H a (reads s) Ha))
        as (s_log & Hrun & Hpers & Hup);
      unfold wp at 1; rewrite Hrun;
      set (today := Analytics.day_of (utcnow env (reads s))) in *
  end.
  assert (H' : both (fun d' => up_to_date today (daily_activities d')) s_log)
    by (split; [|rewrite Hpers]; exact Hup).
  clear H Hrun Hpers Hup.
  repeat lazymatch goal with
         | |- wp (bind _ _) _ _ _ =>
             apply (keeps_wp_bind
                      (fun d' => up_to_date today (daily_activities d')))
               with (2 := H');
             [ keeps_tables | clear H'; intros ? ? H' ]
         end.
  apply wp_ret. eexists. exact (proj2 H').
Qed.

(** X20.  The streak after a successful run.  When no commit raises, every
    consulted collaborator answers and no record of the ledger is dated
    after the day of a clock reading of the run, the run returns its
    project and the streak, computed from the committed ledger at any time
    of the day on which the activity was logged, is at least 1. *)
Theorem streak_after_run (env : Env) (d : DB) :
  no_faults env ->
  cooperative env ->
  (forall a n, In a (daily_activities d) ->
               Analytics.day a <= Analytics.day_of (utcnow env n)) ->
  exists s' n,
    run_daily_workflow env (fresh d) = (Some (next_project_id (projects d)), s') /\
    forall t : Time,
      Analytics.day_of t = Analytics.day_of (utcnow env n) ->
      1 <= Analytics.calculate_streak
             (daily_activities (persisted (session s'))) t.
Proof.
  intros Hn Hc Hd.
  pose proof (workflow_body_spec env (projects d) (fresh d) (fresh_inv d)) as H1.
  pose proof (returns_workflow_body env Hn Hc (fresh d)) as H2.
  pose proof (workflow_ledger env d Hn Hd) as H3.
  unfold run_daily_workflow. unfold wp in H1, H2, H3.
  destruct (workflow_body env (fresh d)) as [id s1|s1]; [|destruct H2].
  destruct H1 as [-> _]. destruct H3 as [n [Hex Hle]].
  exists (close s1), n. split; [reflexivity|].
  intros t Ht. cbn [close session persisted].
  apply AnalyticsSpec.streak_positive; now rewrite Ht.
Qed.

Lemma streak_after_run_witness :
  exists s' n,
    run_daily_workflow sample_env (fresh sample_db) = (Some 2, s') /\
    1 <= Analytics.calculate_streak
           (daily_activities (persisted (session s')))
           (utcnow sample_env n).
Proof.
  destruct (streak_after_run sample_env sample_db sample_env_no_faults
                             sample_env_cooperative)
    as (s' & n & H1 & H2).
  - intros a n [<-|[]].
    change (Analytics.day (mkDailyActivity 86400 1 1 180 ["flask"])) with 1.
    unfold Analytics.day_of. cbn [utcnow sample_env].
    apply Z.div_le_lower_bound; lia.
  - exists s', n. split; [exact H1|]. apply H2. reflexivity.
Defined.

End WorkflowEngineSpec.

(** ** Scheduler *)

Module SchedulerSpec.
Import WorkflowEngine Scheduler.

Lemma failures_from_S (retries : Z) (n : nat) :
  failures_from retries (S n) =
  RunWorkflow None :: Sleep (60 * 5 * (retries + 1))
    :: failures_from (retries + 1) n.
Proof.
  unfold failures_from. cbn [seq]. rewrite <- seq_shift.
  cbn [flat_map app]. change (Z.of_nat 1) with 1. do 2 f_equal.
  induction (seq 0 n) as [|i l IH]; [reflexivity|].
  cbn [map flat_map app]. rewrite IH.
  replace (retries + Z.of_nat (S (S i))) with (retries + 1 + Z.of_nat (S i))
    by lia.
  reflexivity.
Qed.

(** With enough fuel the retry loop ends: after [n] failed attempts, each
    followed by its wait, comes a last attempt, which succeeds or is the
    failure that exhausts the retries. *)
Lemma retry_loop_shape (envs : nat -> Env) (R : Z) :
  forall (fuel : nat) (retries : Z) (attempt : nat) (d : DB),
    0 <= retries <= R ->
    (Z.to_nat (R - retries) + 2 <= fuel)%nat ->
    exists (n : nat) (r : option Z) (d' : DB),
      Z.of_nat n <= R - retries /\
      retry_loop fuel envs R retries attempt d =
        Some (failures_from retries n ++ [RunWorkflow r], d') /\
      (r = None -> Z.of_nat n = R - retries).
Proof.
  induction fuel as [|fuel IH]; intros retries attempt d Hr Hf; [lia|].
  cbn [retry_loop].
  replace (retries <=? R) with true by (symmetry; apply Z.leb_le; lia).
  destruct (run_daily_workflow (envs attempt) (fresh d)) as [project s'].
  destruct project as [id|].
  - exists 0%nat, (Some id), (persisted (session s')).
    repeat split; [lia | discriminate].
  - destruct (retries + 1 <=? R) eqn:E.
    + apply Z.leb_le in E.
      destruct (IH (retries + 1) (S attempt) (persisted (session s')))
        as (n & r & d' & Hn & Hl & Hlast); [lia | lia |].
      exists (S n), r, d'. rewrite Hl, failures_from_S.
      repeat split; [lia | intros K; specialize (Hlast K); lia].
    + apply Z.leb_gt in E.
      destruct fuel as [|fuel]; [lia|]. cbn [retry_loop].
      replace (retries + 1 <=? R) with false by (symmetry; apply Z.leb_gt; lia).
      exists 0%nat, None, (persisted (session s')).
      repeat split; lia.
Qed.

(** The [i]-th failed attempt is followed by a wait of [300 * i]
    seconds. *)
Lemma failures_from_nth (n : nat) :
  forall (retries : Z) (i : nat),
    (i < n)%nat ->
    nth_error (failures_from retries n) (2 * i) = Some (RunWorkflow None) /\
    nth_error (failures_from retries n) (2 * i + 1) =
      Some (Sleep (300 * (retries + Z.of_nat (i + 1)))).
Proof.
  induction n as [|n IH]; intros retries i Hi; [lia|].
  rewrite failures_from_S. destruct i as [|i].
  - split; [reflexivity|].
    replace (300 * (retries + Z.of_nat (0 + 1))) with (60 * 5 * (retries + 1))
      by lia.
    reflexivity.
  - replace (2 * S i)%nat with (S (S (2 * i))) by lia.
    replace (S (S (2 * i)) + 1)%nat with (S (S (2 * i + 1))) by lia.
    cbn [nth_error].
    destruct (IH (retries + 1) i ltac:(lia)) as [H1 H2].
    split; [exact H1|]. rewrite H2.
    replace (retries + 1 + Z.of_nat (i + 1)) with (retries + Z.of_nat (S i + 1))
      by lia.
    reflexivity.
Qed.

(** C9 (as amended).  With weekend skip enabled, a fire on Saturday or
    Sunday does nothing after the jitter wait: no attempt, no retry.
    Otherwise, with [R] the number of retries in force ([max_retries] when
    [retry_on_failure] is set, 0 when it is not), the fire makes [n <= R]
    failed attempts, the [i]-th followed by a wait of [300 * i] seconds,
    and then one last attempt; that attempt succeeds, or it is the failure
    number [R + 1], after which nothing more is tried. *)
Theorem C9_scheduled_job
        (cfg : SchedulingConfig) (actual_delay weekday : Z)
        (envs : nat -> Env) (d : DB) (fuel : nat) :
  (skip_weekends cfg = true -> 5 <= weekday ->
   _scheduled_job fuel cfg actual_delay weekday envs d =
     Some (jitter_events cfg actual_delay, d)) /\
  (skip_weekends cfg = false \/ weekday < 5 ->
   0 <= retries_in_force cfg ->
   (Z.to_nat (retries_in_force cfg) + 2 <= fuel)%nat ->
   exists (n : nat) (r : option Z) (d' : DB),
     Z.of_nat n <= retries_in_force cfg /\
     _scheduled_job fuel cfg actual_delay weekday envs d =
       Some (jitter_events cfg actual_delay
               ++ failures_from 0 n ++ [RunWorkflow r], d') /\
     (forall i, (i < n)%nat ->
        nth_error (failures_from 0 n) (2 * i) = Some (RunWorkflow None) /\
        nth_error (failures_from 0 n) (2 * i + 1) =
          Some (Sleep (300 * Z.of_nat (i + 1)))) /\
     (r = None -> Z.of_nat n = retries_in_force cfg)).
Proof.
  unfold _scheduled_job. split.
  - intros Hs Hw. rewrite Hs.
    replace (5 <=? weekday) with true by (symmetry; apply Z.leb_le; lia).
    reflexivity.
  - intros Hw HR Hf.
    replace (skip_weekends cfg && (5 <=? weekday)) with false.
    2:{ symmetry. apply andb_false_iff.
        destruct Hw as [Hw|Hw]; [now left | right; apply Z.leb_gt; lia]. }
    fold (retries_in_force cfg).
    destruct (retry_loop_shape envs (retries_in_force cfg) fuel 0 0%nat d)
      as (n & r & d' & Hn & Hl & Hlast); [lia | rewrite Z.sub_0_r; exact Hf |].
    exists n, r, d'. rewrite Hl.
    split; [lia|]. split; [reflexivity|]. split; [|intros K; specialize (Hlast K); lia].
    intros i Hi. destruct (failures_from_nth n 0 i Hi) as [H1 H2].
    split; [exact H1 | exact H2].
Qed.

Lemma C9_scheduled_job_witness :
  let cfg := mkScheduling 120 true true 2 in
  let envs (n : nat) := if (n <? 2)%nat then failing_env else sample_env in
  _scheduled_job 4 cfg 77 5 envs sample_db = Some ([Sleep 77], sample_db) /\
  exists (n : nat) (r : option Z) (d' : DB),
    _scheduled_job 4 cfg 77 2 envs sample_db =
      Some ([Sleep 77] ++ failures_from 0 n ++ [RunWorkflow r], d').
Proof.
  intros cfg envs. split.
  - apply (proj1 (C9_scheduled_job cfg 77 5 envs sample_db 4)).
    + reflexivity.
    + lia.
  - destruct (proj2 (C9_scheduled_job cfg 77 2 envs sample_db 4))
      as (n & r & d' & _ & H & _).
    + right. lia.
    + subst cfg. unfold retries_in_force. simpl. lia.
    + subst cfg. unfold retries_in_force. simpl. lia.
    + exists n, r, d'. exact H.
Defined.

(** With [retry_on_failure] off, a failed attempt is not followed by any
    retry, whatever [max_retries] says. *)
Lemma C9_retry_disabled_counterexample :
  ~ (forall (fuel : nat) (cfg : SchedulingConfig) (actual_delay weekday : Z)
            (envs : nat -> Env) (d : DB) (evs : list Event) (d' : DB),
        _scheduled_job fuel cfg actual_delay weekday envs d = Some (evs, d') ->
        1 <= max_retries cfg ->
        In (RunWorkflow None) evs -> In (Sleep 300) evs).
Proof.
  intros H.
  assert (E : exists d',
             _scheduled_job 4 (mkScheduling 0 false false 3) 0 2
               (fun _ => failing_env) sample_db = Some ([RunWorkflow None], d')).
  { eexists. vm_compute. reflexivity. }
  destruct E as [d' E].
  specialize (H _ _ _ _ _ _ _ _ E ltac:(simpl; lia) (or_introl eq_refl)).
  destruct H as [H|[]]. discriminate H.
Qed.

(** *** Budget and footprint of a fire *)

Lemma slept_app (l1 l2 : list Event) : slept (l1 ++ l2) = slept l1 + slept l2.
Proof.
  unfold slept. induction l1 as [|e l1 IH]; cbn [app fold_right];
    [reflexivity|].
  rewrite IH. destruct e; lia.
Qed.

Lemma attempts_app (l1 l2 : list Event) :
  attempts (l1 ++ l2) = (attempts l1 + attempts l2)%nat.
Proof. unfold attempts. now rewrite filter_app, length_app. Qed.

Lemma retry_loop_budget (envs : nat -> Env) (R : Z) :
  forall (fuel : nat) (retries : Z) (attempt : nat) (d : DB)
         (evs : list Event) (d' : DB),
    0 <= retries ->
    retry_loop fuel envs R retries attempt d = Some (evs, d') ->
    Z.of_nat (attempts evs) <= Z.max 0 (R + 1 - retries) /\
    0 <= slept evs <= Z.max 0 (150 * (R * (R + 1) - retries * (retries + 1))).
Proof.
  induction fuel as [|fuel IH]; intros retries attempt d evs d' Hr;
    [discriminate|].
  cbn [retry_loop]. destruct (retries <=? R) eqn:E.
  2:{ intros [= <- <-].
      change (attempts []) with 0%nat. change (slept []) with 0. lia. }
  apply Z.leb_le in E.
  destruct (run_daily_workflow (envs attempt) (fresh d)) as [project s'].
  destruct project as [id|].
  - intros [= <- <-].
    change (attempts [RunWorkflow (Some id)]) with 1%nat.
    change (slept [RunWorkflow (Some id)]) with 0. lia.
  - destruct (retries + 1 <=? R) eqn:E1.
    + apply Z.leb_le in E1.
      destruct (retry_loop fuel envs R (retries + 1) (S attempt)
                           (persisted (session s')))
        as [[evs1 d1]|] eqn:Er; [|discriminate].
      intros [= <- <-].
      assert (Hr1 : 0 <= retries + 1) by lia.
      destruct (IH _ _ _ _ _ Hr1 Er) as [A1 [S0 S1]].
      match goal with
      | |- context [Sleep ?x] => change x with (300 * (retries + 1))
      end.
      change (attempts (RunWorkflow None
                          :: Sleep (300 * (retries + 1)) :: evs1))
        with (S (attempts evs1)).
      change (slept (RunWorkflow None
                       :: Sleep (300 * (retries + 1)) :: evs1))
        with (300 * (retries + 1) + slept evs1).
      split; [lia|]. nia.
    + apply Z.leb_gt in E1.
      destruct (retry_loop fuel envs R (retries + 1) (S attempt)
                           (persisted (session s')))
        as [[evs1 d1]|] eqn:Er; [|discriminate].
      intros [= <- <-].
      assert (Hr1 : 0 <= retries + 1) by lia.
      destruct (IH _ _ _ _ _ Hr1 Er) as [A1 [S0 S1]].
      change (attempts (RunWorkflow None :: evs1)) with (S (attempts evs1)).
      change (slept (RunWorkflow None :: evs1)) with (slept evs1).
      split; [lia|]. nia.
Qed.

(** X21.  Budget of a fire.  With [R] the number of retries in force, a fire
    invokes the workflow at most [R + 1] times and sleeps at most the jitter
    delay plus [150 * R * (R + 1)] seconds; with the retries of a validated
    configuration, at most 10, these are 11 invocations and the delay plus
    16500 seconds. *)
Theorem fire_budget
        (cfg : SchedulingConfig) (actual_delay weekday : Z)
        (envs : nat -> Env) (d : DB) (fuel : nat)
        (evs : list Event) (d' : DB) :
  0 <= actual_delay ->
  0 <= retries_in_force cfg ->
  _scheduled_job fuel cfg actual_delay weekday envs d = Some (evs, d') ->
  let R := retries_in_force cfg in
  Z.of_nat (attempts evs) <= R + 1 /\
  0 <= slept evs <= actual_delay + 150 * R * (R + 1) /\
  (R <= 10 ->
   (attempts evs <= 11)%nat /\ slept evs <= actual_delay + 16500).
Proof.
  intros Hd HR Hjob R.
  assert (Hj : attempts (jitter_events cfg actual_delay) = 0%nat /\
               0 <= slept (jitter_events cfg actual_delay) <= actual_delay).
  { unfold jitter_events.
    destruct (0 <? time_randomization_minutes cfg); cbn; lia. }
  destruct Hj as [Hj1 Hj2].
  assert (Hmain : Z.of_nat (attempts evs) <= R + 1 /\
                  0 <= slept evs <= actual_delay + 150 * R * (R + 1)).
  { unfold _scheduled_job in Hjob.
    destruct (skip_weekends cfg && (5 <=? weekday)).
    - injection Hjob as <- <-. rewrite Hj1. subst R. nia.
    - fold (retries_in_force cfg) in Hjob. fold R in Hjob.
      destruct (retry_loop fuel envs R 0 0 d) as [[evs1 d1]|] eqn:Er;
        [|discriminate].
      injection Hjob as <- <-.
      destruct (retry_loop_budget envs R _ _ _ _ _ _ (Z.le_refl 0) Er)
        as [A1 [S0 S1]].
      rewrite attempts_app, slept_app, Hj1. subst R. nia. }
  destruct Hmain as [A [S0 S1]].
  split; [exact A|]. split; [split; assumption|].
  intros H10. split; [lia | nia].
Qed.

Lemma fire_budget_witness :
  let cfg := mkScheduling 120 true true 2 in
  let envs (n : nat) := if (n <? 2)%nat then failing_env else sample_env in
  match _scheduled_job 4 cfg 77 2 envs sample_db with
  | Some (evs, _) => Z.of_nat (attempts evs) <= 3 /\ slept evs <= 77 + 900
  | None => False
  end.
Proof.
  intros cfg envs.
  destruct (_scheduled_job 4 cfg 77 2 envs sample_db) as [[evs d']|] eqn:E.
  - destruct (fire_budget cfg 77 2 envs sample_db 4 evs d') as [A [[_ S1] _]].
    + lia.
    + vm_compute. discriminate.
    + exact E.
    + split; [exact A | exact S1].
  - vm_compute in E. discriminate E.
Defined.

Lemma run_projects (env : Env) (d : DB) :
  exists added,
    projects (persisted (session (snd (run_daily_workflow env (fresh d)))))
    = projects d ++ added /\
    (List.length added <= 1)%nat.
Proof.
  pose proof (WorkflowEngineSpec.workflow_body_spec
                env (projects d) (fresh d) (WorkflowEngineSpec.fresh_inv d))
    as H.
  unfold run_daily_workflow. unfold wp in H.
  destruct (workflow_body env (fresh d)) as [id s1|s1];
    cbn [snd close session persisted].
  - destruct H as [_ (_ & [p [Hp _]] & _)].
    exists [p]. split; [exact Hp | simpl; lia].
  - destruct H as (k & b & _ & _ & Hp & _).
    destruct b as [st|]; cbn [proj_state] in Hp.
    + destruct Hp as [p [Hp _]]. exists [p]. split; [exact Hp | simpl; lia].
    + exists []. rewrite app_nil_r. split; [exact Hp | simpl; lia].
Qed.

Lemma retry_loop_projects (envs : nat -> Env) (R : Z) :
  forall (fuel : nat) (retries : Z) (attempt : nat) (d : DB)
         (evs : list Event) (d' : DB),
    retry_loop fuel envs R retries attempt d = Some (evs, d') ->
    exists added,
      projects d' = projects d ++ added /\
      (List.length added <= attempts evs)%nat.
Proof.
  induction fuel as [|fuel IH]; intros retries attempt d evs d';
    [discriminate|].
  cbn [retry_loop]. destruct (retries <=? R).
  2:{ intros [= <- <-]. exists []. rewrite app_nil_r.
      split; [reflexivity | simpl; lia]. }
  pose proof (run_projects (envs attempt) d) as [added [Hadd Hlen]].
  destruct (run_daily_workflow (envs attempt) (fresh d)) as [project s'].
  cbn [snd] in Hadd.
  destruct project as [id|].
  - intros [= <- <-]. exists added.
    split; [exact Hadd | cbn; lia].
  - assert (Hrec : forall evs1 d1,
               retry_loop fuel envs R (retries + 1) (S attempt)
                          (persisted (session s')) = Some (evs1, d1) ->
               exists added1,
                 projects d1 = projects d ++ added1 /\
                 (List.length added1 <= S (attempts evs1))%nat).
    { intros evs1 d1 Er. destruct (IH _ _ _ _ _ Er) as [added1 [H1 H2]].
      exists (added ++ added1). rewrite H1, Hadd, <- app_assoc.
      split; [reflexivity|]. rewrite length_app. lia. }
    destruct (retries + 1 <=? R);
      destruct (retry_loop fuel envs R (retries + 1) (S attempt)
                           (persisted (session s')))
        as [[evs1 d1]|] eqn:Er; try discriminate;
      intros [= <- <-];
      destruct (Hrec _ _ eq_refl) as [added1 [H1 H2]];
      exists added1; (split; [exact H1|]); exact H2.
Qed.

(** X22.  Footprint of a fire.  A fire leaves every project row that was
    committed before it as it was and in its place, and appends at most one
    row per invocation of the workflow: a failed attempt can leave its
    project behind, and the retry then starts a new one. *)
Theorem fire_projects
        (cfg : SchedulingConfig) (actual_delay weekday : Z)
        (envs : nat -> Env) (d : DB) (fuel : nat)
        (evs : list Event) (d' : DB) :
  _scheduled_job fuel cfg actual_delay weekday envs d = Some (evs, d') ->
  exists added,
    projects d' = projects d ++ added /\
    (List.length added <= attempts evs)%nat.
Proof.
  unfold _scheduled_job.
  destruct (skip_weekends cfg && (5 <=? weekday)).
  - intros [= <- <-]. exists []. rewrite app_nil_r.
    split; [reflexivity | simpl; lia].
  - destruct (retry_loop fuel envs _ 0 0 d) as [[evs1 d1]|] eqn:Er;
      [|discriminate].
    intros [= <- <-].
    destruct (retry_loop_projects _ _ _ _ _ _ _ _ Er) as [added [H1 H2]].
    exists added. split; [exact H1|]. rewrite attempts_app. lia.
Qed.

Lemma fire_projects_witness :
  let cfg := mkScheduling 120 true true 2 in
  let envs (n : nat) := if (n <? 2)%nat then failing_env else sample_env in
  match _scheduled_job 4 cfg 77 2 envs sample_db with
  | Some (evs, d') =>
      exists added, projects d' = projects sample_db ++ added /\
                    (List.length added <= attempts evs)%nat
  | None => False
  end.
Proof.
  intros cfg envs.
  destruct (_scheduled_job 4 cfg 77 2 envs sample_db) as [[evs d']|] eqn:E.
  - exact (fire_projects cfg 77 2 envs sample_db 4 evs d' E).
  - vm_compute in E. discriminate E.
Defined.

End SchedulerSpec.

(** ** Seeding the tables *)

Module DatabaseManagerSpec.
Import Database WorkflowEngine DatabaseManager.

Lemma add_skills_names (data : list (string * ProjectCategory))
      (clock : nat -> Time) :
  forall i, map skill_name (add_skills data clock i) = map fst data.
Proof.
  induction data as [|[name category] data IH]; intros i;
    cbn [add_skills map fst skill_name new_skill]; [reflexivity|].
  now rewrite IH.
Qed.

Lemma add_skills_fresh (data : list (string * ProjectCategory))
      (clock : nat -> Time) :
  forall i s, In s (add_skills data clock i) ->
              proficiency s = 0%Q /\ projects_count s = 0 /\
              last_used s = None /\
              In (skill_name s, skill_category s) data.
Proof.
  induction data as [|[name category] data IH]; intros i s;
    cbn [add_skills]; [intros []|].
  intros [<-|H].
  - cbn. repeat split. now left.
  - destruct (IH _ _ H) as (H1 & H2 & H3 & H4). repeat split; auto.
    now right.
Qed.

Lemma has_skill_in (skills : list Skill) (name : string) :
  has_skill skills name = true <-> In name (map skill_name skills).
Proof.
  unfold has_skill. rewrite existsb_exists, in_map_iff. split.
  - intros [s [Hin He]]. apply String.eqb_eq in He. now exists s.
  - intros [s [He Hin]]. exists s. split; [exact Hin|].
    now apply String.eqb_eq.
Qed.

Lemma has_achievement_in (l : list Achievement) (name : string) :
  has_achievement l name = true <-> In name (map achievement_name l).
Proof.
  unfold has_achievement. rewrite existsb_exists, in_map_iff. split.
  - intros [s [Hin He]]. apply String.eqb_eq in He. now exists s.
  - intros [s [He Hin]]. exists s. split; [exact Hin|].
    now apply String.eqb_eq.
Qed.

Lemma filter_none {A} (f : A -> bool) (l : list A) :
  (forall a, In a l -> f a = false) -> filter f l = [].
Proof.
  induction l as [|x l IH]; intros H; cbn [filter]; [reflexivity|].
  rewrite (H x (or_introl eq_refl)). apply IH. intros a Ha. apply H.
  now right.
Qed.

Lemma NoDup_map_filter {A B} (g : A -> B) (f : A -> bool) (l : list A) :
  NoDup (map g l) -> NoDup (map g (filter f l)).
Proof.
  induction l as [|x l IH]; cbn [map filter]; intros H; [constructor|].
  apply NoDup_cons_iff in H. destruct H as [Hx H].
  destruct (f x); cbn [map]; [|now apply IH].
  constructor; [|now apply IH].
  intros Hin. apply Hx. apply in_map_iff in Hin.
  destruct Hin as [y [Hy Hin]]. apply filter_In in Hin.
  apply in_map_iff. exists y. tauto.
Qed.

Lemma seed_skills_names (skills : list Skill) (clock : nat -> Time) :
  map skill_name (seed_skills skills clock) =
  map skill_name skills
  ++ map fst (filter (fun d => negb (has_skill skills (fst d))) default_skills).
Proof. unfold seed_skills. now rewrite map_app, add_skills_names. Qed.

Lemma seed_skills_complete (skills : list Skill) (clock : nat -> Time)
      (name : string) (category : ProjectCategory) :
  In (name, category) default_skills ->
  has_skill (seed_skills skills clock) name = true.
Proof.
  intros Hin. apply has_skill_in. rewrite seed_skills_names, in_app_iff.
  destruct (has_skill skills name) eqn:E.
  - left. now apply has_skill_in.
  - right. apply in_map_iff. exists (name, category). split; [reflexivity|].
    apply filter_In. split; [exact Hin|]. cbn [fst]. now rewrite E.
Qed.

Lemma seed_skills_again (skills : list Skill) (clock clock' : nat -> Time) :
  seed_skills (seed_skills skills clock) clock' = seed_skills skills clock.
Proof.
  unfold seed_skills at 1. rewrite filter_none; [apply app_nil_r|].
  intros [name category] Hin. cbn [fst].
  now rewrite (seed_skills_complete skills clock name category Hin).
Qed.

Lemma initialize_achievements_complete (l : list Achievement)
      (a : Achievement) :
  In a default_achievements ->
  has_achievement (initialize_achievements l) (achievement_name a) = true.
Proof.
  intros Hin. apply has_achievement_in. unfold initialize_achievements.
  rewrite map_app, in_app_iff.
  destruct (has_achievement l (achievement_name a)) eqn:E.
  - left. now apply has_achievement_in.
  - right. apply in_map. apply filter_In. split; [exact Hin|].
    now rewrite E.
Qed.

Lemma initialize_achievements_again (l : list Achievement) :
  initialize_achievements (initialize_achievements l) =
  initialize_achievements l.
Proof.
  unfold initialize_achievements at 1. rewrite filter_none; [apply app_nil_r|].
  intros a Hin. now rewrite (initialize_achievements_complete l a Hin).
Qed.

(** X23.  Seeding.  [initialize_default_skills] keeps every row of the skill and
    achievement tables as it is and in its place, so a proficiency or an
    unlocked achievement is never reset; what it appends are skills at
    proficiency 0 with no project, under names the table did not have, and
    locked achievements; afterwards every default skill and achievement is
    present; names that were distinct stay distinct; the other tables are
    untouched; and seeding a second time changes nothing. *)
Theorem seeding_is_idempotent (d : DB) (clock clock' : nat -> Time) :
  let d1 := initialize_default_skills d clock in
  (exists added,
      skills d1 = skills d ++ added /\
      forall s, In s added ->
                proficiency s = 0%Q /\ projects_count s = 0 /\
                In (skill_name s, skill_category s) default_skills /\
                ~ In (skill_name s) (map skill_name (skills d))) /\
  (exists added,
      achievements d1 = achievements d ++ added /\
      forall a, In a added -> is_unlocked a = false /\
                              In a default_achievements) /\
  (forall name category, In (name, category) default_skills ->
                         has_skill (skills d1) name = true) /\
  (forall a, In a default_achievements ->
             has_achievement (achievements d1) (achievement_name a) = true) /\
  (NoDup (map skill_name (skills d)) -> NoDup (map skill_name (skills d1))) /\
  (NoDup (map achievement_name (achievements d)) ->
   NoDup (map achievement_name (achievements d1))) /\
  (projects d1 = projects d /\ commits d1 = commits d /\
   daily_activities d1 = daily_activities d) /\
  initialize_default_skills d1 clock' = d1.
Proof.
  intros d1. subst d1. unfold initialize_default_skills.
  cbn [projects skills project_skills commits daily_activities achievements].
  split; [|split; [|split; [|split; [|split; [|split; [|split]]]]]].
  - eexists. split; [reflexivity|]. intros s Hs.
    destruct (add_skills_fresh _ _ _ _ Hs) as (H1 & H2 & _ & H4).
    apply filter_In in H4. destruct H4 as [H4 H5]. cbn [fst] in H5.
    repeat split; auto.
    intros Hin. apply has_skill_in in Hin. rewrite Hin in H5. discriminate.
  - eexists. split; [reflexivity|]. intros a Ha.
    apply filter_In in Ha. destruct Ha as [Ha _]. split; [|exact Ha].
    repeat (destruct Ha as [<-|Ha]; [reflexivity|]). destruct Ha.
  - intros name category. apply seed_skills_complete.
  - apply initialize_achievements_complete.
  - intros Hnd. rewrite seed_skills_names.
    apply NoDup_app; [exact Hnd | |].
    + apply NoDup_map_filter. cbn. repeat constructor; simpl; intuition congruence.
    + intros name Hin Hin'. apply in_map_iff in Hin'.
      destruct Hin' as [[n c] [Hn Hf]]. cbn [fst] in Hn. subst n.
      apply filter_In in Hf. destruct Hf as [_ Hf]. cbn [fst] in Hf.
      apply has_skill_in in Hin. rewrite Hin in Hf. discriminate.
  - intros Hnd. unfold initialize_achievements. rewrite map_app.
    apply NoDup_app; [exact Hnd | |].
    + apply NoDup_map_filter. cbn. repeat constructor; simpl; intuition congruence.
    + intros name Hin Hin'. apply in_map_iff in Hin'.
      destruct Hin' as [a [Hn Hf]]. subst name.
      apply filter_In in Hf. destruct Hf as [_ Hf].
      apply has_achievement_in in Hin. rewrite Hin in Hf. discriminate.
  - repeat split.
  - now rewrite seed_skills_again, initialize_achievements_again.
Qed.

Lemma seeding_is_idempotent_witness :
  let d1 := initialize_default_skills sample_db (fun n => Z.of_nat n) in
  NoDup (map skill_name (skills d1)) /\
  initialize_default_skills d1 (fun n => 7 + Z.of_nat n) = d1.
Proof.
  intros d1.
  destruct (seeding_is_idempotent sample_db (fun n => Z.of_nat n)
                                  (fun n => 7 + Z.of_nat n))
    as (_ & _ & _ & _ & H5 & _ & _ & H8).
  split; [|exact H8]. apply H5.
  cbn. repeat constructor; simpl; intuition congruence.
Defined.

(** X24.  Find or create.  The row returned by [get_or_create_skill] bears the
    requested name and is in the table afterwards; a name that is present
    leaves the table as it is and yields the first row of that name, with
    the category it has, whatever category is asked for; a name that is
    absent is appended at proficiency 0; and asking again, for any
    category, changes nothing and returns the same row. *)
Theorem get_or_create_skill_lookup
        (skills : list Skill) (name : string)
        (category category' : ProjectCategory) (t t' : Time) :
  let r := get_or_create_skill skills name category t in
  skill_name (snd r) = name /\
  In (snd r) (fst r) /\
  (has_skill skills name = true ->
   fst r = skills /\ In (snd r) skills) /\
  (has_skill skills name = false ->
   fst r = skills ++ [new_skill name category t]) /\
  get_or_create_skill (fst r) name category' t' = r.
Proof.
  intros r. subst r. unfold get_or_create_skill.
  destruct (find (fun s => String.eqb (skill_name s) name) skills)
    as [skill|] eqn:E; cbn [fst snd].
  - pose proof (find_some _ _ E) as [Hin He]. apply String.eqb_eq in He.
    split; [exact He|]. split; [exact Hin|]. split; [auto|]. split.
    + intros Hn.
      assert (Hy : has_skill skills name = true).
      { apply has_skill_in, in_map_iff. now exists skill. }
      congruence.
    + now rewrite E.
  - split; [reflexivity|]. split; [apply in_app_iff; right; now left|].
    split.
    + intros H. unfold has_skill in H. apply existsb_exists in H.
      destruct H as [s [Hin He]]. apply (find_none _ _ E) in Hin.
      cbv beta in Hin. congruence.
    + split; [reflexivity|].
      assert (Hf : find (fun s => String.eqb (skill_name s) name)
                        (skills ++ [new_skill name category t])
                   = Some (new_skill name category t)).
      { clear -E. induction skills as [|s skills IH]; cbn [find app].
        - cbn [new_skill skill_name]. now rewrite String.eqb_refl.
        - cbn [find] in E.
          destruct (String.eqb (skill_name s) name); [discriminate|].
          now apply IH. }
      now rewrite Hf.
Qed.

Lemma get_or_create_skill_lookup_witness :
  let r := get_or_create_skill (skills sample_db) "REST APIs" AI_ML 5 in
  fst r = skills sample_db /\ In (snd r) (skills sample_db) /\
  skill_category (snd r) = FULL_STACK.
Proof.
  intros r.
  destruct (proj1 (proj2 (proj2 (get_or_create_skill_lookup
                                   (skills sample_db) "REST APIs"
                                   AI_ML AI_ML 5 5))) eq_refl)
    as [H1 H2].
  split; [exact H1|]. split; [exact H2 | reflexivity].
Defined.

Lemma seeded_gap (focus_areas : list (string * Z)) (clock : nat -> Time)
      (c : ProjectCategory) :
  (SkillMapper.gap_score
     (SkillMapper.dict_get focus_areas (category_value c) 0)
     (SkillMapper.avg_proficiency
        (SkillMapper.get_skills_for_category (seed_skills [] clock) c))
   == inject_Z (SkillMapper.dict_get focus_areas (category_value c) 0))%Q.
Proof.
  assert (Havg : (SkillMapper.avg_proficiency
                    (SkillMapper.get_skills_for_category
                       (seed_skills [] clock) c) == 0)%Q)
    by (destruct c; reflexivity).
  unfold SkillMapper.gap_score. rewrite Havg. field.
Qed.

(** X25.  The first project on a fresh database.  On the tables seeded from
    nothing every skill stands at 0, so the gap of a category is its focus
    weight: the category selected for the project has the greatest focus
    weight, and the first such category of the enumeration when several
    have it. *)
Theorem fresh_database_selects_heaviest
        (focus_areas : list (string * Z)) (clock : nat -> Time) :
  let skills := seed_skills [] clock in
  let weight c := SkillMapper.dict_get focus_areas (category_value c) 0 in
  let selected := SkillMapper.select_category_for_project focus_areas skills in
  (forall c, weight c <= weight selected) /\
  (forall c, (SkillMapper.category_rank c
              < SkillMapper.category_rank selected)%nat ->
             weight c < weight selected).
Proof.
  intros skills weight selected.
  set (gap := fun c =>
                SkillMapper.gap_score
                  (SkillMapper.dict_get focus_areas (category_value c) 0)
                  (SkillMapper.avg_proficiency
                     (SkillMapper.get_skills_for_category skills c))).
  assert (Hs : selected
               = fst (SkillMapper.max_item (AI_ML, gap AI_ML)
                        [(FULL_STACK, gap FULL_STACK);
                         (SYSTEM_DESIGN, gap SYSTEM_DESIGN);
                         (SECURITY_BLOCKCHAIN, gap SECURITY_BLOCKCHAIN)]))
    by reflexivity.
  destruct (SkillMapperSpec.max_item_categories gap) as [H1 H2].
  rewrite <- Hs in H1, H2. subst gap. cbv beta in H1, H2.
  assert (Heq_le : forall x y : Q, (x == y)%Q -> (x <= y)%Q)
    by (intros x y H; apply Qle_lteq; now right).
  split.
  - intros c. specialize (H1 c). rewrite Zle_Qle.
    eapply Qle_trans;
      [apply Heq_le; symmetry; apply (seeded_gap focus_areas clock c)|].
    eapply Qle_trans; [exact H1|].
    apply Heq_le. apply (seeded_gap focus_areas clock selected).
  - intros c Hc. specialize (H2 c Hc). rewrite Zlt_Qlt.
    eapply Qle_lt_trans;
      [apply Heq_le; symmetry; apply (seeded_gap focus_areas clock c)|].
    eapply Qlt_le_trans; [exact H2|].
    apply Heq_le. apply (seeded_gap focus_areas clock selected).
Qed.

End DatabaseManagerSpec.

(** ** Environment variables in the configuration *)

Module ConfigManagerSpec.
Import ConfigManager.

Section DataInduction.
Variable P : Data -> Prop.
Hypothesis Hdict :
  forall items, Forall (fun kv => P (snd kv)) items -> P (DDict items).
Hypothesis Hlist : forall items, Forall P items -> P (DList items).
Hypothesis Hstr : forall s, P (DStr s).
Hypothesis Hscalar : forall n, P (DScalar n).

Fixpoint Data_induction (d : Data) : P d :=
  match d with
  | DDict items =>
      Hdict items
        ((fix go (l : list (string * Data))
            : Forall (fun kv => P (snd kv)) l :=
            match l with
            | [] => Forall_nil _
            | kv :: l' =>
                Forall_cons kv
                  (match kv return P (snd kv) with
                   | (k, v) => Data_induction v
                   end)
                  (go l')
            end) items)
  | DList items =>
      Hlist items
        ((fix go (l : list Data) : Forall P l :=
            match l with
            | [] => Forall_nil _
            | v :: l' => Forall_cons v (Data_induction v) (go l')
            end) items)
  | DStr s => Hstr s
  | DScalar n => Hscalar n
  end.
End DataInduction.

Lemma substring_skip (x y : string) (m : nat) :
  String.substring (String.length x) m (x ++ y) = String.substring 0 m y.
Proof. induction x as [|c x IH]; simpl; [reflexivity | exact IH]. Qed.

Lemma substring_prefix (x y : string) :
  String.substring 0 (String.length x) (x ++ y) = x.
Proof.
  induction x as [|c x IH]; simpl; [now destruct y | now rewrite IH].
Qed.

Lemma placeholder_of_name (name : string) :
  is_placeholder ("${" ++ name ++ "}") = true /\
  Py.str_slice ("${" ++ name ++ "}") 2 (-1) = name.
Proof.
  split.
  - unfold is_placeholder. apply andb_true_iff. split.
    + unfold Py.startswith. simpl. now destruct (name ++ "}")%string.
    + unfold Py.endswith.
      change ("${" ++ name ++ "}")%string
        with (String "$" (String "{" (name ++ "}"))).
      cbn [String.length].
      rewrite PyFacts.length_append. cbn [String.length].
      replace (S (S (String.length name + 1)) - 1)%nat
        with (S (S (String.length name))) by lia.
      cbn [String.substring Nat.leb andb].
      rewrite substring_skip. reflexivity.
  - unfold Py.str_slice, Py.clip.
    change ("${" ++ name ++ "}")%string
      with (String "$" (String "{" (name ++ "}"))).
    cbn [String.length]. rewrite PyFacts.length_append. cbn [String.length].
    cbv zeta.
    change (2 <? 0) with false. change (-1 <? 0) with true. cbv iota.
    replace (Z.to_nat (Z.min 2 (Z.of_nat (S (S (String.length name + 1))))))
      with 2%nat by lia.
    replace (Z.to_nat
               (Z.max 0 (Z.of_nat (S (S (String.length name + 1))) + -1)
                - Z.min 2 (Z.of_nat (S (S (String.length name + 1))))))
      with (String.length name) by lia.
    cbn [String.substring]. apply substring_prefix.
Qed.

Lemma same_shape_refl (d : Data) : same_shape d d.
Proof.
  induction d as [items IH|items IH|s|n] using Data_induction;
    cbn [same_shape]; auto.
  - induction IH as [|[k v] items Hv _ IH']; [exact I|].
    cbn [snd] in Hv. auto.
  - induction IH as [|v items Hv _ IH']; [exact I|]. auto.
Qed.

(** X26.  Substitution of environment variables.  With no variable set the
    configuration comes back as it is.  A string [${NAME}] becomes the
    value of [NAME] when the variable is set and stays as written when it
    is not; a string that is not of this form is never touched.  The result
    has the shape of the input: the same keys in the same order, lists of
    the same length, the same scalars.  A value is inserted as it is, not
    expanded again, so a second pass changes nothing exactly as long as no
    value is itself of the form [${...}]. *)
Theorem substitute_env_vars_spec :
  (forall data, _substitute_env_vars (fun _ => None) data = data) /\
  (forall getenv name value,
      getenv name = Some value ->
      _substitute_env_vars getenv (DStr ("${" ++ name ++ "}")) = DStr value) /\
  (forall getenv name,
      getenv name = None ->
      _substitute_env_vars getenv (DStr ("${" ++ name ++ "}"))
      = DStr ("${" ++ name ++ "}")) /\
  (forall getenv s,
      is_placeholder s = false ->
      _substitute_env_vars getenv (DStr s) = DStr s) /\
  (forall getenv data, same_shape data (_substitute_env_vars getenv data)) /\
  (forall getenv data,
      (forall name value, getenv name = Some value ->
                          is_placeholder value = false) ->
      _substitute_env_vars getenv (_substitute_env_vars getenv data)
      = _substitute_env_vars getenv data).
Proof.
  split; [|split; [|split; [|split; [|split]]]].
  - intros data.
    induction data as [items IH|items IH|s|n] using Data_induction;
      cbn [_substitute_env_vars].
    + f_equal. induction IH as [|[k v] items Hv _ IH']; [reflexivity|].
      cbn [map snd] in *. now rewrite Hv, IH'.
    + f_equal. induction IH as [|v items Hv _ IH']; [reflexivity|].
      cbn [map]. now rewrite Hv, IH'.
    + now destruct (is_placeholder s).
    + reflexivity.
  - intros getenv name value H. cbn [_substitute_env_vars].
    destruct (placeholder_of_name name) as [H1 H2].
    rewrite H1. cbv zeta. now rewrite H2, H.
  - intros getenv name H. cbn [_substitute_env_vars].
    destruct (placeholder_of_name name) as [H1 H2].
    rewrite H1. cbv zeta. now rewrite H2, H.
  - intros getenv s H. cbn [_substitute_env_vars]. now rewrite H.
  - intros getenv data.
    induction data as [items IH|items IH|s|n] using Data_induction;
      cbn [_substitute_env_vars same_shape].
    + induction IH as [|[k v] items Hv _ IH']; [exact I|].
      cbn [map snd] in *. auto.
    + induction IH as [|v items Hv _ IH']; [exact I|].
      cbn [map]. auto.
    + destruct (is_placeholder s); [|exact I]. cbv zeta.
      now destruct (getenv (Py.str_slice s 2 (-1))).
    + reflexivity.
  - intros getenv data Henv.
    induction data as [items IH|items IH|s|n] using Data_induction;
      cbn [_substitute_env_vars].
    + f_equal. induction IH as [|[k v] items Hv _ IH']; [reflexivity|].
      cbn [map snd] in *. now rewrite Hv, IH'.
    + f_equal. induction IH as [|v items Hv _ IH']; [reflexivity|].
      cbn [map]. now rewrite Hv, IH'.
    + destruct (is_placeholder s) eqn:E; cbv zeta.
      * destruct (getenv (Py.str_slice s 2 (-1))) as [value|] eqn:Eg;
          cbn [_substitute_env_vars].
        -- now rewrite (Henv _ _ Eg).
        -- rewrite E. cbv zeta. now rewrite Eg.
      * cbn [_substitute_env_vars]. now rewrite E.
    + reflexivity.
Qed.

Lemma substitute_env_vars_spec_witness :
  let getenv (name : string) :=
    if String.eqb name "GITHUB_USERNAME" then Some "octocat" else None in
  let data :=
    DDict [("github", DDict [("username", DStr "${GITHUB_USERNAME}");
                             ("token", DStr "${GITHUB_TOKEN}")]);
           ("retries", DScalar 3)] in
  _substitute_env_vars getenv (DStr ("${" ++ "GITHUB_USERNAME" ++ "}"))
  = DStr "octocat" /\
  _substitute_env_vars getenv (_substitute_env_vars getenv data)
  = _substitute_env_vars getenv data.
Proof.
  intros getenv data. split.
  - apply (proj1 (proj2 substitute_env_vars_spec)). reflexivity.
  - apply (proj2 (proj2 (proj2 (proj2 (proj2 substitute_env_vars_spec))))).
    intros name value. subst getenv. cbv beta.
    destruct (String.eqb name "GITHUB_USERNAME"); [|discriminate].
    intros [= <-]. reflexivity.
Defined.

(** X27.  The token that is not set.  When [GITHUB_TOKEN] is not set, or is set
    to the empty string, the token entry [${GITHUB_TOKEN}] of the
    configuration does not pass the test of [GitManager.__init__]: no
    GitHub client is created. *)
Theorem unset_token_is_not_configured (getenv : string -> option string) :
  getenv "GITHUB_TOKEN" = None \/ getenv "GITHUB_TOKEN" = Some "" ->
  exists token,
    _substitute_env_vars getenv (DStr "${GITHUB_TOKEN}") = DStr token /\
    token_configured token = false.
Proof.
  intros H. cbn [_substitute_env_vars].
  change (is_placeholder "${GITHUB_TOKEN}") with true. cbv iota zeta.
  change (Py.str_slice "${GITHUB_TOKEN}" 2 (-1)) with "GITHUB_TOKEN".
  destruct H as [H|H]; rewrite H; eexists; split; reflexivity.
Qed.

Lemma unset_token_is_not_configured_witness :
  exists token,
    _substitute_env_vars (fun _ => None) (DStr "${GITHUB_TOKEN}") = DStr token /\
    token_configured token = false.
Proof.
  apply (unset_token_is_not_configured (fun _ => None)). now left.
Defined.

End ConfigManagerSpec.

(** ** Names of directories and repositories *)

Module CodeGeneratorSpec.
Import CodeGenerator.

Ltac by_cases_on_char c :=
  destruct c as [[] [] [] [] [] [] [] []]; vm_compute;
  try reflexivity; try (intros; discriminate); auto.

Lemma kept_lower_plain (c : ascii) :
  kept (Py.lower_ascii c) = true ->
  plain (if Ascii.eqb (Py.lower_ascii c) " " then "-"%char
         else Py.lower_ascii c) = true.
Proof. by_cases_on_char c. Qed.

Lemma plain_fixed (c : ascii) :
  plain c = true ->
  Py.lower_ascii c = c /\ kept c = true /\ Ascii.eqb c " " = false /\
  Ascii.eqb c "_" || Py.isupper c = Ascii.eqb c "_".
Proof. by_cases_on_char c. Qed.

Lemma all_chars_excludes (p : ascii -> bool) (c : ascii) (s : string) :
  Py.all_chars p s = true -> p c = false ->
  Py.contains (String c "") s = false.
Proof.
  intros Hs Hc. induction s as [|d s IH].
  - reflexivity.
  - cbn [Py.all_chars] in Hs. apply andb_true_iff in Hs.
    destruct Hs as [Hd Hs].
    change (Py.contains (String c "") (String d s))
      with (String.prefix (String c "") (String d s)
            || Py.contains (String c "") s).
    rewrite (IH Hs), orb_false_r. cbn [String.prefix].
    destruct (Ascii.ascii_dec c d) as [->|]; [congruence | reflexivity].
Qed.

Lemma sanitize_plain (name : string) :
  Py.all_chars plain (_sanitize_name name) = true.
Proof.
  unfold _sanitize_name. cbv zeta.
  induction name as [|c name IH]; [reflexivity|].
  cbn [Py.lower Py.filter_chars].
  destruct (kept (Py.lower_ascii c)) eqn:E; [|exact IH].
  cbn [Py.replace_char Py.all_chars].
  now rewrite (kept_lower_plain c E), IH.
Qed.

Lemma sanitize_fixed (r : string) :
  Py.all_chars plain r = true -> _sanitize_name r = r.
Proof.
  unfold _sanitize_name. cbv zeta.
  induction r as [|c r IH]; [reflexivity|].
  cbn [Py.all_chars]. intros H. apply andb_true_iff in H.
  destruct H as [Hc Hr].
  destruct (plain_fixed c Hc) as (H1 & H2 & H3 & _).
  cbn [Py.lower Py.filter_chars]. rewrite H1, H2.
  cbn [Py.replace_char]. now rewrite H3, (IH Hr).
Qed.

Lemma sanitize_length (name : string) :
  (String.length (_sanitize_name name) <= String.length name)%nat.
Proof.
  unfold _sanitize_name. cbv zeta.
  induction name as [|c name IH]; [simpl; lia|].
  cbn [Py.lower Py.filter_chars].
  destruct (kept (Py.lower_ascii c));
    cbn [Py.replace_char String.length]; lia.
Qed.

(** X28.  Directory names.  The name that [_sanitize_name] derives from a title
    consists of lower-case letters, digits, hyphens and underscores only:
    it holds no path separator, no dot and no blank, so the project
    directory is a direct child of the output directory.  The name is not
    longer than the title, and sanitizing it again gives the same name. *)
Theorem sanitize_name_is_plain (name : string) :
  let r := _sanitize_name name in
  Py.all_chars plain r = true /\
  Py.contains "/" r = false /\
  Py.contains "." r = false /\
  Py.contains " " r = false /\
  (String.length r <= String.length name)%nat /\
  _sanitize_name r = r.
Proof.
  intros r. pose proof (sanitize_plain name) as H. fold r in H.
  split; [exact H|].
  split; [now apply (all_chars_excludes plain)|].
  split; [now apply (all_chars_excludes plain)|].
  split; [now apply (all_chars_excludes plain)|].
  split; [apply sanitize_length | now apply sanitize_fixed].
Qed.

Lemma repo_name_chars (title : string) :
  Py.all_chars (fun c => negb (Py.isupper c) && negb (Ascii.eqb c " ")
                         && negb (Ascii.eqb c "_"))
               (GitManager.repo_name title) = true.
Proof.
  unfold GitManager.repo_name.
  induction title as [|c title IH]; [reflexivity|].
  cbn [Py.lower Py.replace_char Py.all_chars]. rewrite IH, andb_true_r.
  clear IH. by_cases_on_char c.
Qed.

Lemma repo_name_length (title : string) :
  String.length (GitManager.repo_name title) = String.length title.
Proof.
  unfold GitManager.repo_name.
  induction title as [|c title IH]; [reflexivity|].
  cbn [Py.lower Py.replace_char String.length]. now rewrite IH.
Qed.

Lemma repo_name_fixed (r : string) :
  Py.all_chars (fun c => negb (Py.isupper c) && negb (Ascii.eqb c " ")
                         && negb (Ascii.eqb c "_")) r = true ->
  GitManager.repo_name r = r.
Proof.
  unfold GitManager.repo_name.
  induction r as [|c r IH]; [reflexivity|].
  cbn [Py.all_chars]. intros H. apply andb_true_iff in H.
  destruct H as [Hc Hr].
  cbn [Py.lower Py.replace_char]. rewrite (IH Hr). f_equal.
  clear IH Hr. revert Hc. by_cases_on_char c.
Qed.

Lemma repo_name_plain_title (title : string) :
  Py.all_chars (fun c => Py.isalnum c || Ascii.eqb c " " || Ascii.eqb c "-")
               title = true ->
  _sanitize_name title = GitManager.repo_name title.
Proof.
  unfold _sanitize_name, GitManager.repo_name. cbv zeta.
  induction title as [|c title IH]; [reflexivity|].
  cbn [Py.all_chars]. intros H. apply andb_true_iff in H.
  destruct H as [Hc Ht].
  cbn [Py.lower Py.filter_chars].
  assert (Hk : kept (Py.lower_ascii c) = true
               /\ (if Ascii.eqb (Py.lower_ascii c) " " then "-"%char
                   else Py.lower_ascii c)
                  = (if Ascii.eqb
                          (if Ascii.eqb (Py.lower_ascii c) " " then "-"%char
                           else Py.lower_ascii c) "_"
                     then "-"%char
                     else if Ascii.eqb (Py.lower_ascii c) " " then "-"%char
                          else Py.lower_ascii c)).
  { clear IH Ht. revert Hc. by_cases_on_char c. }
  destruct Hk as [Hk He]. rewrite Hk.
  cbn [Py.replace_char]. rewrite (IH Ht). f_equal. exact He.
Qed.

(** X29.  Repository names.  The name of the remote repository has the length of
    the title and holds no upper-case letter, no blank and no underscore;
    deriving a name from it again gives the same name; and for a title made
    of letters, digits, blanks and hyphens it is the name of the project
    directory. *)
Theorem repo_name_spec (title : string) :
  let r := GitManager.repo_name title in
  String.length r = String.length title /\
  Py.contains " " r = false /\
  Py.contains "_" r = false /\
  Py.all_chars (fun c => negb (Py.isupper c)) r = true /\
  GitManager.repo_name r = r /\
  (Py.all_chars (fun c => Py.isalnum c || Ascii.eqb c " " || Ascii.eqb c "-")
                title = true ->
   _sanitize_name title = r).
Proof.
  intros r. pose proof (repo_name_chars title) as H. fold r in H.
  split; [apply repo_name_length|].
  split; [now apply (all_chars_excludes _ " "%char _ H)|].
  split; [now apply (all_chars_excludes _ "_"%char _ H)|].
  split.
  { clear -H. induction r as [|c r IH]; [reflexivity|].
    cbn [Py.all_chars] in *. apply andb_true_iff in H. destruct H as [Hc Hr].
    rewrite (IH Hr), andb_true_r.
    destruct (Py.isupper c); [discriminate | reflexivity]. }
  split; [now apply repo_name_fixed | apply repo_name_plain_title].
Qed.

Lemma repo_name_spec_witness :
  _sanitize_name "Task Manager 2" = GitManager.repo_name "Task Manager 2".
Proof.
  apply (proj2 (proj2 (proj2 (proj2 (proj2
           (repo_name_spec "Task Manager 2")))))).
  reflexivity.
Defined.

End CodeGeneratorSpec.

(** ** The progress bar of the dashboard *)

Module DashboardSpec.
Import Dashboard.

Lemma length_repeat_char (c : ascii) (n : Z) :
  String.length (Py.repeat_char c n) = Z.to_nat n.
Proof.
  unfold Py.repeat_char. induction (Z.to_nat n) as [|k IH];
    [reflexivity|].
  simpl. now f_equal.
Qed.

Lemma length_bar (percentage : Q) :
  String.length (bar percentage)
  = (Z.to_nat (filled percentage) + Z.to_nat (20 - filled percentage))%nat.
Proof.
  unfold bar.
  rewrite PyFacts.length_append, !length_repeat_char. reflexivity.
Qed.

Lemma filled_range (percentage : Q) :
  (0 <= filled percentage <-> (-5 < percentage)%Q) /\
  (filled percentage <= 20 <-> (percentage < 105)%Q).
Proof.
  unfold filled, Py.int_of.
  set (x := (20 * (percentage / 100))%Q).
  assert (Hx : (x == percentage / 5)%Q) by (subst x; field).
  assert (Hp : (percentage == 5 * x)%Q) by (rewrite Hx; field).
  clearbody x.
  destruct (Qle_bool 0 x) eqn:E.
  - apply Qle_bool_iff in E.
    pose proof (Qfloor_le x) as Hlo. pose proof (Qlt_floor x) as Hhi.
    rewrite inject_Z_plus in Hhi. change (inject_Z 1) with 1%Q in Hhi.
    assert (H0 : 0 <= Qfloor x).
    { assert (H : (inject_Z 0 < inject_Z (Qfloor x + 1))%Q).
      { rewrite inject_Z_plus. change (inject_Z 0) with 0%Q.
        change (inject_Z 1) with 1%Q. lra. }
      rewrite <- Zlt_Qlt in H. lia. }
    split; split; intros H; try lia; try lra.
    + assert (H' : (inject_Z (Qfloor x) <= inject_Z 20)%Q)
        by (now rewrite <- Zle_Qle).
      change (inject_Z 20) with 20%Q in H'. lra.
    + assert (H' : (inject_Z (Qfloor x) < inject_Z 21)%Q).
      { change (inject_Z 21) with 21%Q. lra. }
      rewrite <- Zlt_Qlt in H'. lia.
  - assert (E' : (x < 0)%Q).
    { apply Qnot_le_lt. intros H. apply Qle_bool_iff in H. congruence. }
    pose proof (Qle_ceiling x) as Hhi. pose proof (Qceiling_lt x) as Hlo.
    unfold Z.sub in Hlo. rewrite inject_Z_plus in Hlo.
    change (inject_Z (- (1))) with (-1)%Q in Hlo.
    assert (H0 : Qceiling x <= 0).
    { assert (H : (inject_Z (Qceiling x) < inject_Z 1)%Q).
      { change (inject_Z 1) with 1%Q. lra. }
      rewrite <- Zlt_Qlt in H. lia. }
    split; split; intros H; try lia; try lra.
    + assert (H' : (inject_Z 0 <= inject_Z (Qceiling x))%Q)
        by (now rewrite <- Zle_Qle).
      change (inject_Z 0) with 0%Q in H'. lra.
    + assert (H' : (inject_Z (-1) < inject_Z (Qceiling x))%Q).
      { change (inject_Z (-1)) with (-1)%Q. lra. }
      rewrite <- Zlt_Qlt in H'. lia.
Qed.

(** X30.  Width of the bar.  The bar is never shorter than 20 cells, and it has
    exactly 20 cells when the percentage lies strictly between -5 and 105;
    so it has 20 cells for every proficiency on the scale of 0 to 100, of
    which the filled ones are those that the percentage has completed,
    [floor(percentage / 5)]; beyond these bounds the bar is longer. *)
Theorem progress_bar_width (percentage : Q) :
  (20 <= String.length (bar percentage))%nat /\
  (String.length (bar percentage) = 20%nat <->
   (-5 < percentage < 105)%Q) /\
  ((0 <= percentage <= 100)%Q ->
   String.length (bar percentage) = 20%nat /\
   0 <= filled percentage <= 20 /\
   (inject_Z (filled percentage) * 5 <= percentage
    < inject_Z (filled percentage) * 5 + 5)%Q).
Proof.
  pose proof (length_bar percentage) as Hlen.
  destruct (filled_range percentage) as [H0 H20].
  split; [lia|]. split.
  - split.
    + intros H.
      assert (K : 0 <= filled percentage <= 20) by lia.
      split; [apply H0 | apply H20]; lia.
    + intros [A B]. apply H0 in A. apply H20 in B. lia.
  - intros [Hlo Hhi].
    assert (A : 0 <= filled percentage) by (apply H0; lra).
    assert (B : filled percentage <= 20) by (apply H20; lra).
    split; [lia|]. split; [lia|].
    unfold filled, Py.int_of.
    assert (Hx : (0 <= 20 * (percentage / 100))%Q).
    { apply Qmult_le_0_compat; [lra|].
      apply Qle_shift_div_l; lra. }
    apply Qle_bool_iff in Hx. rewrite Hx.
    pose proof (Qfloor_le (20 * (percentage / 100))) as Flo.
    pose proof (Qlt_floor (20 * (percentage / 100))) as Fhi.
    rewrite inject_Z_plus in Fhi. change (inject_Z 1) with 1%Q in Fhi.
    assert (Hp : (percentage == 5 * (20 * (percentage / 100)))%Q) by field.
    set (x := (20 * (percentage / 100))%Q) in *. clearbody x.
    split; lra.
Qed.

Lemma progress_bar_width_witness :
  String.length (bar 37) = 20%nat /\ filled 37 = 7 /\
  String.length (bar 120) = 24%nat.
Proof.
  split; [|split; reflexivity].
  apply (proj1 (proj2 (proj2 (progress_bar_width 37)) ltac:(lra))).
Defined.

End DashboardSpec.
